(** * commit-gen-ai: the commit-message helper, embedded and verified

    The source file [src/commit-gen-ai.py] holds two scripts one after the
    other.  The first (lines 1-1124) works on plain message strings and a
    structured [COMMIT_FORMAT_CONFIG]; the second (lines 1127-2594) works on
    dictionaries of six fields and has a command-line dispatcher.  They are
    embedded below as the modules [V1] and [V2], on top of a small layer of
    Python string operations ([Py]). *)

From Stdlib Require Import ZArith NArith List Bool Lia String Ascii.
From Stdlib Require Import DecimalString.
From stdpp Require Import base option list gmap.
Import ListNotations.

Local Open Scope nat_scope.

(** ** Python strings

    A Python [str] is a sequence of Unicode code points.  The literals of the
    program are ASCII and are written with [lit].  The character tables of the
    interpreter are exact on ASCII below; beyond ASCII they, and
    [textwrap.fill], are the interface [PyRuntime]. *)

Module Py.

Abbreviation char := N (only parsing).
Abbreviation str := (list N) (only parsing).

Definition chr (a : ascii) : char := N_of_ascii a.
Definition lit (s : string) : str := map N_of_ascii (list_ascii_of_string s).
Arguments lit s%_string.

(** The line feed, for the literal ["\n"]. *)
Definition nl : string := String (ascii_of_nat 10) EmptyString.

Class PyRuntime := {
  (** [c.upper()] for a one-character string: one to three code points. *)
  uni_upper : char -> str;
  (** [c.isupper()], [c.isspace()] and the regular-expression class [\d]. *)
  uni_isupper : char -> bool;
  uni_isspace : char -> bool;
  uni_isdecimal : char -> bool;
  (** [textwrap.fill(text, width=w, subsequent_indent=ind)]. *)
  textwrap_fill : str -> Z -> str -> str;
  uni_upper_nonempty : forall c, uni_upper c <> [];
  uni_isupper_upper : forall c, uni_isupper c = true -> uni_upper c = [c]
}.

Section Strings.
Context `{RT : PyRuntime}.

Definition is_ascii (c : char) : bool := (c <? 128)%N.

Definition isupper (c : char) : bool :=
  if is_ascii c then ((65 <=? c) && (c <=? 90))%N else uni_isupper c.

Definition upper_char (c : char) : str :=
  if is_ascii c then
    (if ((97 <=? c) && (c <=? 122))%N then [(c - 32)%N] else [c])
  else uni_upper c.

(** Whitespace as [str.strip()] sees it: TAB..CR, FS..US and the space. *)
Definition isspace (c : char) : bool :=
  if is_ascii c then
    (((9 <=? c) && (c <=? 13)) || ((28 <=? c) && (c <=? 32)))%N
  else uni_isspace c.

Definition isdecimal (c : char) : bool :=
  if is_ascii c then ((48 <=? c) && (c <=? 57))%N else uni_isdecimal c.

(** Truth value of a string: [if s:]. *)
Definition truthy (s : str) : bool :=
  match s with [] => false | _ :: _ => true end.

Fixpoint startswith (p s : str) : bool :=
  match p, s with
  | [], _ => true
  | _ :: _, [] => false
  | a :: p', b :: s' => (a =? b)%N && startswith p' s'
  end.

Definition endswith (p s : str) : bool := startswith (rev p) (rev s).

(** [sub in s]. *)
Fixpoint contains (sub s : str) : bool :=
  startswith sub s ||
  match s with
  | [] => false
  | _ :: s' => contains sub s'
  end.

(** [s[:-1]]. *)
Definition drop_last (s : str) : str := removelast s.

Fixpoint lstrip_by (f : char -> bool) (s : str) : str :=
  match s with
  | c :: s' => if f c then lstrip_by f s' else s
  | [] => []
  end.

Definition strip_by (f : char -> bool) (s : str) : str :=
  rev (lstrip_by f (rev (lstrip_by f s))).

(** [s.strip()] and [s.strip(chars)]. *)
Definition strip (s : str) : str := strip_by isspace s.
Definition strip_chars (chars s : str) : str :=
  strip_by (fun c => existsb (N.eqb c) chars) s.

(** [sep.join(parts)]. *)
Fixpoint join (sep : str) (parts : list str) : str :=
  match parts with
  | [] => []
  | [p] => p
  | p :: ps => p ++ sep ++ join sep ps
  end.

(** [s.split(sep)] for a non-empty separator: [skip] counts the characters
    of a separator just matched that are still to be passed over, [cur] is
    the piece being read, reversed. *)
Fixpoint split_go (sep : str) (skip : nat) (cur s : str) : list str :=
  match s with
  | [] => [rev cur]
  | c :: s' =>
      match skip with
      | S k => split_go sep k cur s'
      | O =>
          if startswith sep s
          then rev cur :: split_go sep (length sep - 1) [] s'
          else split_go sep 0 (c :: cur) s'
      end
  end.

Definition split (sep s : str) : list str := split_go sep 0 [] s.

(** [s.split(sep, 1)]: the text before the first separator and, when there
    is one, the text after it. *)
Fixpoint split1_go (sep cur s : str) : str * option str :=
  if startswith sep s then (rev cur, Some (skipn (length sep) s))
  else match s with
       | [] => (rev cur, None)
       | c :: s' => split1_go sep (c :: cur) s'
       end.

Definition split1 (sep s : str) : str * option str := split1_go sep [] s.

(** [s.replace(old, new)] for a non-empty [old]. *)
Fixpoint replace_go (old new : str) (skip : nat) (s : str) : str :=
  match s with
  | [] => []
  | c :: s' =>
      match skip with
      | S k => replace_go old new k s'
      | O =>
          if startswith old s
          then new ++ replace_go old new (length old - 1) s'
          else c :: replace_go old new 0 s'
      end
  end.

Definition replace (old new s : str) : str := replace_go old new 0 s.

Fixpoint take_while (f : char -> bool) (s : str) : str :=
  match s with
  | c :: s' => if f c then c :: take_while f s' else []
  | [] => []
  end.

(** [re.findall(r'#(\d+)', s)]: leftmost matches that do not overlap, each
    with the longest run of digits; the result lists the digit runs. *)
Fixpoint findall_issue_go (skip : nat) (s : str) : list str :=
  match s with
  | [] => []
  | c :: s' =>
      match skip with
      | S k => findall_issue_go k s'
      | O =>
          if (c =? chr "#")%N then
            match take_while isdecimal s' with
            | [] => findall_issue_go 0 s'
            | ds => ds :: findall_issue_go (length ds) s'
            end
          else findall_issue_go 0 s'
      end
  end.

Definition findall_issue (s : str) : list str := findall_issue_go 0 s.

(** [a == b]. *)
Definition str_eqb (a b : str) : bool := bool_decide (a = b).

(** [s.upper()]. *)
Definition upper (s : str) : str := flat_map upper_char s.

(** [s.find(c)] and [s.rfind(c)] for one character; [None] stands for -1. *)
Fixpoint find_char (c : char) (s : str) : option nat :=
  match s with
  | [] => None
  | x :: s' => if (x =? c)%N then Some 0 else S <$> find_char c s'
  end.

Definition rfind_char (c : char) (s : str) : option nat :=
  (fun i => length s - 1 - i) <$> find_char c (rev s).

(** [s[i:j]] for indices that are not negative. *)
Definition slice {A} (i j : nat) (s : list A) : list A :=
  firstn (j - i) (skipn i s).

(** [l[i]]: a negative index counts from the end; [None] is [IndexError]. *)
Definition getitem {A} (l : list A) (i : Z) : option A :=
  if (i <? 0)%Z
  then (if (- i <=? Z.of_nat (length l))%Z
        then nth_error l (Z.to_nat (Z.of_nat (length l) + i)) else None)
  else nth_error l (Z.to_nat i).

End Strings.

(** A runtime with nothing beyond ASCII: it serves to run the definitions on
    ASCII inputs with an empty body, where none of its fields is consulted. *)
#[export] Instance ascii_runtime : PyRuntime := {|
  uni_upper c := [c];
  uni_isupper _ := false;
  uni_isspace _ := false;
  uni_isdecimal _ := false;
  textwrap_fill t _ _ := t;
  uni_upper_nonempty c := fun H => nil_cons (eq_sym H);
  uni_isupper_upper c := fun H => False_ind _ (diff_false_true H)
|}.

End Py.

(** ** JSON text, as [json.loads] reads it

    The decoder of the Python library: objects, arrays, strings with their
    escapes, numbers (kept as their text), [true], [false], [null] and the
    constants [NaN], [Infinity] and [-Infinity] that Python accepts.  Every
    failure of the library is a [JSONDecodeError]; its recursion limit is not
    modelled. *)

Module Json.
Import Py.

#[local] Set Warnings "-register-all".

Inductive json :=
| JNull
| JBool (b : bool)
| JNum (text : str)
| JConst (name : str)
| JStr (s : str)
| JArr (items : list json)
| JObj (members : list (str * json)).

(** Outcome of reading a value at the head of a text: the value and the text
    left, a decoding error, or no fuel left. *)
Inductive parse (A : Type) :=
| POk (a : A) (rest : str)
| PErr
| PFuel.
Arguments POk {A} a rest.
Arguments PErr {A}.
Arguments PFuel {A}.

Definition is_ws (c : char) : bool :=
  ((c =? 32) || (c =? 9) || (c =? 10) || (c =? 13))%N.

Fixpoint skip_ws (s : str) : str :=
  match s with
  | c :: s' => if is_ws c then skip_ws s' else s
  | [] => []
  end.

Definition is_digit (c : char) : bool := ((48 <=? c) && (c <=? 57))%N.

Definition hex_value (c : char) : option N :=
  if is_digit c then Some (c - 48)%N
  else if ((65 <=? c) && (c <=? 70))%N then Some (c - 55)%N
  else if ((97 <=? c) && (c <=? 102))%N then Some (c - 87)%N
  else None.

Definition hex4 (a b c d : char) : option N :=
  match hex_value a, hex_value b, hex_value c, hex_value d with
  | Some x, Some y, Some z, Some w => Some (((x * 16 + y) * 16 + z) * 16 + w)%N
  | _, _, _, _ => None
  end.

Definition simple_escape (c : char) : option char :=
  if (c =? 34)%N then Some 34%N            (* quote *)
  else if (c =? 92)%N then Some 92%N       (* backslash *)
  else if (c =? 47)%N then Some 47%N       (* slash *)
  else if (c =? 98)%N then Some 8%N        (* b *)
  else if (c =? 102)%N then Some 12%N      (* f *)
  else if (c =? 110)%N then Some 10%N      (* n *)
  else if (c =? 114)%N then Some 13%N      (* r *)
  else if (c =? 116)%N then Some 9%N       (* t *)
  else None.

Definition is_high_surrogate (u : N) : bool :=
  ((55296 <=? u) && (u <=? 56319))%N.
Definition is_low_surrogate (u : N) : bool :=
  ((56320 <=? u) && (u <=? 57343))%N.

(** A high surrogate waiting for its low half is kept in [pending]; [acc] is
    the text read so far, reversed. *)
Definition flush (pending : option N) (acc : str) : str :=
  match pending with Some hi => hi :: acc | None => acc end.

(** The text after an opening quote, up to the closing one. *)
Fixpoint scanstring (pending : option N) (acc s : str) : parse str :=
  match s with
  | [] => PErr
  | c :: r =>
      if (c =? 34)%N then POk (rev (flush pending acc)) r
      else if (c =? 92)%N then
        match r with
        | [] => PErr
        | e :: r1 =>
            if (e =? 117)%N then                       (* \uXXXX *)
              match r1 with
              | h1 :: h2 :: h3 :: h4 :: r2 =>
                  match hex4 h1 h2 h3 h4 with
                  | None => PErr
                  | Some u =>
                      match pending with
                      | Some hi =>
                          if is_low_surrogate u
                          then scanstring None
                                 ((65536 + (hi - 55296) * 1024 + (u - 56320))%N
                                  :: acc) r2
                          else if is_high_surrogate u
                          then scanstring (Some u) (hi :: acc) r2
                          else scanstring None (u :: hi :: acc) r2
                      | None =>
                          if is_high_surrogate u
                          then scanstring (Some u) acc r2
                          else scanstring None (u :: acc) r2
                      end
                  end
              | _ => PErr
              end
            else
              match simple_escape e with
              | Some x => scanstring None (x :: flush pending acc) r1
              | None => PErr
              end
        end
      else if (c <? 32)%N then PErr
      else scanstring None (c :: flush pending acc) r
  end.

(** The longest prefix that is a number: an optional minus sign, then a
    zero or a run of digits that does not start with zero, then optionally a
    point with digits, then optionally an exponent with digits. *)
Definition span_digits (s : str) : str * str :=
  (take_while is_digit s, skipn (length (take_while is_digit s)) s).

Definition match_int (s : str) : option (str * str) :=
  match s with
  | c :: r =>
      if (c =? 48)%N then Some ([c], r)
      else if is_digit c then
        let '(ds, r') := span_digits r in Some (c :: ds, r')
      else None
  | [] => None
  end.

Definition match_frac (s : str) : str * str :=
  match s with
  | c :: r =>
      if (c =? 46)%N then
        match span_digits r with
        | ([], _) => ([], s)
        | (ds, r') => (c :: ds, r')
        end
      else ([], s)
  | [] => ([], s)
  end.

Definition match_exp (s : str) : str * str :=
  match s with
  | e :: r =>
      if ((e =? 101) || (e =? 69))%N then
        match r with
        | sg :: r1 =>
            if ((sg =? 45) || (sg =? 43))%N then
              match span_digits r1 with
              | ([], _) => ([], s)
              | (ds, r') => (e :: sg :: ds, r')
              end
            else
              match span_digits r with
              | ([], _) => ([], s)
              | (ds, r') => (e :: ds, r')
              end
        | [] => ([], s)
        end
      else ([], s)
  | [] => ([], s)
  end.

Definition match_number (s : str) : option (str * str) :=
  let '(sign, s1) :=
    match s with
    | c :: r => if (c =? 45)%N then ([c], r) else ([], s)
    | [] => ([], s)
    end in
  match match_int s1 with
  | None => None
  | Some (i, s2) =>
      let '(f, s3) := match_frac s2 in
      let '(e, s4) := match_exp s3 in
      Some (sign ++ i ++ f ++ e, s4)
  end.

Definition keyword (k : string) (v : json) (s : str) : option (json * str) :=
  if startswith (lit k) s then Some (v, skipn (length (lit k)) s) else None.

Definition scan_atom (s : str) : parse json :=
  match keyword "null" JNull s with
  | Some (v, r) => POk v r
  | None =>
  match keyword "true" (JBool true) s with
  | Some (v, r) => POk v r
  | None =>
  match keyword "false" (JBool false) s with
  | Some (v, r) => POk v r
  | None =>
  match match_number s with
  | Some (t, r) => POk (JNum t) r
  | None =>
  match keyword "NaN" (JConst (lit "NaN")) s with
  | Some (v, r) => POk v r
  | None =>
  match keyword "Infinity" (JConst (lit "Infinity")) s with
  | Some (v, r) => POk v r
  | None =>
  match keyword "-Infinity" (JConst (lit "-Infinity")) s with
  | Some (v, r) => POk v r
  | None => PErr
  end end end end end end end.

(** [scan_once] reads one value; [json_object] and [json_array] read the
    members that follow an opening brace or bracket, [s] standing at the
    first of them.  Each call spends one unit of fuel; two calls in a row
    start further in the text than where the first was made. *)
Fixpoint scan_once (fuel : nat) (s : str) : parse json :=
  match fuel with
  | O => PFuel
  | S fuel' =>
      match s with
      | [] => PErr
      | c :: r =>
          if (c =? 34)%N then
            match scanstring None [] r with
            | POk t r' => POk (JStr t) r'
            | PErr => PErr
            | PFuel => PFuel
            end
          else if (c =? 123)%N then                      (* { *)
            match skip_ws r with
            | c1 :: r1 =>
                if (c1 =? 125)%N then POk (JObj []) r1
                else json_object fuel' [] (c1 :: r1)
            | [] => PErr
            end
          else if (c =? 91)%N then                       (* [ *)
            match skip_ws r with
            | c1 :: r1 =>
                if (c1 =? 93)%N then POk (JArr []) r1
                else json_array fuel' [] (c1 :: r1)
            | [] => PErr
            end
          else scan_atom s
      end
  end
with json_object (fuel : nat) (acc : list (str * json)) (s : str)
    : parse json :=
  match fuel with
  | O => PFuel
  | S fuel' =>
      match s with
      | c :: r =>
          if (c =? 34)%N then
            match scanstring None [] r with
            | POk key r1 =>
                match skip_ws r1 with
                | c2 :: r2 =>
                    if (c2 =? 58)%N then                 (* : *)
                      match scan_once fuel' (skip_ws r2) with
                      | POk v r3 =>
                          match skip_ws r3 with
                          | c4 :: r4 =>
                              if (c4 =? 125)%N
                              then POk (JObj (rev ((key, v) :: acc))) r4
                              else if (c4 =? 44)%N
                              then json_object fuel' ((key, v) :: acc)
                                     (skip_ws r4)
                              else PErr
                          | [] => PErr
                          end
                      | PErr => PErr
                      | PFuel => PFuel
                      end
                    else PErr
                | [] => PErr
                end
            | PErr => PErr
            | PFuel => PFuel
            end
          else PErr
      | [] => PErr
      end
  end
with json_array (fuel : nat) (acc : list json) (s : str) : parse json :=
  match fuel with
  | O => PFuel
  | S fuel' =>
      match scan_once fuel' s with
      | POk v r1 =>
          match skip_ws r1 with
          | c2 :: r2 =>
              if (c2 =? 93)%N then POk (JArr (rev (v :: acc))) r2
              else if (c2 =? 44)%N
              then json_array fuel' (v :: acc) (skip_ws r2)
              else PErr
          | [] => PErr
          end
      | PErr => PErr
      | PFuel => PFuel
      end
  end.

(** With [fuel] units the three readers do not run out of fuel on texts of
    less than half that length, and what they leave is shorter than what
    they were given. *)
Definition adequate (fuel : nat) : Prop :=
  (forall s, 2 * length s < fuel ->
     scan_once fuel s <> PFuel
     /\ forall v r, scan_once fuel s = POk v r -> length r < length s)
  /\ (forall acc s, 2 * length s + 1 < fuel ->
     json_object fuel acc s <> PFuel
     /\ forall v r, json_object fuel acc s = POk v r -> length r < length s)
  /\ (forall acc s, 2 * length s + 1 < fuel ->
     json_array fuel acc s <> PFuel
     /\ forall v r, json_array fuel acc s = POk v r -> length r < length s).

(** [json.loads(s)]: one value, with nothing but whitespace around it. *)
Definition json_loads (s : str) : parse json :=
  match scan_once (S (2 * length s)) (skip_ws s) with
  | POk v r => match skip_ws r with [] => POk v [] | _ :: _ => PErr end
  | PErr => PErr
  | PFuel => PFuel
  end.

End Json.

(** ** The outside world

    What the scripts do to their surroundings: they read lines from standard
    input, print, run [git] and post one request to the remote model.  A
    [world] holds what the surroundings will answer and the [trace] of what
    the program did.  Fixed console messages are recorded by kind, with the
    language they were asked in; rules, menus and prompts are left out. *)

Module Sys.
Import Py.

(** What one [requests.post] and the reading of its reply come to. *)
Inductive post_outcome :=
| TransportError                 (* [requests.post] raised *)
| HttpError (status : Z)         (* [raise_for_status] raised *)
| BadPayload                     (* the reply has no string at
                                    [choices[0].message.content] *)
| Content (content : str).

(** What one [subprocess.run] comes to once [git] has been started.  A
    program that cannot be started at all ([FileNotFoundError], an argument
    that cannot be passed) is not among the surroundings described here. *)
Inductive proc_outcome :=
| Exit0 (stdout : str)
| ExitNonZero.

Inductive exn :=
| EOFError
| KeyError (key : str)
| IndexError
| AttributeError
| CalledProcessError
| RequestException
| HTTPError (status : Z)
| PayloadError
| KeyboardInterrupt
| SystemExit (code : Z).

(** The classes below [Exception]: [KeyboardInterrupt] and [SystemExit]
    derive from [BaseException] only, so [except Exception] lets them
    pass.  [SystemExit] is what [sys.exit] raises; the surroundings
    described by a [world] hold no interrupt from the keyboard, so
    [KeyboardInterrupt] is there for the handlers that name it. *)
Definition is_exception (e : exn) : bool :=
  match e with
  | KeyboardInterrupt | SystemExit _ => false
  | _ => true
  end.

Inductive notice :=
| NoChanges
| Generating
| Regenerating
| FailedGenerate
| FailedRegenerate
| ErrorGenerating (e : exn)
| CommitCreated
| ErrorCreatingCommit (e : exn)
| Cancelled
| InvalidOption
| EnterMessage
| Editing
| GitCommandFailed (argv : list str)
| ErrorGettingDiff
| AllStaged
| Staged (count : nat)
| NoFilesSpecified
| CommandsExecuted.

Inductive event :=
| Posted
| Ran (argv : list str)
| Printed (text : str)
| Notice (lang : str) (n : notice)
| Tracked (command description : str).

Record world := {
  stdin : list str;                  (* the lines [input()] will return *)
  net : nat -> post_outcome;         (* the fate of the n-th request *)
  net_calls : nat;
  procs : nat -> proc_outcome;       (* the fate of the n-th subprocess *)
  proc_calls : nat;
  trace : list event
}.

(** A run ends with a value, with an exception, outside the fragment that
    is modelled, or with the fuel of a loop spent. *)
Inductive outcome (A : Type) :=
| Ret (a : A)
| Raise (e : exn)
| Beyond
| OutOfFuel.
Arguments Ret {A} a.
Arguments Raise {A} e.
Arguments Beyond {A}.
Arguments OutOfFuel {A}.

Definition M (A : Type) : Type := world -> outcome A * world.

(** How one pass through a [while True:] loop over a state [S] ends. *)
Inductive pass (S : Type) :=
| Again (st : S)          (* back to the top of the loop *)
| Leave.                  (* [break], or [return] *)
Arguments Again {S} st.
Arguments Leave {S}.

#[export] Instance M_ret : MRet M := fun A a w => (Ret a, w).

#[export] Instance M_bind : MBind M := fun A B f m w =>
  match m w with
  | (Ret a, w') => f a w'
  | (Raise e, w') => (Raise e, w')
  | (Beyond, w') => (Beyond, w')
  | (OutOfFuel, w') => (OutOfFuel, w')
  end.

Definition raise {A} (e : exn) : M A := fun w => (Raise e, w).
Definition beyond {A} : M A := fun w => (Beyond, w).
Definition out_of_fuel {A} : M A := fun w => (OutOfFuel, w).

(** [try: m except Exception as e: handler(e)]. *)
Definition try_except {A} (m : M A) (handler : exn -> M A) : M A := fun w =>
  match m w with
  | (Raise e, w') => if is_exception e then handler e w' else (Raise e, w')
  | r => r
  end.

(** [try: m except CalledProcessError as e: handler(e)]. *)
Definition try_except_called {A} (m : M A) (handler : exn -> M A) : M A :=
  fun w =>
  match m w with
  | (Raise CalledProcessError, w') => handler CalledProcessError w'
  | r => r
  end.

Definition lift_option {A} (e : exn) (o : option A) : M A :=
  match o with Some a => mret a | None => raise e end.

(** The world after an event, after a line has been read, after a request
    and after a subprocess. *)
Definition log (e : event) (w : world) : world :=
  {| stdin := stdin w; net := net w; net_calls := net_calls w;
     procs := procs w; proc_calls := proc_calls w;
     trace := trace w ++ [e] |}.

Definition left_to_read (rest : list str) (w : world) : world :=
  {| stdin := rest; net := net w; net_calls := net_calls w;
     procs := procs w; proc_calls := proc_calls w;
     trace := trace w |}.

Definition requested (w : world) : world :=
  {| stdin := stdin w; net := net w; net_calls := S (net_calls w);
     procs := procs w; proc_calls := proc_calls w;
     trace := trace w ++ [Posted] |}.

Definition spawned (argv : list str) (w : world) : world :=
  {| stdin := stdin w; net := net w; net_calls := net_calls w;
     procs := procs w; proc_calls := S (proc_calls w);
     trace := trace w ++ [Ran argv] |}.

Definition emit (e : event) : M unit := fun w => (Ret tt, log e w).

(** [input()]: the next line, or [EOFError] at the end of the input. *)
Definition input : M str := fun w =>
  match stdin w with
  | [] => (Raise EOFError, w)
  | line :: rest => (Ret line, left_to_read rest w)
  end.

(** The exception that a request with a given fate raises. *)
Definition raised (o : post_outcome) : option exn :=
  match o with
  | TransportError => Some RequestException
  | HttpError status => Some (HTTPError status)
  | BadPayload => Some PayloadError
  | Content _ => None
  end.

(** [requests.post(...)], [raise_for_status()] and the reading of
    [response.json()["choices"][0]["message"]["content"]]. *)
Definition post_content : M str := fun w =>
  match net w (net_calls w) with
  | TransportError => (Raise RequestException, requested w)
  | HttpError status => (Raise (HTTPError status), requested w)
  | BadPayload => (Raise PayloadError, requested w)
  | Content c => (Ret c, requested w)
  end.

(** [subprocess.run(argv)], without [check]. *)
Definition subprocess_run (argv : list str) : M proc_outcome := fun w =>
  (Ret (procs w (proc_calls w)), spawned argv w).

(** [subprocess.run(argv, check=True).stdout]. *)
Definition subprocess_check (argv : list str) : M str :=
  r ← subprocess_run argv;
  match r with
  | Exit0 out => mret out
  | ExitNonZero => raise CalledProcessError
  end.

End Sys.

(** ** First script: messages as plain strings *)

Module V1.
Import Py.

(** The part of [COMMIT_FORMAT_CONFIG["format_rules"]] that
    [format_commit_message] reads. *)
Record format_rules := {
  subject_max_length : nat;
  subject_capitalize : bool;
  subject_no_period : bool;
  body_wrap_length : Z;
  breaking_changes_prefix : str;
  footer_issue_references : str
}.

Definition COMMIT_FORMAT_CONFIG : format_rules := {|
  subject_max_length := 50;
  subject_capitalize := true;
  subject_no_period := true;
  body_wrap_length := 72;
  breaking_changes_prefix := lit "BREAKING CHANGE: ";
  footer_issue_references := lit "Soluciona: #{issue}"
|}.

Section Format.
Context `{RT : PyRuntime}.

Definition rules := COMMIT_FORMAT_CONFIG.

(** Step 1 of the subject rules: [subject[0].upper() + subject[1:]]. *)
Definition capitalize_subject (subject : str) : str :=
  if truthy subject && subject_capitalize rules then
    match subject with
    | c :: rest => upper_char c ++ rest
    | [] => subject
    end
  else subject.

(** Step 2: drop one final period. *)
Definition strip_period (subject : str) : str :=
  if truthy subject && subject_no_period rules && endswith (lit ".") subject
  then drop_last subject
  else subject.

(** Step 3: cut to [max_length]. *)
Definition limit_subject (subject : str) : str :=
  if subject_max_length rules <? length subject
  then firstn (subject_max_length rules) subject
  else subject.

Definition format_subject (subject : str) : str :=
  limit_subject (strip_period (capitalize_subject subject)).

Definition format_header (commit_type scope subject : str) : str :=
  if truthy scope
  then commit_type ++ lit "(" ++ scope ++ lit "): " ++ subject
  else commit_type ++ lit ": " ++ subject.

Definition is_bullet (s : str) : bool :=
  startswith (lit "-") (strip s) || startswith (lit "*") (strip s).

Definition format_bullet_line (line : str) : str :=
  if is_bullet line then
    let indent := lit "  " in
    let bullet := firstn 1 (strip line) ++ lit " " in
    let text := strip (skipn 2 (strip line)) in
    let wrapped_text :=
      textwrap_fill text
        (body_wrap_length rules - Z.of_nat (length bullet)
                                - Z.of_nat (length indent))%Z
        (indent ++ repeat (chr " ") (length bullet)) in
    bullet ++ wrapped_text
  else textwrap_fill line (body_wrap_length rules) [].

Definition format_paragraph (paragraph : str) : str :=
  if is_bullet paragraph
  then join (lit nl) (map format_bullet_line (split (lit nl) paragraph))
  else textwrap_fill paragraph (body_wrap_length rules) [].

Definition format_body (body : str) : str :=
  if truthy body
  then join (lit nl ++ lit nl)
            (map format_paragraph (split (lit nl ++ lit nl) body))
  else [].

Definition format_breaking (breaking : str) : str :=
  if truthy breaking
     && negb (startswith (breaking_changes_prefix rules) breaking)
  then breaking_changes_prefix rules ++ breaking
  else breaking.

Definition format_footer (footer : str) : str :=
  if truthy footer && contains (lit "#") footer
     && negb (contains (lit "Soluciona") footer)
     && negb (contains (lit "Closes") footer)
  then
    match findall_issue footer with
    | [] => footer
    | issue_refs =>
        join (lit nl)
          (map (fun ref =>
                  replace (lit "{issue}") ref (footer_issue_references rules))
               issue_refs)
    end
  else footer.

Definition message_parts
    (commit_type scope subject body breaking footer : str) : list str :=
  let header := format_header commit_type scope (format_subject subject) in
  let formatted_body := format_body body in
  let formatted_breaking := format_breaking breaking in
  let formatted_footer := format_footer footer in
  [header]
  ++ (if truthy formatted_body then [[]; formatted_body] else [])
  ++ (if truthy formatted_breaking
      then (if negb (truthy formatted_body) then [[]] else [])
           ++ [formatted_breaking]
      else [])
  ++ (if truthy formatted_footer
      then (if negb (truthy formatted_body)
               && negb (truthy formatted_breaking) then [[]] else [])
           ++ [formatted_footer]
      else []).

Definition format_commit_message
    (commit_type scope subject body breaking footer : str) : str :=
  join (lit nl)
       (message_parts commit_type scope subject body breaking footer).

End Format.

(** *** The remote generator and the review loop *)

Section Effects.
Context `{RT : PyRuntime}.
Import Sys.

(** [run_git_command]: the trimmed output, or [None] after a failure, which
    it reports itself. *)
Definition run_git_command (command : list str) : M (option str) :=
  try_except_called
    (out ← subprocess_check command; mret (Some (strip out)))
    (fun _ => emit (Notice (lit "es") (GitCommandFailed command));; mret None).

Definition track_command (command description : str) : M unit :=
  emit (Tracked command description).

(** [generate_commit_message], lines 316-426.  The prompt it builds has no
    part in what it returns and is left out. *)
Definition generate_commit_message
    (api_key diff commit_type scope lang : str) : M str :=
  if negb (truthy diff) then
    mret (if str_eqb lang (lit "en") then lit "No changes to commit"
          else lit "No hay cambios para hacer commit")
  else
    try_except
      (content ← post_content; mret (strip content))
      (fun e => emit (Notice (lit "en") (ErrorGenerating e));; mret []).

(** The inner loop of the edit branch: lines are read until an empty line
    that comes first or follows an empty line. *)
Fixpoint read_lines_go (lines : list str) (pending : list str)
    : option (list str) * list str :=
  match pending with
  | [] => (None, [])
  | line :: rest =>
      if negb (truthy line)
         && (match lines with
             | [] => true
             | _ => negb (truthy (List.last lines []))
             end)
      then (Some lines, rest)
      else read_lines_go (lines ++ [line]) rest
  end.

Definition read_lines : M (list str) := fun w =>
  let '(r, rest) := read_lines_go [] (stdin w) in
  match r with
  | Some lines => (Ret lines, left_to_read rest w)
  | None => (Raise EOFError, left_to_read rest w)
  end.

(** The state of the review loop of [create_new_commit]. *)
Record review := {
  formatted_message : str;
  message_history : list str;
  current_index : nat
}.

Definition git_commit_argv (message : str) : list str :=
  [lit "git"; lit "commit"; lit "-m"; message].

(** One pass of [while True:], lines 809-872. *)
Definition review_pass
    (api_key diff commit_type scope lang : str) (st : review)
    : M (pass review) :=
  emit (Printed (formatted_message st));;
  line ← input;
  let choice := upper (strip line) in
  if str_eqb choice (lit "A") then
    try_except
      (run_git_command (git_commit_argv (formatted_message st));;
       track_command
         (lit "git commit -m " ++ [34%N] ++ formatted_message st ++ [34%N])
         (lit "Create new commit / Crear nuevo commit");;
       emit (Notice lang CommitCreated);;
       mret Leave)
      (fun e => emit (Notice lang (ErrorCreatingCommit e));;
                mret Leave)
  else if str_eqb choice (lit "R") then
    emit (Notice lang Regenerating);;
    new_message ← generate_commit_message api_key diff commit_type scope lang;
    if truthy new_message then
      let history := message_history st ++ [new_message] in
      mret (Again {| formatted_message := new_message;
                     message_history := history;
                     current_index := length history - 1 |})
    else
      emit (Notice lang FailedRegenerate);;
      mret (Again st)
  else if str_eqb choice (lit "E") then
    emit (Printed (formatted_message st));;
    emit (Notice lang EnterMessage);;
    lines ← read_lines;
    let message := join (lit nl) lines in
    let history := message_history st ++ [message] in
    mret (Again {| formatted_message := message;
                   message_history := history;
                   current_index := length history - 1 |})
  else if str_eqb choice (lit "C") then
    emit (Notice lang Cancelled);;
    mret Leave
  else
    emit (Notice lang InvalidOption);;
    mret (Again st).

Fixpoint review_loop (fuel : nat)
    (api_key diff commit_type scope lang : str) (st : review) : M unit :=
  match fuel with
  | O => out_of_fuel
  | S fuel' =>
      p ← review_pass api_key diff commit_type scope lang st;
      match p with
      | Again st' => review_loop fuel' api_key diff commit_type scope lang st'
      | Leave => mret tt
      end
  end.

(** [create_new_commit] from the point where the diff, the type and the
    scope have been obtained (line 797 on): the first message is generated
    and the loop is entered with it.  Each pass reads at least one line, so
    one unit of fuel per line of input left, and one more, is enough. *)
Definition create_new_commit_from
    (api_key diff commit_type scope lang : str) : M unit :=
  emit (Notice lang Generating);;
  message ← generate_commit_message api_key diff commit_type scope lang;
  if negb (truthy message) then
    emit (Notice lang FailedGenerate)
  else
    fun w =>
      review_loop (S (length (stdin w))) api_key diff commit_type scope lang
        {| formatted_message := message;
           message_history := [message];
           current_index := 0 |} w.

End Effects.
End V1.


(** ** Second script: messages as dictionaries of six fields *)

Module V2.
Import Py Json Sys.

Section Script.
Context `{RT : PyRuntime}.

(** A commit message as [generate_commit_message] returns it: a dictionary
    from field names to texts. *)
Definition dict_truthy (d : gmap str str) : bool :=
  negb (bool_decide (d = ∅)).

(** [d.setdefault(k, v)]. *)
Definition setdefault (k v : str) (d : gmap str str) : gmap str str :=
  match d !! k with
  | Some _ => d
  | None => <[k := v]> d
  end.

(** [d.get(k)] read for its truth value or its text: a missing key gives
    [None], which is false. *)
Definition get (d : gmap str str) (k : str) : str := default [] (d !! k).

Definition six_fields
    (commit_type scope subject body breaking footer : str) : gmap str str :=
  <[lit "footer" := footer]>
  (<[lit "breaking" := breaking]>
  (<[lit "body" := body]>
  (<[lit "subject" := subject]>
  (<[lit "scope" := scope]>
  (<[lit "type" := commit_type]> ∅))))).

(** The dictionary of a decoded JSON object, later members winning; [None]
    when a member is not a string, which the model does not follow. *)
Definition fields_of_members (ms : list (str * json)) : option (gmap str str) :=
  fold_left
    (fun acc kv =>
       match acc, snd kv with
       | Some d, JStr s => Some (<[fst kv := s]> d)
       | _, _ => None
       end)
    ms (Some ∅).

Definition blank (line : str) : bool := negb (truthy (strip line)).

Fixpoint count_blank (ls : list str) : nat :=
  match ls with
  | l :: r => if blank l then S (count_blank r) else 0
  | [] => 0
  end.

(** The [for] loop of lines 1387-1390 over [ls = lines[i:]]: the index after
    the first blank line that is followed by a line that is not blank. *)
Fixpoint find_footer_start (i : nat) (ls : list str) : option nat :=
  match ls with
  | l :: r =>
      match r with
      | l' :: _ =>
          if blank l && negb (blank l') then Some (S i)
          else find_footer_start (S i) r
      | [] => None
      end
  | [] => None
  end.

(** The manual extraction of lines 1354-1415. *)
Definition fallback_fields (ai_response : str) : gmap str str :=
  let lines := split (lit nl) ai_response in
  let header := match lines with l :: _ => l | [] => [] end in
  let '(commit_type, scope, subject) :=
    match split1 (lit ":") header with
    | (before, Some after) =>
        let type_scope := strip before in
        let subject := strip after in
        if contains (lit "(") type_scope && contains (lit ")") type_scope
        then
          match split1 (lit "(") type_scope with
          | (t, Some rest) =>
              (strip t, strip (fst (split1 (lit ")") rest)), subject)
          | (t, None) => (strip t, [], subject)
          end
        else (type_scope, [], subject)
    | (_, None) => ([], [], [])
    end in
  let '(body, breaking, footer) :=
    if 1 <? length lines then
      let body_start := 1 + count_blank (skipn 1 lines) in
      let footer_start :=
        default (length lines)
                (find_footer_start body_start (skipn body_start lines)) in
      let body :=
        if body_start <? footer_start
        then strip (join (lit nl) (slice body_start footer_start lines))
        else [] in
      if footer_start <? length lines then
        let footer_text := strip (join (lit nl) (skipn footer_start lines)) in
        if contains (lit "BREAKING CHANGE:") footer_text then
          match split1 (lit "BREAKING CHANGE:") footer_text with
          | (before, Some after) => (body, strip after, strip before)
          | (before, None) => (body, [], strip before)
          end
        else (body, [], footer_text)
      else (body, [], [])
    else ([], [], []) in
  six_fields commit_type scope subject body breaking footer.

(** Lines 1329-1415: the reply is read as JSON between its first opening and
    its last closing brace; when that text does not decode, the manual
    extraction takes over. *)
Definition parse_response (content : str) : M (gmap str str) :=
  let ai_response := strip (strip_chars [34%N; 39%N; 39%N] content) in
  match find_char (chr "{") ai_response, rfind_char (chr "}") ai_response with
  | Some json_start, Some json_end =>
      match json_loads (slice json_start (S json_end) ai_response) with
      | POk (JObj members) _ =>
          match fields_of_members members with
          | Some commit_data =>
              mret (setdefault (lit "footer") []
                   (setdefault (lit "breaking") []
                   (setdefault (lit "body") []
                   (setdefault (lit "subject") []
                   (setdefault (lit "scope") []
                   (setdefault (lit "type") [] commit_data))))))
          | None => beyond
          end
      | POk _ _ => raise AttributeError
      | PErr => mret (fallback_fields ai_response)
      | PFuel => out_of_fuel
      end
  | _, _ => mret (fallback_fields ai_response)
  end.

(** [generate_commit_message], lines 1238-1426.  The prompt it builds has no
    part in what it returns and is left out. *)
Definition generate_commit_message (api_key diff lang : str)
    : M (gmap str str) :=
  if negb (truthy diff) then
    mret (six_fields [] []
            (if str_eqb lang (lit "es") then lit "No changes to commit"
             else lit "No hay cambios para hacer commit")
            [] [] [])
  else
    try_except
      (content ← post_content; parse_response content)
      (fun e => emit (Notice (lit "en") (ErrorGenerating e));;
                mret (six_fields [] [] [] [] [] [])).

(** [format_commit_message], lines 1475-1530. *)
Definition capitalize_subject (subject : str) : str :=
  match subject with
  | c :: rest => if negb (isupper c) then upper_char c ++ rest else subject
  | [] => subject
  end.

Definition strip_period (subject : str) : str :=
  if truthy subject && endswith (lit ".") subject
  then drop_last subject else subject.

Definition format_subject (subject : str) : str :=
  strip_period (capitalize_subject (strip subject)).

Definition format_header (commit_type scope subject : str) : str :=
  commit_type ++ scope ++ lit ": " ++ subject.

Definition format_body (body : str) : str :=
  join (lit nl ++ lit nl) (map (fun paragraph => paragraph)
                               (split (lit nl ++ lit nl) body)).

Definition format_breaking (breaking : str) : str :=
  lit "BREAKING CHANGE: " ++ breaking.

Definition format_footer (footer : str) : str :=
  if negb (startswith (lit "Soluciona:") footer)
     && negb (startswith (lit "Closes:") footer)
  then lit "Soluciona: " ++ footer
  else footer.

Definition message_parts
    (commit_type scope subject body breaking footer : str) : list str :=
  [format_header commit_type scope (format_subject subject)]
  ++ (if truthy body then [[]; format_body body] else [])
  ++ (if truthy breaking
      then (if negb (truthy body) then [[]] else [])
           ++ [format_breaking breaking]
      else [])
  ++ (if truthy footer
      then (if negb (truthy body) && negb (truthy breaking) then [[]] else [])
           ++ [format_footer footer]
      else []).

Definition format_commit_message
    (commit_type scope subject body breaking footer : str) : str :=
  join (lit nl)
       (message_parts commit_type scope subject body breaking footer).

(** *** Staging and the dispatcher *)

Fixpoint stage_each (files : list str) : M unit :=
  match files with
  | [] => mret tt
  | file :: rest =>
      subprocess_run [lit "git"; lit "add"; file];;
      stage_each rest
  end.

Fixpoint print_commands (commands : list str) : M unit :=
  match commands with
  | [] => mret tt
  | cmd :: rest => emit (Printed (lit "$ " ++ cmd));; print_commands rest
  end.

(** [stage_changes], lines 2145-2167; [files = None] is the default. *)
Definition stage_changes
    (files : option (list str)) (all_files : bool) (lang : str) : M unit :=
  if all_files then
    subprocess_run [lit "git"; lit "add"; lit "."];;
    emit (Notice lang AllStaged);;
    emit (Notice lang CommandsExecuted);;
    print_commands [lit "git add ."]
  else
    match files with
    | Some (f :: fs) =>
        stage_each (f :: fs);;
        emit (Notice lang (Staged (length (f :: fs))));;
        emit (Notice lang CommandsExecuted);;
        print_commands (map (fun file => lit "git add " ++ file) (f :: fs))
    | _ => emit (Notice lang NoFilesSpecified)
    end.

(** What [argparse] hands to the [stage] arm of [main]: [args.files] and
    [args.all]. *)
Record stage_args := {
  files : list str;
  all : bool
}.

(** The [stage] arm of [main], lines 2541-2545. *)
Definition main_stage (args : stage_args) (lang : str) : M unit :=
  if all args || negb (bool_decide (files args <> []))
  then stage_changes None true lang
  else if bool_decide (files args <> [])
  then stage_changes (Some (files args)) false lang
  else mret tt.

(** *** The review loop *)

Definition get_git_diff : M str :=
  try_except_called
    (out ← subprocess_check [lit "git"; lit "diff"; lit "--staged"];
     mret (strip out))
    (fun _ => emit (Notice (lit "en") ErrorGettingDiff);; mret []).

(** [d[k]]. *)
Definition field (d : gmap str str) (k : str) : M str :=
  lift_option (KeyError k) (d !! k).

(** The state of the loop of [create_new_commit]. *)
Record drafts := {
  message_history : list (gmap str str);
  current_index : Z
}.

(** Lines 1819-1829: the new draft enters the history. *)
Definition record_draft (st : drafts) (commit_data : gmap str str) : drafts :=
  if (current_index st <? 0)%Z then
    {| message_history := message_history st ++ [commit_data];
       current_index := 0 |}
  else
    let kept :=
      if (current_index st <? Z.of_nat (length (message_history st)) - 1)%Z
      then firstn (Z.to_nat (current_index st + 1)) (message_history st)
      else message_history st in
    {| message_history := kept ++ [commit_data];
       current_index := Z.of_nat (length (kept ++ [commit_data])) - 1 |}.

(** Lines 1839-1843 and 1863-1869: the header and the whole message. *)
Definition assemble_header (commit_type scope subject : str) : str :=
  commit_type
  ++ (if truthy scope then lit "(" ++ scope ++ lit ")" else [])
  ++ lit ": " ++ subject.

Definition assemble_message
    (commit_type scope subject body breaking footer : str) : str :=
  assemble_header commit_type scope subject
  ++ (if truthy body then lit nl ++ lit nl ++ body else [])
  ++ (if truthy breaking
      then lit nl ++ lit nl ++ lit "BREAKING CHANGE: " ++ breaking else [])
  ++ (if truthy footer then lit nl ++ lit nl ++ footer else []).

Definition or_else (a b : str) : str := if truthy a then a else b.

Definition git_commit_argv (message : str) : list str :=
  [lit "git"; lit "commit"; lit "-m"; message].

(** Lines 1902-1942: every field is asked for, an empty answer keeping the
    current text. *)
Definition edit_draft (st : drafts) : M drafts :=
  current_data ← lift_option IndexError
                   (getitem (message_history st) (current_index st));
  emit (Notice (lit "en") Editing);;
  old_type ← field current_data (lit "type");
  a ← input;
  let new_type := or_else (strip a) old_type in
  old_scope ← field current_data (lit "scope");
  a ← input;
  let new_scope := or_else (strip a) old_scope in
  old_subject ← field current_data (lit "subject");
  a ← input;
  let new_subject := or_else (strip a) old_subject in
  old_body ← field current_data (lit "body");
  a ← input;
  let new_body :=
    if truthy (strip a) then replace (lit "|") (lit nl) (strip a)
    else old_body in
  old_breaking ← field current_data (lit "breaking");
  a ← input;
  let new_breaking := or_else (strip a) old_breaking in
  old_footer ← field current_data (lit "footer");
  a ← input;
  let new_footer := or_else (strip a) old_footer in
  let edited_data :=
    six_fields new_type new_scope new_subject new_body new_breaking
               new_footer in
  let kept :=
    if (current_index st <? Z.of_nat (length (message_history st)) - 1)%Z
    then firstn (Z.to_nat (current_index st + 1)) (message_history st)
    else message_history st in
  mret {| message_history := kept ++ [edited_data];
          current_index := Z.of_nat (length (kept ++ [edited_data])) - 1 |}.

(** Lines 1831-1869: the current draft is shown and the message that an
    accepted draft is committed with is put together. *)
Definition show_draft (current_data : gmap str str) : M str :=
  commit_type ← field current_data (lit "type");
  scope ← field current_data (lit "scope");
  subject ← field current_data (lit "subject");
  emit (Printed (assemble_header commit_type scope subject));;
  body ← field current_data (lit "body");
  (if truthy body then emit (Printed (lit nl ++ body)) else mret tt);;
  breaking ← field current_data (lit "breaking");
  footer ← field current_data (lit "footer");
  let footer_text :=
    (if truthy breaking
     then lit nl ++ lit nl ++ lit "BREAKING CHANGE: " ++ breaking else [])
    ++ (if truthy footer then lit nl ++ lit nl ++ footer else []) in
  (if truthy footer_text then emit (Printed footer_text) else mret tt);;
  mret (assemble_message commit_type scope subject body breaking footer).

(** Lines 1894-1900: the index moves and the text of the draft it now
    points at is looked up under the key [formatted]. *)
Definition move_to (st : drafts) (index : Z) : M drafts :=
  draft ← lift_option IndexError (getitem (message_history st) index);
  _ ← field draft (lit "formatted");
  mret {| message_history := message_history st; current_index := index |}.

(** One pass of [while True:], lines 1809-1949. *)
Definition review_pass (api_key diff lang : str) (st0 : drafts)
    : M (pass drafts) :=
  emit (Notice lang Generating);;
  commit_data ← generate_commit_message api_key diff lang;
  if negb (dict_truthy commit_data)
     || negb (truthy (get commit_data (lit "subject")))
  then
    emit (Notice lang FailedGenerate);;
    mret Leave
  else
    let st := record_draft st0 commit_data in
    current_data ← lift_option IndexError
                     (getitem (message_history st) (current_index st));
    formatted_message ← show_draft current_data;
    line ← input;
    let choice := upper (strip line) in
    if str_eqb choice (lit "A") then
      try_except_called
        (subprocess_check (git_commit_argv formatted_message);;
         emit (Notice lang CommitCreated);;
         mret Leave)
        (fun e => emit (Notice lang (ErrorCreatingCommit e));; mret Leave)
    else if str_eqb choice (lit "R") then
      mret (Again st)
    else if str_eqb choice (lit "P") && (0 <? current_index st)%Z then
      st' ← move_to st (current_index st - 1)%Z;
      mret (Again st')
    else if str_eqb choice (lit "N")
            && (current_index st
                  <? Z.of_nat (length (message_history st)) - 1)%Z then
      st' ← move_to st (current_index st + 1)%Z;
      mret (Again st')
    else if str_eqb choice (lit "E") then
      st' ← edit_draft st;
      mret (Again st')
    else if str_eqb choice (lit "C") then
      emit (Notice lang Cancelled);;
      mret Leave
    else
      emit (Notice lang InvalidOption);;
      mret (Again st).

Fixpoint review_loop (fuel : nat) (api_key diff lang : str) (st : drafts)
    : M unit :=
  match fuel with
  | O => out_of_fuel
  | S fuel' =>
      p ← review_pass api_key diff lang st;
      match p with
      | Again st' => review_loop fuel' api_key diff lang st'
      | Leave => mret tt
      end
  end.

(** [create_new_commit], lines 1794-1949.  Each pass of its loop that comes
    back to the top has read a line, so one unit of fuel per line of input
    left, and one more, is enough. *)
Definition create_new_commit (api_key lang : str) : M unit :=
  stage_changes None true lang;;
  diff ← get_git_diff;
  if negb (truthy diff) then
    emit (Notice lang NoChanges)
  else
    fun w =>
      review_loop (S (length (stdin w))) api_key diff lang
        {| message_history := []; current_index := (-1)%Z |} w.

End Script.
End V2.

(** ** Sample replies and surroundings *)

Module Samples.
Import Py Sys.

(** A text between double quotes. *)
Definition quoted (s : string) : str := [34%N] ++ lit s ++ [34%N].

Definition member (k v : string) : str := quoted k ++ lit ":" ++ quoted v.

(** The reply of the test in the specification: one JSON object whose
    members are type fix, scope core, subject Fix crash, and an empty body,
    breaking and footer, written without any space. *)
Definition canned_response : str :=
  lit "{" ++ member "type" "fix" ++ lit ","
  ++ member "scope" "core" ++ lit ","
  ++ member "subject" "Fix crash" ++ lit ","
  ++ member "body" EmptyString ++ lit ","
  ++ member "breaking" EmptyString ++ lit ","
  ++ member "footer" EmptyString ++ lit "}".

(** A reply that also has a member [formatted]. *)
Definition formatted_response : str :=
  lit "{" ++ member "type" "fix" ++ lit ","
  ++ member "subject" "Fix crash" ++ lit ","
  ++ member "formatted" "fix: Fix crash" ++ lit "}".

(** Surroundings where [git] succeeds with the output [diff], the requests
    meet the fates [fates] in turn (and a transport error after the last),
    and the user types [lines]. *)
Definition stub_world (fates : list post_outcome) (lines : list str) : world :=
  {| stdin := lines;
     net := fun n => nth n fates TransportError;
     net_calls := 0;
     procs := fun _ => Exit0 (lit "diff --git a/x b/x");
     proc_calls := 0;
     trace := [] |}.

(** Another reply: type docs, subject Update readme, nothing else. *)
Definition other_response : str :=
  lit "{" ++ member "type" "docs" ++ lit ","
  ++ member "subject" "Update readme" ++ lit "}".

(** The second script with a staged diff, two replies from the generator,
    and a user who edits the first draft into [feat(ui): Add button],
    keeping its body, breaking text and footer, and then accepts. *)
Definition edit_then_accept : world :=
  stub_world [Content canned_response; Content other_response]
    [lit "e"; lit "feat"; lit "ui"; lit "Add button"; []; []; []; lit "a"].

(** The first script with one reply from the generator and a user who
    types the message [feat(ui): Add button] in its place, ends it with two
    empty lines, and then accepts. *)
Definition typed_then_accept : world :=
  stub_world [Content (lit "fix: Fix crash")]
    [lit "e"; lit "feat(ui): Add button"; []; []; lit "a"].

(** The messages of the [git commit -m] runs of a trace, in order. *)
Fixpoint commits (tr : list event) : list str :=
  match tr with
  | [] => []
  | Ran [a; b; c; message] :: rest =>
      if str_eqb a (lit "git") && str_eqb b (lit "commit")
         && str_eqb c (lit "-m")
      then message :: commits rest
      else commits rest
  | _ :: rest => commits rest
  end.

(** The texts printed in a trace, in order. *)
Fixpoint printed (tr : list event) : list str :=
  match tr with
  | [] => []
  | Printed text :: rest => text :: printed rest
  | _ :: rest => printed rest
  end.

(** A run that ended inside the model, with a value or an exception; a run
    that did not stop for want of fuel. *)
Definition settled {A : Type} (o : outcome A) : Prop :=
  match o with
  | Ret _ | Raise _ => True
  | Beyond | OutOfFuel => False
  end.

Definition in_time {A : Type} (o : outcome A) : Prop :=
  match o with
  | OutOfFuel => False
  | _ => True
  end.

(** The number of requests of a trace. *)
Definition posts (tr : list event) : nat :=
  length (List.filter (fun e => match e with Posted => true | _ => false end)
                      tr).

(** Whether a trace reports that no files were given to stage. *)
Definition reports_no_files (tr : list event) : bool :=
  existsb (fun e => match e with
                    | Notice _ NoFilesSpecified => true
                    | _ => false
                    end) tr.

(** The world after a request that failed with [e] and the report of it. *)
Definition after_error (w : world) (e : exn) : world :=
  log (Notice (lit "en") (ErrorGenerating e)) (requested w).

Section Choices.
Context `{RT : PyRuntime}.

(** Whether the line typed at the menu is read as the given letter:
    [input(...).strip().upper() == letter]. *)
Definition chose (line : str) (letter : string) : bool :=
  str_eqb (upper (strip line)) (lit letter).

End Choices.

(** The six fields are there. *)
Definition has_fields (d : gmap str str) : Prop :=
  is_Some (d !! lit "type") /\ is_Some (d !! lit "scope")
  /\ is_Some (d !! lit "subject") /\ is_Some (d !! lit "body")
  /\ is_Some (d !! lit "breaking") /\ is_Some (d !! lit "footer").

(** The header shown for a draft and the message committed for it. *)
Definition header_of (d : gmap str str) : str :=
  V2.assemble_header (V2.get d (lit "type")) (V2.get d (lit "scope"))
    (V2.get d (lit "subject")).

Definition message_of (d : gmap str str) : str :=
  V2.assemble_message (V2.get d (lit "type")) (V2.get d (lit "scope"))
    (V2.get d (lit "subject")) (V2.get d (lit "body"))
    (V2.get d (lit "breaking")) (V2.get d (lit "footer")).

(** A generated draft is usable when it is not empty and has a subject
    (line 1814). *)
Definition usable (d : gmap str str) : bool :=
  V2.dict_truthy d && truthy (V2.get d (lit "subject")).

(** The state of the second review loop as the script keeps it: before the
    first draft the history is empty, afterwards the index points into it
    and every draft has its six fields. *)
Definition coherent (st : V2.drafts) : Prop :=
  ((V2.current_index st < 0)%Z /\ V2.message_history st = []
   \/ (0 <= V2.current_index st < Z.of_nat (length (V2.message_history st)))%Z)
  /\ Forall has_fields (V2.message_history st).

End Samples.

(** ** Texts beyond ASCII, numbers in texts, and the console of the
       command-line helper

    The source file is UTF-8.  A literal of it that goes beyond ASCII is
    written here as it stands and decoded into its code points by [ulit].
    [str.lower()] is exact on ASCII texts; on others, where it depends on
    the context of a letter, it is the interface [CliRuntime], as are the
    error output of a subprocess, which [world] does not hold, and the
    text of an exception other than the one [input] raises. *)

Module Text.
Import Py Sys.

Fixpoint utf8_decode (bytes : list N) : str :=
  match bytes with
  | [] => []
  | b :: r =>
      if (b <? 128)%N then b :: utf8_decode r
      else if (b <? 224)%N then
        match r with
        | c :: r' => ((b - 192) * 64 + (c - 128))%N :: utf8_decode r'
        | [] => []
        end
      else if (b <? 240)%N then
        match r with
        | c :: d :: r' =>
            ((b - 224) * 4096 + (c - 128) * 64 + (d - 128))%N
            :: utf8_decode r'
        | _ => []
        end
      else
        match r with
        | c :: d :: e :: r' =>
            ((b - 240) * 262144 + (c - 128) * 4096 + (d - 128) * 64
             + (e - 128))%N
            :: utf8_decode r'
        | _ => []
        end
  end.

Definition ulit (s : string) : str := utf8_decode (lit s).
Arguments ulit s%_string.

(** [str(n)] and [f"{n}"] for a number that is not negative. *)
Definition decimal (n : nat) : str :=
  lit (NilEmpty.string_of_uint (Nat.to_uint n)).

Class CliRuntime := {
  (** [s.lower()] for a text that is not all ASCII. *)
  uni_lower : str -> str;
  (** [result.stderr] of the n-th subprocess. *)
  proc_stderr : nat -> str;
  (** [str(e)] for an exception that the interpreter did not raise in
      [input]. *)
  exc_text : exn -> str
}.

Section Lower.
Context `{CR : CliRuntime}.

Definition lower_ascii (c : char) : char :=
  if ((65 <=? c) && (c <=? 90))%N then (c + 32)%N else c.

(** [s.lower()]. *)
Definition lower (s : str) : str :=
  if forallb is_ascii s then map lower_ascii s else uni_lower s.

(** [str(e)] and [f"{e}"]: at the end of the input [input] raises
    [EOFError("EOF when reading a line")]. *)
Definition exn_str (e : exn) : str :=
  match e with
  | EOFError => lit "EOF when reading a line"
  | _ => exc_text e
  end.

End Lower.

(** A console with nothing beyond ASCII and no error output. *)
#[export] Instance ascii_cli : CliRuntime := {|
  uni_lower s := s;
  proc_stderr _ := [];
  exc_text _ := []
|}.

End Text.

(** ** First script: the helpers of the menus *)

Module V1Tools.
Import Py Sys Text.

Section Tools.
Context `{RT : PyRuntime} `{CR : CliRuntime}.

(** [print(en if lang == 'en' else es)]. *)
Definition say (lang en es : str) : M unit :=
  emit (Printed (if str_eqb lang (lit "en") then en else es)).

(** [s.split()]: the pieces between runs of whitespace, none of them
    empty; [cur] is the piece being read, reversed. *)
Fixpoint split_ws_go (cur s : str) : list str :=
  match s with
  | [] => if truthy cur then [rev cur] else []
  | c :: s' =>
      if isspace c
      then (if truthy cur then rev cur :: split_ws_go [] s'
            else split_ws_go [] s')
      else split_ws_go (c :: cur) s'
  end.

Definition split_ws (s : str) : list str := split_ws_go [] s.

(** [get_git_diff], lines 172-182: [run_git_command] catches the failure
    of [git] itself, and the handler of [get_git_diff] every other
    exception of the body. *)
Definition get_git_diff : M str :=
  try_except
    (diff ← V1.run_git_command [lit "git"; lit "diff"; lit "--staged"];
     match diff with
     | None => mret []
     | Some diff =>
         V1.track_command (lit "git diff --staged")
           (lit "Show staged changes / Mostrar cambios preparados");;
         mret diff
     end)
    (fun e =>
       emit (Printed (lit "Error inesperado obteniendo git diff: "
                      ++ exn_str e));;
       mret []).

(** The helpers below wrap their body in [try: ... except Exception] in the
    same way; the body calls [run_git_command], which catches the failure
    of [git] itself, and reads nothing, so within the model nothing reaches
    that handler and it is left out. *)

(** [show_status], lines 184-193. *)
Definition show_status (lang : str) : M unit :=
  emit (Printed (lit nl ++ lit "Repository Status / Estado del Repositorio:"
                 ++ lit nl ++ repeat (chr "=") 50));;
  status ← V1.run_git_command [lit "git"; lit "status"];
  (match status with
   | Some out => if truthy out then emit (Printed out) else mret tt
   | None => mret tt
   end);;
  V1.track_command (lit "git status")
    (lit "Show repository status / Mostrar estado del repositorio").

(** [add_files_to_stage], lines 195-207. *)
Definition add_files_to_stage (files lang : str) : M unit :=
  if str_eqb files (lit ".") then
    V1.run_git_command [lit "git"; lit "add"; lit "."];;
    V1.track_command (lit "git add .")
      (ulit "Add all changes to staging / Añadir todos los cambios al área de staging");;
    say lang (lit nl ++ ulit "✅ All changes added to staging!")
             (lit nl ++ ulit "✅ ¡Todos los cambios añadidos al staging!")
  else
    V1.run_git_command ([lit "git"; lit "add"] ++ split_ws files);;
    V1.track_command (lit "git add " ++ files)
      (ulit "Add specific files to staging / Añadir archivos específicos al staging");;
    say lang (lit nl ++ ulit "✅ Files added to staging!")
             (lit nl ++ ulit "✅ ¡Archivos añadidos al staging!").

(** [undo_changes], lines 209-221. *)
Definition undo_changes (files lang : str) : M unit :=
  if str_eqb files (lit ".") then
    V1.run_git_command [lit "git"; lit "checkout"; lit "--"; lit "."];;
    V1.track_command (lit "git checkout -- .")
      (lit "Undo all local changes / Deshacer todos los cambios locales");;
    say lang (lit nl ++ ulit "✅ All changes undone!")
             (lit nl ++ ulit "✅ ¡Todos los cambios deshechos!")
  else
    V1.run_git_command ([lit "git"; lit "checkout"; lit "--"]
                        ++ split_ws files);;
    V1.track_command (lit "git checkout -- " ++ files)
      (ulit "Undo changes in specific files / Deshacer cambios en archivos específicos");;
    say lang (lit nl ++ ulit "✅ Changes undone in specified files!")
             (lit nl ++ ulit "✅ ¡Cambios deshechos en los archivos especificados!").

(** The truth value of a text that may be [None]. *)
Definition given (o : option str) : option str :=
  match o with
  | Some s => if truthy s then Some s else None
  | None => None
  end.

(** [push_changes], lines 223-237. *)
Definition push_changes (branch : option str) (lang : str) : M unit :=
  branch ← match given branch with
           | Some b => mret (Some b)
           | None =>
               V1.run_git_command [lit "git"; lit "branch"; lit "--show-current"]
           end;
  match given branch with
  | Some branch =>
      V1.run_git_command [lit "git"; lit "push"; lit "origin"; branch];;
      V1.track_command (lit "git push origin " ++ branch)
        (lit "Push changes to remote / Subir cambios al repositorio remoto");;
      say lang (lit nl ++ ulit "✅ Changes pushed successfully!")
               (lit nl ++ ulit "✅ ¡Cambios subidos exitosamente!")
  | None =>
      say lang (lit "Could not determine current branch.")
               (lit "No se pudo determinar la rama actual.")
  end.

(** [pull_changes], lines 239-246. *)
Definition pull_changes (lang : str) : M unit :=
  V1.run_git_command [lit "git"; lit "pull"];;
  V1.track_command (lit "git pull")
    (lit "Pull changes from remote / Descargar cambios del repositorio remoto");;
  say lang (lit nl ++ ulit "✅ Changes pulled successfully!")
           (lit nl ++ ulit "✅ ¡Cambios descargados exitosamente!").

(** [create_branch], lines 248-256. *)
Definition create_branch (branch_name lang : str) : M unit :=
  V1.run_git_command [lit "git"; lit "checkout"; lit "-b"; branch_name];;
  V1.track_command (lit "git checkout -b " ++ branch_name)
    (lit "Create and switch to new branch / Crear y cambiar a nueva rama");;
  say lang
    (lit nl ++ ulit "✅ Branch '" ++ branch_name
     ++ lit "' created and checked out!")
    (lit nl ++ ulit "✅ ¡Rama '" ++ branch_name
     ++ lit "' creada y seleccionada!").

(** [switch_branch], lines 258-266. *)
Definition switch_branch (branch_name lang : str) : M unit :=
  V1.run_git_command [lit "git"; lit "checkout"; branch_name];;
  V1.track_command (lit "git checkout " ++ branch_name)
    (lit "Switch to branch / Cambiar a rama");;
  say lang
    (lit nl ++ ulit "✅ Switched to branch '" ++ branch_name ++ lit "'!")
    (lit nl ++ ulit "✅ ¡Cambiado a rama '" ++ branch_name ++ lit "'!").

(** [list_branches], lines 268-277. *)
Definition list_branches (lang : str) : M unit :=
  emit (Printed (lit nl ++ lit "Local Branches / Ramas Locales:"
                 ++ lit nl ++ repeat (chr "=") 50));;
  branches ← V1.run_git_command [lit "git"; lit "branch"];
  (match branches with
   | Some out => if truthy out then emit (Printed out) else mret tt
   | None => mret tt
   end);;
  V1.track_command (lit "git branch")
    (lit "List local branches / Listar ramas locales").

(** [stash_changes], lines 279-291. *)
Definition stash_changes (message lang : str) : M unit :=
  (if truthy message then
     V1.run_git_command [lit "git"; lit "stash"; lit "push"; lit "-m"; message];;
     V1.track_command (lit "git stash push -m '" ++ message ++ lit "'")
       (lit "Stash changes with message / Guardar cambios temporales con mensaje")
   else
     V1.run_git_command [lit "git"; lit "stash"; lit "push"];;
     V1.track_command (lit "git stash push")
       (lit "Stash changes / Guardar cambios temporales"));;
  say lang (lit nl ++ ulit "✅ Changes stashed successfully!")
           (lit nl ++ ulit "✅ ¡Cambios guardados temporalmente!").

(** [apply_stash], lines 293-305. *)
Definition apply_stash (stash_id : option str) (lang : str) : M unit :=
  (match given stash_id with
   | Some stash_id =>
       V1.run_git_command [lit "git"; lit "stash"; lit "apply"; stash_id];;
       V1.track_command (lit "git stash apply " ++ stash_id)
         (ulit "Apply specific stash / Aplicar cambios temporales específicos")
   | None =>
       V1.run_git_command [lit "git"; lit "stash"; lit "apply"];;
       V1.track_command (lit "git stash apply")
         (ulit "Apply last stash / Aplicar últimos cambios temporales")
   end);;
  say lang (lit nl ++ ulit "✅ Stash applied successfully!")
           (lit nl ++ ulit "✅ ¡Cambios temporales aplicados!").

(** [revert_last_commit], lines 307-314. *)
Definition revert_last_commit (lang : str) : M unit :=
  V1.run_git_command [lit "git"; lit "revert"; lit "HEAD"];;
  V1.track_command (lit "git revert HEAD")
    (ulit "Revert last commit / Revertir el último commit");;
  say lang (lit nl ++ ulit "✅ Last commit reverted successfully!")
           (lit nl ++ ulit "✅ ¡Último commit revertido exitosamente!").

(** The list [command_history]: what [track_command] has appended since
    the list was last cleared, which was when the trace had [cleared]
    events. *)
Definition tracked (tr : list event) : list (str * str) :=
  flat_map (fun e => match e with
                     | Tracked command description => [(command, description)]
                     | _ => []
                     end) tr.

Definition command_history (cleared : nat) (w : world) : list (str * str) :=
  tracked (skipn cleared (trace w)).

Fixpoint print_entries (i : nat) (entries : list (str * str)) : M unit :=
  match entries with
  | [] => mret tt
  | (cmd, desc) :: rest =>
      emit (Printed (lit nl ++ decimal i ++ lit ". " ++ desc));;
      emit (Printed (lit "   $ " ++ cmd));;
      print_entries (S i) rest
  end.

(** [show_command_summary], lines 101-117. *)
Definition show_command_summary (cleared : nat) : M unit := fun w =>
  match command_history cleared w with
  | [] => (Ret tt, w)
  | entries =>
      (emit (Printed (lit nl ++ repeat (chr "=") 50));;
       emit (Printed (lit "Command Summary / Resumen de Comandos:"));;
       emit (Printed (repeat (chr "=") 50));;
       print_entries 1 entries;;
       emit (Printed (lit nl ++ repeat (chr "=") 50));;
       emit (Printed
               (lit "You can run these commands directly in your terminal /"));;
       emit (Printed
               (lit "Puedes ejecutar estos comandos directamente en tu terminal"));;
       emit (Printed (repeat (chr "=") 50))) w
  end.

(** The helpers that ask for the parts of a message, lines 451-477; their
    prompts are left out. *)
Definition get_commit_scope : M str :=
  line ← input;
  let scope := strip line in
  mret (if truthy scope then scope else []).

Definition get_commit_body : M str :=
  line ← input;
  mret (replace (lit "|") (lit nl) (strip line)).

Definition get_commit_breaking : M str :=
  line ← input;
  let breaking := strip line in
  mret (if truthy breaking then lit "BREAKING CHANGE: " ++ breaking else []).

Definition get_commit_footer : M str :=
  line ← input;
  let footer := strip line in
  mret (if truthy footer then lit "Closes: " ++ footer else []).

(** One pass of the loop of [git_management_menu], lines 978-1065: the
    choice is read and served; choice 9 leaves the loop, every other pass
    ends with the summary of the commands noted so far. *)
Definition menu_pass (cleared : nat) (lang : str) : M (pass unit) :=
  line ← input;
  let choice := strip line in
  p ← (if str_eqb choice (lit "1") then
         show_status lang;; mret (Again tt)
       else if str_eqb choice (lit "2") then
         line ← input;
         let add_choice := upper (strip line) in
         (if str_eqb add_choice (lit "A") then
            add_files_to_stage (lit ".") lang
          else if str_eqb add_choice (lit "S") then
            files ← input;
            add_files_to_stage (strip files) lang
          else mret tt);;
         mret (Again tt)
       else if str_eqb choice (lit "3") then
         line ← input;
         let undo_choice := upper (strip line) in
         (if str_eqb undo_choice (lit "A") then undo_changes (lit ".") lang
          else if str_eqb undo_choice (lit "S") then
            files ← input;
            undo_changes (strip files) lang
          else mret tt);;
         mret (Again tt)
       else if str_eqb choice (lit "4") then
         branch ← input;
         push_changes (given (Some (strip branch))) lang;;
         mret (Again tt)
       else if str_eqb choice (lit "5") then
         pull_changes lang;; mret (Again tt)
       else if str_eqb choice (lit "6") then
         line ← input;
         let branch_choice := upper (strip line) in
         (if str_eqb branch_choice (lit "L") then list_branches lang
          else if str_eqb branch_choice (lit "C") then
            branch_name ← input;
            create_branch (strip branch_name) lang
          else if str_eqb branch_choice (lit "S") then
            branch_name ← input;
            switch_branch (strip branch_name) lang
          else mret tt);;
         mret (Again tt)
       else if str_eqb choice (lit "7") then
         line ← input;
         let stash_choice := upper (strip line) in
         (if str_eqb stash_choice (lit "S") then
            message ← input;
            stash_changes (strip message) lang
          else if str_eqb stash_choice (lit "A") then
            stash_id ← input;
            apply_stash (given (Some (strip stash_id))) lang
          else mret tt);;
         mret (Again tt)
       else if str_eqb choice (lit "8") then
         revert_last_commit lang;; mret (Again tt)
       else if str_eqb choice (lit "9") then
         mret Leave
       else
         say lang (lit "Invalid choice. Please try again.")
                  (ulit "Opción inválida. Inténtalo de nuevo.");;
         mret (Again tt));
  match p with
  | Leave => mret Leave
  | Again _ => show_command_summary cleared;; mret (Again tt)
  end.

Fixpoint menu_loop (fuel cleared : nat) (lang : str) : M unit :=
  match fuel with
  | O => out_of_fuel
  | S fuel' =>
      p ← menu_pass cleared lang;
      match p with
      | Again _ => menu_loop fuel' cleared lang
      | Leave => mret tt
      end
  end.

(** [git_management_menu], lines 976-1065.  Each pass reads a line, so one
    unit of fuel per line of input left, and one more, is enough. *)
Definition git_management_menu (cleared : nat) (lang : str) : M unit :=
  fun w => menu_loop (S (length (stdin w))) cleared lang w.

End Tools.
End V1Tools.

(** ** Second script: the subcommands of the command line and the helpers
       that ask for the parts of a message *)

Module V2Tools.
Import Py Sys Text.

Section Cli.
Context `{RT : PyRuntime} `{CR : CliRuntime}.

(** [print("\n" + (en if lang == 'es' else es))]: every message of the
    second script picks its language this way round. *)
Definition say (lang en es : str) : M unit :=
  emit (Printed (lit nl ++ (if str_eqb lang (lit "es") then en else es))).

(** The closing lines of every subcommand: the commands it noted. *)
Definition executed (lang : str) (commands : list str) : M unit :=
  say lang (lit "=== Commands executed ===")
           (lit "=== Comandos ejecutados ===");;
  V2.print_commands commands.

(** [subprocess.run(argv, capture_output=True, text=True)]: how it ended and
    what it wrote to its error output. *)
Definition run_captured (argv : list str) : M (proc_outcome * str) := fun w =>
  (Ret (procs w (proc_calls w), proc_stderr (proc_calls w)), spawned argv w).

(** [show_status], lines 2128-2143. *)
Definition show_status (lang : str) : M unit :=
  say lang (lit "=== Repository Status ===")
           (lit "=== Estado del Repositorio ===");;
  subprocess_run [lit "git"; lit "status"];;
  subprocess_run [lit "git"; lit "branch"; lit "-v"];;
  executed lang [lit "git status"; lit "git branch -v"].

Fixpoint unstage_each (files : list str) : M unit :=
  match files with
  | [] => mret tt
  | file :: rest =>
      subprocess_run [lit "git"; lit "restore"; lit "--staged"; file];;
      unstage_each rest
  end.

(** [unstage_changes], lines 2169-2191; [files = None] is the default. *)
Definition unstage_changes
    (files : option (list str)) (all_files : bool) (lang : str) : M unit :=
  if all_files then
    subprocess_run [lit "git"; lit "reset"];;
    say lang (lit "All changes unstaged successfully!")
             (ulit "¡Todos los cambios eliminados del área de preparación!");;
    executed lang [lit "git reset"]
  else
    match files with
    | Some (f :: fs) =>
        unstage_each (f :: fs);;
        say lang
          (lit "Unstaged " ++ decimal (length (f :: fs))
           ++ lit " files successfully!")
          (ulit "¡" ++ decimal (length (f :: fs))
           ++ ulit " archivos eliminados del área de preparación!");;
        executed lang
          (map (fun file => lit "git restore --staged " ++ file) (f :: fs))
    | _ =>
        say lang
          (lit "No files specified to unstage. Use --all to unstage all changes.")
          (lit "No se especificaron archivos. Usa --all para quitar todos los cambios.")
    end.

(** [create_branch], lines 2193-2221. *)
Definition create_branch (branch_name : str) (switch : bool) (lang : str)
    : M unit :=
  if negb (truthy branch_name) then
    say lang (lit "Branch name is required!")
             (ulit "¡Se requiere un nombre para la rama!")
  else
    let created :=
      say lang (lit "Branch '" ++ branch_name ++ lit "' created successfully!")
               (ulit "¡Rama '" ++ branch_name ++ ulit "' creada con éxito!") in
    if switch then
      '(result, stderr) ← run_captured
                            [lit "git"; lit "checkout"; lit "-b"; branch_name];
      match result with
      | ExitNonZero =>
          say lang (lit "Error creating branch: " ++ stderr)
                   (lit "Error al crear la rama: " ++ stderr)
      | Exit0 _ =>
          created;;
          executed lang [lit "git checkout -b " ++ branch_name]
      end
    else
      '(result, stderr) ← run_captured [lit "git"; lit "branch"; branch_name];
      match result with
      | ExitNonZero =>
          say lang (lit "Error creating branch: " ++ stderr)
                   (lit "Error al crear la rama: " ++ stderr)
      | Exit0 _ =>
          created;;
          executed lang [lit "git branch " ++ branch_name]
      end.

(** [switch_branch], lines 2223-2248. *)
Definition switch_branch (branch_name : str) (create : bool) (lang : str)
    : M unit :=
  if negb (truthy branch_name) then
    say lang (lit "Branch name is required!")
             (ulit "¡Se requiere un nombre para la rama!")
  else
    '(result, stderr) ←
      (if create
       then run_captured [lit "git"; lit "checkout"; lit "-b"; branch_name]
       else run_captured [lit "git"; lit "checkout"; branch_name]);
    match result with
    | ExitNonZero =>
        say lang (lit "Error switching branch: " ++ stderr)
                 (lit "Error al cambiar de rama: " ++ stderr)
    | Exit0 _ =>
        emit (Printed
                (lit nl
                 ++ (if str_eqb lang (lit "es")
                     then lit "Switched to branch '" ++ branch_name ++ lit "'"
                     else lit "Cambiado a la rama '" ++ branch_name ++ lit "'")
                 ++ ulit " 🎉"));;
        executed lang
          [if create then lit "git checkout -b " ++ branch_name
           else lit "git checkout " ++ branch_name]
    end.

(** [list_branches], lines 2250-2262. *)
Definition list_branches (lang : str) : M unit :=
  say lang (lit "=== Local Branches ===") (lit "=== Ramas Locales ===");;
  subprocess_run [lit "git"; lit "branch"];;
  say lang (lit "=== Remote Branches ===") (lit "=== Ramas Remotas ===");;
  subprocess_run [lit "git"; lit "branch"; lit "-r"];;
  executed lang [lit "git branch -a"].

(** [not branch] for a branch that is [None] or a text. *)
Definition named (branch : option str) : option str :=
  match branch with
  | Some b => if truthy b then Some b else None
  | None => None
  end.

(** Lines 2268-2276 and 2303-2311: the branch given or, without one, the
    branch that [git] names; [None] when [git] fails, after the report. *)
Definition branch_or_current (branch : option str) (lang : str)
    : M (option str) :=
  match named branch with
  | Some b => mret (Some b)
  | None =>
      '(result, _) ← run_captured
                       [lit "git"; lit "rev-parse"; lit "--abbrev-ref";
                        lit "HEAD"];
      match result with
      | ExitNonZero =>
          say lang (lit "Error getting current branch name!")
                   (ulit "¡Error al obtener el nombre de la rama actual!");;
          mret None
      | Exit0 stdout => mret (Some (strip stdout))
      end
  end.

(** [push_changes], lines 2264-2297. *)
Definition push_changes
    (remote : str) (branch : option str) (setUpstream : bool) (lang : str)
    : M unit :=
  resolved ← branch_or_current branch lang;
  match resolved with
  | None => mret tt
  | Some branch =>
      '(result, stderr) ←
        (if setUpstream
         then run_captured [lit "git"; lit "push"; lit "-u"; remote; branch]
         else run_captured [lit "git"; lit "push"; remote; branch]);
      match result with
      | ExitNonZero =>
          say lang (lit "Error pushing changes: " ++ stderr)
                   (lit "Error al subir cambios: " ++ stderr)
      | Exit0 _ =>
          emit (Printed
                  (lit nl
                   ++ (if str_eqb lang (lit "es")
                       then lit "Successfully pushed to " ++ remote
                            ++ lit "/" ++ branch
                       else lit "Cambios subidos exitosamente a " ++ remote
                            ++ lit "/" ++ branch)
                   ++ ulit " 🚀"));;
          executed lang
            [if setUpstream
             then lit "git push -u " ++ remote ++ lit " " ++ branch
             else lit "git push " ++ remote ++ lit " " ++ branch]
      end
  end.

(** [pull_changes], lines 2299-2332. *)
Definition pull_changes
    (remote : str) (branch : option str) (rebase : bool) (lang : str)
    : M unit :=
  resolved ← branch_or_current branch lang;
  match resolved with
  | None => mret tt
  | Some branch =>
      '(result, stderr) ←
        (if rebase
         then run_captured [lit "git"; lit "pull"; lit "--rebase"; remote;
                            branch]
         else run_captured [lit "git"; lit "pull"; remote; branch]);
      match result with
      | ExitNonZero =>
          say lang (lit "Error pulling changes: " ++ stderr)
                   (lit "Error al descargar cambios: " ++ stderr)
      | Exit0 _ =>
          emit (Printed
                  (lit nl
                   ++ (if str_eqb lang (lit "es")
                       then lit "Successfully pulled from " ++ remote
                            ++ lit "/" ++ branch
                       else lit "Cambios descargados exitosamente de "
                            ++ remote ++ lit "/" ++ branch)
                   ++ ulit " 🔄"));;
          executed lang
            [if rebase
             then lit "git pull --rebase " ++ remote ++ lit " " ++ branch
             else lit "git pull " ++ remote ++ lit " " ++ branch]
      end
  end.

(** [stash_changes], lines 2334-2380. *)
Definition stash_changes
    (message : str) (pop apply list_stash : bool) (lang : str) : M unit :=
  if list_stash then
    say lang (lit "=== Stashed Changes ===")
             (lit "=== Cambios Guardados Temporalmente ===");;
    subprocess_run [lit "git"; lit "stash"; lit "list"];;
    mret tt
  else if pop then
    '(result, stderr) ← run_captured [lit "git"; lit "stash"; lit "pop"];
    match result with
    | ExitNonZero =>
        say lang (lit "Error applying stash: " ++ stderr)
                 (lit "Error al aplicar los cambios guardados: " ++ stderr)
    | Exit0 _ =>
        say lang (lit "Changes applied successfully!")
                 (ulit "¡Cambios aplicados exitosamente!");;
        executed lang [lit "git stash pop"]
    end
  else if apply then
    '(result, stderr) ← run_captured [lit "git"; lit "stash"; lit "apply"];
    match result with
    | ExitNonZero =>
        say lang (lit "Error applying stash: " ++ stderr)
                 (lit "Error al aplicar los cambios guardados: " ++ stderr)
    | Exit0 _ =>
        say lang (lit "Changes applied successfully!")
                 (ulit "¡Cambios aplicados exitosamente!");;
        executed lang [lit "git stash apply"]
    end
  else
    let stash_cmd :=
      [lit "git"; lit "stash"; lit "save"]
      ++ (if truthy message then [message] else []) in
    '(result, stderr) ← run_captured stash_cmd;
    match result with
    | ExitNonZero =>
        say lang (lit "Error stashing changes: " ++ stderr)
                 (lit "Error al guardar los cambios temporalmente: " ++ stderr)
    | Exit0 _ =>
        say lang (lit "Changes stashed successfully!")
                 (ulit "¡Cambios guardados temporalmente!");;
        executed lang
          [if truthy message
           then lit "git stash save " ++ [34%N] ++ message ++ [34%N]
           else lit "git stash save"]
    end.

(** The answers that [undo_last_commit] takes for a yes. *)
Definition confirmed (confirm : str) : bool :=
  existsb (str_eqb (lower confirm)) [lit "y"; lit "s"; lit "yes"; lit "si"].

(** [undo_last_commit], lines 2382-2416. *)
Definition undo_last_commit (keep_changes : bool) (lang : str) : M unit :=
  if keep_changes then
    '(result, stderr) ← run_captured
                          [lit "git"; lit "reset"; lit "--soft"; lit "HEAD~1"];
    match result with
    | ExitNonZero =>
        say lang (lit "Error undoing last commit: " ++ stderr)
                 (ulit "Error al deshacer el último commit: " ++ stderr)
    | Exit0 _ =>
        say lang
          (lit "Last commit undone, changes are now staged!")
          (ulit "¡Último commit deshecho, los cambios están en el área de preparación!");;
        executed lang [lit "git reset --soft HEAD~1"]
    end
  else
    confirm ← input;
    if negb (confirmed confirm) then
      say lang (lit "Operation cancelled.") (ulit "Operación cancelada.")
    else
      '(result, stderr) ← run_captured
                            [lit "git"; lit "reset"; lit "--hard";
                             lit "HEAD~1"];
      match result with
      | ExitNonZero =>
          say lang (lit "Error undoing last commit: " ++ stderr)
                   (ulit "Error al deshacer el último commit: " ++ stderr)
      | Exit0 _ =>
          say lang (lit "Last commit and changes discarded!")
                   (ulit "¡Último commit y cambios descartados!");;
          executed lang [lit "git reset --hard HEAD~1"]
      end.

(** The helpers that ask for the parts of a message, lines 1447-1473;
    their prompts are left out. *)
Definition get_commit_scope : M str :=
  line ← input;
  let scope := strip line in
  mret (if truthy scope then lit "(" ++ scope ++ lit ")" else []).

Definition get_commit_body : M str :=
  line ← input;
  mret (replace (lit "|") (lit nl) (strip line)).

Definition get_commit_breaking : M str :=
  line ← input;
  let breaking := strip line in
  mret (if truthy breaking then lit "BREAKING CHANGE: " ++ breaking else []).

Definition get_commit_footer : M str :=
  line ← input;
  let footer := strip line in
  mret (if truthy footer then lit "Closes: " ++ footer else []).

(** What [argparse] hands to [main] for a subcommand; [help] and the run
    without arguments are not among them. *)
Inductive command :=
| Status
| Stage (files : list str) (all : bool)
| Unstage (files : list str) (all : bool)
| Push (branch : option str) (set_upstream : bool)
| Pull (branch : option str) (rebase : bool)
| Branch
| NewBranch (name : str) (switch : bool)
| Switch (branch : str) (create : bool)
| Stash (message : str) (pop apply list : bool)
| UndoCommit (hard : bool).

(** The chain of [main], lines 2538-2582. *)
Definition main_chain (args : command) (lang : str) : M unit :=
  match args with
  | Status => show_status lang
  | Stage files all => V2.main_stage {| V2.files := files; V2.all := all |} lang
  | Unstage files all =>
      if all || negb (bool_decide (files <> []))
      then unstage_changes None true lang
      else if bool_decide (files <> [])
      then unstage_changes (Some files) false lang
      else mret tt
  | Push branch set_upstream =>
      push_changes (lit "origin") branch set_upstream lang
  | Pull branch rebase => pull_changes (lit "origin") branch rebase lang
  | Branch => list_branches lang
  | NewBranch name switch => create_branch name switch lang
  | Switch branch create =>
      if create then create_branch branch true lang
      else switch_branch branch false lang
  | Stash message pop apply list =>
      if pop then stash_changes [] true false false lang
      else if apply then stash_changes [] false true false lang
      else if list then stash_changes [] false false true lang
      else stash_changes message false false false lang
  | UndoCommit hard => undo_last_commit (negb hard) lang
  end.

(** [main] for a subcommand, lines 2530-2592: the chain runs inside [try];
    an interrupt and every [Exception] are reported, and the program ends
    with [sys.exit(1)]. *)
Definition main (args : command) (lang : str) : M unit := fun w =>
  match main_chain args lang w with
  | (Raise KeyboardInterrupt, w') =>
      (say lang (lit "Operation cancelled by user.")
                (ulit "Operación cancelada por el usuario.");;
       raise (SystemExit 1)) w'
  | (Raise e, w') =>
      if is_exception e
      then (emit (Printed (lit nl ++ lit "Error: " ++ exn_str e));;
            raise (SystemExit 1)) w'
      else (Raise e, w')
  | r => r
  end.

End Cli.
End V2Tools.

(** ** What a trace shows *)

Module Observe.
Import Py Json Sys Samples.

(** The command lines run in a trace, in order. *)
Fixpoint runs (tr : list event) : list (list str) :=
  match tr with
  | [] => []
  | Ran argv :: rest => argv :: runs rest
  | _ :: rest => runs rest
  end.

(** The notices of a trace, in order. *)
Fixpoint notices (tr : list event) : list notice :=
  match tr with
  | [] => []
  | Notice _ n :: rest => n :: notices rest
  | _ :: rest => notices rest
  end.

(** Whether no file was named on the command line. *)
Definition none (files : list str) : bool :=
  match files with [] => true | _ :: _ => false end.

(** The surroundings [w] with other answers from [git]. *)
Definition with_git (answers : nat -> proc_outcome) (w : world) : world :=
  {| stdin := stdin w; net := net w; net_calls := net_calls w;
     procs := answers; proc_calls := proc_calls w;
     trace := trace w |}.

(** Whether a text neither starts nor ends with whitespace, so that
    [strip] leaves it as it is; whether it holds no line feed, colon or
    parenthesis. *)
Definition trimmed `{RT : PyRuntime} (s : str) : bool :=
  match s with
  | [] => true
  | c :: _ => negb (isspace c) && negb (isspace (List.last s c))
  end.

Definition plain (s : str) : bool :=
  forallb (fun c => negb (existsb (N.eqb c)
                            [10%N; chr ":"; chr "("; chr ")"])) s.

(** What [run_git_command] leaves in the trace: the command, and after a
    failure its own report. *)
Definition attempt (w : world) (argv : list str) : list event :=
  Ran argv
  :: match procs w (proc_calls w) with
     | Exit0 _ => []
     | ExitNonZero => [Notice (lit "es") (GitCommandFailed argv)]
     end.

(** A step from [w] to [w1] that has read nothing, asked the remote model
    nothing and made no commit. *)
Definition quiet_step (w w1 : world) : Prop :=
  stdin w1 = stdin w
  /\ net_calls w1 = net_calls w
  /\ posts (trace w1) = posts (trace w)
  /\ commits (trace w1) = commits (trace w).

(** Surroundings like those of [stub_world] in which every [git] command
    fails. *)
Definition failing_git (fates : list post_outcome) (lines : list str)
    : world :=
  {| stdin := lines;
     net := fun n => nth n fates TransportError;
     net_calls := 0;
     procs := fun _ => ExitNonZero;
     proc_calls := 0;
     trace := [] |}.

(** The text that the generator of the second script hands to
    [json.loads] (lines 1329-1338): what lies between the first opening
    and the last closing brace of the trimmed reply, when it has both. *)
Definition json_part `{RT : PyRuntime} (content : str) : option str :=
  let ai_response := strip (strip_chars [34%N; 39%N; 39%N] content) in
  match find_char (chr "{") ai_response, rfind_char (chr "}") ai_response with
  | Some json_start, Some json_end =>
      Some (slice json_start (S json_end) ai_response)
  | _, _ => None
  end.

Definition is_string (v : json) : bool :=
  match v with JStr _ => true | _ => false end.

(** Whether a reply decodes to a JSON object with a member that is not a
    string: the replies that the model does not follow. *)
Definition odd_reply `{RT : PyRuntime} (content : str) : bool :=
  match json_part content with
  | Some text =>
      match json_loads text with
      | POk (JObj members) _ =>
          negb (forallb (fun kv => is_string (snd kv)) members)
      | _ => false
      end
  | None => false
  end.

End Observe.

(** * Properties *)

(** ** Facts about the string operations *)

Module PyFacts.
Import Py.

Section Facts.
Context `{RT : PyRuntime}.

Lemma startswith_app (p s : str) : startswith p (p ++ s) = true.
Proof.
  induction p as [|a p IH]; simpl; [reflexivity|].
  now rewrite N.eqb_refl, IH.
Qed.

Lemma startswith_prefix (p s : str) :
  startswith p s = true -> exists t, s = p ++ t.
Proof.
  revert s. induction p as [|a p IH]; intros s H.
  - now exists s.
  - destruct s as [|b s]; simpl in H; [discriminate|].
    apply andb_true_iff in H as [Hab Hps].
    apply N.eqb_eq in Hab. subst b.
    destruct (IH _ Hps) as [t ->]. now exists t.
Qed.

Lemma endswith_app (p s : str) : endswith p (s ++ p) = true.
Proof. unfold endswith. rewrite rev_app_distr. apply startswith_app. Qed.

Lemma endswith_suffix (p s : str) :
  endswith p s = true -> exists t, s = t ++ p.
Proof.
  unfold endswith. intros H.
  destruct (startswith_prefix _ _ H) as [t Ht].
  exists (rev t).
  rewrite <- (rev_involutive s), Ht, rev_app_distr.
  now rewrite rev_involutive.
Qed.

Lemma endswith_char_last (c : char) (s : str) (x : char) :
  endswith [c] (s ++ [x]) = (c =? x)%N.
Proof.
  unfold endswith. rewrite rev_app_distr. simpl.
  now rewrite andb_true_r.
Qed.

Lemma drop_last_app (s : str) (x : char) : drop_last (s ++ [x]) = s.
Proof. unfold drop_last. apply removelast_last. Qed.

Lemma truthy_app_l (s t : str) : truthy s = true -> truthy (s ++ t) = true.
Proof. now destruct s. Qed.

Lemma truthy_app_r (s t : str) : truthy t = true -> truthy (s ++ t) = true.
Proof. destruct s; simpl; [tauto | reflexivity]. Qed.

Lemma truthy_length (s : str) : truthy s = true <-> 0 < length s.
Proof. destruct s; simpl; split; intros; try lia; congruence. Qed.

Lemma upper_char_length (c : char) : 1 <= length (upper_char c).
Proof.
  unfold upper_char. destruct (is_ascii c).
  - destruct (_ && _)%bool; simpl; lia.
  - pose proof (uni_upper_nonempty c).
    destruct (uni_upper c); [congruence | simpl; lia].
Qed.

Lemma isupper_upper_char (c : char) :
  isupper c = true -> upper_char c = [c].
Proof.
  unfold isupper, upper_char. destruct (is_ascii c).
  - intros H. apply andb_true_iff in H as [_ H]. apply N.leb_le in H.
    assert (Hn : (97 <=? c)%N = false) by (apply N.leb_gt; lia).
    now rewrite Hn.
  - apply uni_isupper_upper.
Qed.

Lemma lstrip_by_app_keep (f : char -> bool) (s : str) (x : char) :
  f x = false -> lstrip_by f (s ++ [x]) = lstrip_by f s ++ [x].
Proof.
  intros Hx. induction s as [|c s IH]; simpl.
  - now rewrite Hx.
  - destruct (f c); [exact IH | reflexivity].
Qed.

(** Stripping leaves a final character that is not stripped where it is:
    only the front of the text can lose characters. *)
Lemma strip_by_app_keep (f : char -> bool) (s : str) (x : char) :
  f x = false -> strip_by f (s ++ [x]) = lstrip_by f s ++ [x].
Proof.
  intros Hx. unfold strip_by.
  rewrite (lstrip_by_app_keep f s x Hx), rev_app_distr. simpl.
  rewrite Hx. simpl. now rewrite rev_involutive.
Qed.

Lemma lstrip_by_id (f : char -> bool) (c : char) (s : str) :
  f c = false -> lstrip_by f (c :: s) = c :: s.
Proof. intros H. simpl. now rewrite H. Qed.

(** A text that neither starts nor ends with a stripped character is left
    as it is. *)
Lemma strip_by_id (f : char -> bool) (s : str) :
  (forall c r, s = c :: r -> f c = false) ->
  (forall r x, s = r ++ [x] -> f x = false) ->
  strip_by f s = s.
Proof.
  intros Hfirst Hlast.
  induction s as [|x r _] using rev_ind; [reflexivity|].
  rewrite strip_by_app_keep by (eapply Hlast; reflexivity).
  destruct r as [|d r']; [reflexivity|].
  simpl. rewrite (Hfirst d (r' ++ [x])); reflexivity.
Qed.

Lemma join_singleton (sep p : str) : join sep [p] = p.
Proof. reflexivity. Qed.

Lemma join_cons (sep p q : str) (ps : list str) :
  join sep (p :: q :: ps) = p ++ sep ++ join sep (q :: ps).
Proof. reflexivity. Qed.

End Facts.
End PyFacts.

(** ** The two message formatters *)

Module FormatFacts.
Import Py PyFacts.

Section Facts.
Context `{RT : PyRuntime}.

Lemma v1_capitalize_cons (c : char) (rest : str) :
  V1.capitalize_subject (c :: rest) = upper_char c ++ rest.
Proof. reflexivity. Qed.

Lemma v1_capitalize_length (s : str) :
  length s <= length (V1.capitalize_subject s).
Proof.
  destruct s as [|c rest]; [simpl; lia|].
  rewrite v1_capitalize_cons, length_app. simpl.
  pose proof (upper_char_length c). lia.
Qed.

Lemma upper_char_period : upper_char 46%N = [46%N].
Proof. reflexivity. Qed.

(** Capitalizing touches the first character only, so a final period stays
    a final period. *)
Lemma v1_capitalize_period (s : str) :
  V1.capitalize_subject (s ++ [46%N]) = V1.capitalize_subject s ++ [46%N].
Proof.
  destruct s as [|c rest]; [reflexivity|].
  simpl app. rewrite !v1_capitalize_cons. now rewrite <- app_assoc.
Qed.

Lemma v1_strip_period_app (s : str) :
  V1.strip_period (s ++ [46%N]) = s.
Proof.
  unfold V1.strip_period.
  rewrite truthy_app_r by reflexivity.
  change (lit ".") with [46%N].
  rewrite endswith_char_last. simpl. apply drop_last_app.
Qed.

Lemma v1_strip_period_no (s : str) :
  endswith (lit ".") s = false -> V1.strip_period s = s.
Proof.
  intros H. unfold V1.strip_period. rewrite H.
  now rewrite andb_false_r.
Qed.

Lemma v1_strip_period_length (s : str) :
  length s <= S (length (V1.strip_period s)).
Proof.
  unfold V1.strip_period.
  destruct (truthy s && V1.subject_no_period V1.rules
            && endswith (lit ".") s) eqn:E; [|lia].
  apply andb_true_iff in E as [_ E].
  destruct (endswith_suffix _ _ E) as [t ->].
  change (lit ".") with [46%N].
  rewrite drop_last_app, length_app. simpl. lia.
Qed.

(** [subject[:max_length]] is what the third step comes to, whether or not
    its test fires. *)
Lemma v1_limit_firstn (s : str) : V1.limit_subject s = firstn 50 s.
Proof.
  unfold V1.limit_subject. simpl V1.subject_max_length.
  destruct (50 <? length s) eqn:E; [reflexivity|].
  apply Nat.ltb_ge in E. symmetry. now apply firstn_all2.
Qed.

Lemma v1_format_subject_firstn (s : str) :
  V1.format_subject s
  = firstn 50 (V1.strip_period (V1.capitalize_subject s)).
Proof. unfold V1.format_subject. apply v1_limit_firstn. Qed.

(** A well-formed subject is a fixed point of the three steps. *)
Lemma v1_format_subject_fixed (c : char) (rest : str) :
  isupper c = true ->
  endswith (lit ".") (c :: rest) = false ->
  length (c :: rest) <= 50 ->
  V1.format_subject (c :: rest) = c :: rest.
Proof.
  intros Hup Hdot Hlen.
  rewrite v1_format_subject_firstn, v1_capitalize_cons.
  rewrite (isupper_upper_char c Hup).
  change ([c] ++ rest) with (c :: rest).
  rewrite (v1_strip_period_no _ Hdot).
  now apply firstn_all2.
Qed.

Lemma v1_format_breaking_spec (breaking : str) :
  truthy breaking = true ->
  V1.format_breaking breaking
  = (if startswith (lit "BREAKING CHANGE: ") breaking
     then breaking
     else lit "BREAKING CHANGE: " ++ breaking)
  /\ startswith (lit "BREAKING CHANGE: ") (V1.format_breaking breaking) = true.
Proof.
  intros Ht. unfold V1.format_breaking. rewrite Ht.
  change (V1.breaking_changes_prefix V1.rules) with (lit "BREAKING CHANGE: ").
  destruct (startswith (lit "BREAKING CHANGE: ") breaking) eqn:E; simpl.
  - now split.
  - split; reflexivity.
Qed.

(** The template of the first script with an issue number put in. *)
Lemma issue_template (ref : str) :
  replace (lit "{issue}") ref (V1.footer_issue_references V1.rules)
  = lit "Soluciona: #" ++ ref.
Proof.
  unfold replace. cbn. now rewrite app_nil_r.
Qed.

Lemma findall_issue_go_nil (k : nat) : findall_issue_go k [] = [].
Proof. now destruct k. Qed.

Lemma v2_strip_keeps_period (s : str) :
  strip (s ++ [46%N]) = lstrip_by isspace s ++ [46%N].
Proof. unfold strip. now apply strip_by_app_keep. Qed.

Lemma v2_capitalize_period (s : str) :
  V2.capitalize_subject (s ++ [46%N]) = V2.capitalize_subject s ++ [46%N].
Proof.
  destruct s as [|c rest]; [reflexivity|].
  simpl. destruct (negb (isupper c)); [|reflexivity].
  now rewrite <- app_assoc.
Qed.

Lemma v2_strip_period_app (s : str) :
  V2.strip_period (s ++ [46%N]) = s.
Proof.
  unfold V2.strip_period.
  rewrite truthy_app_r by reflexivity.
  change (lit ".") with [46%N].
  rewrite endswith_char_last. simpl. apply drop_last_app.
Qed.

Lemma v2_strip_period_no (s : str) :
  endswith (lit ".") s = false -> V2.strip_period s = s.
Proof.
  intros H. unfold V2.strip_period. rewrite H.
  now rewrite andb_false_r.
Qed.

Lemma v2_capitalize_upper (c : char) (rest : str) :
  isupper c = true -> V2.capitalize_subject (c :: rest) = c :: rest.
Proof. intros H. simpl. now rewrite H. Qed.

Lemma v2_strip_period_length (s : str) :
  length s <= S (length (V2.strip_period s)).
Proof.
  unfold V2.strip_period.
  destruct (truthy s && endswith (lit ".") s) eqn:E; [|lia].
  apply andb_true_iff in E as [_ E].
  destruct (endswith_suffix _ _ E) as [t ->].
  change (lit ".") with [46%N].
  rewrite drop_last_app, length_app. simpl. lia.
Qed.

Lemma v2_capitalize_length (s : str) :
  length s <= length (V2.capitalize_subject s).
Proof.
  destruct s as [|c rest]; [simpl; lia|].
  simpl. destruct (negb (isupper c)); [|simpl; lia].
  rewrite length_app. pose proof (upper_char_length c). lia.
Qed.

End Facts.
End FormatFacts.

Module Formatter.
Import Py PyFacts FormatFacts.

Section Claims.
Context `{RT : PyRuntime}.

Lemma message_parts_header_v1
    (commit_type scope subject body breaking footer : str) :
  exists rest,
    V1.message_parts commit_type scope subject body breaking footer
    = V1.format_header commit_type scope (V1.format_subject subject) :: rest.
Proof. unfold V1.message_parts. simpl. eauto. Qed.

Lemma v2_strip_period_length_eq (s : str) :
  length (V2.strip_period s)
  = length s - (if endswith (lit ".") s then 1 else 0).
Proof.
  unfold V2.strip_period.
  destruct (endswith (lit ".") s) eqn:E.
  - destruct (endswith_suffix _ _ E) as [t ->].
    rewrite truthy_app_r by reflexivity. simpl andb.
    change (lit ".") with [46%N].
    rewrite drop_last_app, length_app. simpl. lia.
  - rewrite andb_false_r. lia.
Qed.

(** C1 (as amended).  For a subject of more than 50 characters the first
    script puts in the header exactly the first 50 characters of the
    capitalized subject with its final period removed.  The second script
    has no limit: its header subject is the whole trimmed and capitalized
    subject, less the one character of a final period when there is one.
    Both are total functions: no input is rejected and nothing is
    reported. *)
Theorem C1_subject_limit
    (commit_type scope subject body breaking footer : str) :
  50 < length subject ->
  (exists rest,
      V1.message_parts commit_type scope subject body breaking footer
      = V1.format_header commit_type scope
          (firstn 50 (V1.strip_period (V1.capitalize_subject subject)))
        :: rest)
  /\ length (V1.format_subject subject) = 50
  /\ (exists rest,
        V2.message_parts commit_type scope subject body breaking footer
        = V2.format_header commit_type scope (V2.format_subject subject)
          :: rest)
  /\ length (V2.format_subject subject)
     = length (V2.capitalize_subject (strip subject))
       - (if endswith (lit ".") (V2.capitalize_subject (strip subject))
          then 1 else 0)
  /\ length (strip subject) <= length (V2.capitalize_subject (strip subject)).
Proof.
  intros Hlen. repeat split.
  - destruct (message_parts_header_v1 commit_type scope subject body
                breaking footer) as [rest Hrest].
    exists rest. rewrite Hrest. now rewrite v1_format_subject_firstn.
  - rewrite v1_format_subject_firstn. apply firstn_length_le.
    pose proof (v1_capitalize_length subject).
    pose proof (v1_strip_period_length (V1.capitalize_subject subject)).
    lia.
  - unfold V2.message_parts. simpl. eauto.
  - unfold V2.format_subject. apply v2_strip_period_length_eq.
  - apply v2_capitalize_length.
Qed.

(** C6 (as amended).  A subject that ends with a period loses exactly that
    one period.  In the first script the header subject is the capitalized
    subject without its final character, cut to its first 50 characters; in
    the second it is the trimmed and capitalized subject without its final
    character.  A second period before the removed one stays. *)
Theorem C6_one_period_removed (subject : str) :
  endswith (lit ".") subject = true ->
  V1.format_subject subject
  = firstn 50 (drop_last (V1.capitalize_subject subject))
  /\ V2.format_subject subject
     = drop_last (V2.capitalize_subject (strip subject))
  /\ V1.strip_period (V1.capitalize_subject (subject ++ lit "."))
     = V1.capitalize_subject subject
  /\ V2.strip_period (V2.capitalize_subject (strip (subject ++ lit ".")))
     = V2.capitalize_subject (strip subject)
  /\ endswith (lit ".") (V1.capitalize_subject subject) = true
  /\ endswith (lit ".") (V2.capitalize_subject (strip subject)) = true.
Proof.
  intros H. destruct (endswith_suffix _ _ H) as [t ->].
  change (lit ".") with [46%N].
  repeat split.
  - rewrite v1_format_subject_firstn, v1_capitalize_period.
    now rewrite v1_strip_period_app, drop_last_app.
  - unfold V2.format_subject.
    rewrite v2_strip_keeps_period, v2_capitalize_period.
    now rewrite v2_strip_period_app, drop_last_app.
  - rewrite v1_capitalize_period. apply v1_strip_period_app.
  - rewrite !v2_strip_keeps_period.
    rewrite (lstrip_by_app_keep isspace t 46%N eq_refl).
    rewrite v2_capitalize_period. apply v2_strip_period_app.
  - rewrite v1_capitalize_period. apply endswith_app.
  - rewrite v2_strip_keeps_period, v2_capitalize_period. apply endswith_app.
Qed.

(** C7.  On a well-formed subject (not empty, first character uppercase, no
    final period, at most 50 characters) the subject rules of the first
    script change nothing, so applying them to their own output gives the
    same header, and the same message, again. *)
Theorem C7_header_idempotent
    (commit_type scope body breaking footer : str) (c : char) (rest : str) :
  isupper c = true ->
  endswith (lit ".") (c :: rest) = false ->
  length (c :: rest) <= 50 ->
  V1.format_subject (c :: rest) = c :: rest
  /\ V1.format_header commit_type scope
       (V1.format_subject (V1.format_subject (c :: rest)))
     = V1.format_header commit_type scope (V1.format_subject (c :: rest))
  /\ V1.format_commit_message commit_type scope
       (V1.format_subject (c :: rest)) body breaking footer
     = V1.format_commit_message commit_type scope (c :: rest)
         body breaking footer.
Proof.
  intros Hup Hdot Hlen.
  pose proof (v1_format_subject_fixed c rest Hup Hdot Hlen) as Hfix.
  rewrite !Hfix. auto.
Qed.

Lemma findall_issue_go_contains (k : nat) (s : str) :
  findall_issue_go k s <> [] -> contains (lit "#") s = true.
Proof.
  revert k. induction s as [|c s IH]; intros k H.
  - now rewrite findall_issue_go_nil in H.
  - change (contains (lit "#") (c :: s))
      with (startswith (lit "#") (c :: s) || contains (lit "#") s).
    destruct k as [|k]; cbn [findall_issue_go] in H.
    + change (chr "#") with 35%N in H.
      destruct (c =? 35)%N eqn:E.
      * apply N.eqb_eq in E. now subst c.
      * rewrite (IH 0 H). apply orb_true_r.
    + rewrite (IH k H). apply orb_true_r.
Qed.

Lemma startswith_contains (p s : str) :
  startswith p s = true -> contains p s = true.
Proof. intros H. destruct s; simpl in *; now rewrite H. Qed.

Lemma startswith_app_l (p q s : str) :
  startswith (p ++ q) s = true -> startswith p s = true.
Proof.
  revert s. induction p as [|a p IH]; intros s H; [reflexivity|].
  destruct s as [|b s]; simpl in *; [discriminate|].
  apply andb_true_iff in H as [-> H]. simpl. eauto.
Qed.

Lemma join_truthy (sep p : str) (ps : list str) :
  truthy p = true -> truthy (join sep (p :: ps)) = true.
Proof.
  intros H. destruct ps; [exact H|].
  rewrite join_cons. now apply truthy_app_l.
Qed.

(** The footer rule of the first script, case by case. *)
Lemma v1_format_footer_cases (footer : str) :
  V1.format_footer footer
  = (if contains (lit "Soluciona") footer || contains (lit "Closes") footer
     then footer
     else match findall_issue footer with
          | [] => footer
          | issue_refs =>
              join (lit nl)
                (map (fun ref => lit "Soluciona: #" ++ ref) issue_refs)
          end).
Proof.
  unfold V1.format_footer.
  destruct (contains (lit "Soluciona") footer);
    [now rewrite !andb_false_r|].
  destruct (contains (lit "Closes") footer);
    [now rewrite !andb_false_r|].
  cbn [negb orb]. rewrite !andb_true_r.
  destruct (findall_issue footer) as [|r rs] eqn:E.
  - now destruct (truthy footer && contains (lit "#") footer).
  - assert (Hrefs : findall_issue footer <> []) by congruence.
    assert (Hhash : contains (lit "#") footer = true)
      by (eapply findall_issue_go_contains; exact Hrefs).
    assert (Htruthy : truthy footer = true).
    { destruct footer; [|reflexivity]. discriminate E. }
    rewrite Htruthy, Hhash. cbn [andb].
    f_equal. apply map_ext. intros ref. apply issue_template.
Qed.

(** C5 (as amended).  In the first script a footer that names [Soluciona]
    or [Closes], and a footer without a reference [#<digits>], is left as
    it is; any other footer becomes one line [Soluciona: #<digits>] per
    reference found, joined by line feeds.  The second script does not look
    for references: a footer that starts with [Soluciona:] or [Closes:] is
    left as it is, and any other gets [Soluciona: ] once before the whole
    of it.  In both scripts the text so obtained, when there is one, is the
    last part of the message, after an empty part when nothing else
    follows the header. *)
Theorem C5_issue_references
    (commit_type scope subject body breaking footer : str) :
  V1.format_footer footer
  = (if contains (lit "Soluciona") footer || contains (lit "Closes") footer
     then footer
     else match findall_issue footer with
          | [] => footer
          | issue_refs =>
              join (lit nl)
                (map (fun ref => lit "Soluciona: #" ++ ref) issue_refs)
          end)
  /\ V1.message_parts commit_type scope subject body breaking footer
     = V1.message_parts commit_type scope subject body breaking []
       ++ (if truthy (V1.format_footer footer)
           then (if negb (truthy (V1.format_body body))
                    && negb (truthy (V1.format_breaking breaking))
                 then [[]] else [])
                ++ [V1.format_footer footer]
           else [])
  /\ V2.format_footer footer
     = (if startswith (lit "Soluciona:") footer
           || startswith (lit "Closes:") footer
        then footer
        else lit "Soluciona: " ++ footer)
  /\ V2.message_parts commit_type scope subject body breaking footer
     = V2.message_parts commit_type scope subject body breaking []
       ++ (if truthy footer
           then (if negb (truthy body) && negb (truthy breaking)
                 then [[]] else [])
                ++ [V2.format_footer footer]
           else []).
Proof.
  split; [|split; [|split]].
  - apply v1_format_footer_cases.
  - unfold V1.message_parts.
    change (V1.format_footer []) with (@nil N). cbn [truthy].
    now rewrite !app_nil_r, <- !app_assoc.
  - unfold V2.format_footer.
    now destruct (startswith (lit "Soluciona:") footer),
                 (startswith (lit "Closes:") footer).
  - unfold V2.message_parts. cbn [truthy].
    now rewrite !app_nil_r, <- !app_assoc.
Qed.

(** C2.  The second script puts the marker before the breaking text without
    looking at it: a text that already starts with the marker comes out
    with the marker twice.  (The first script tests for the marker, see
    [v1_format_breaking_spec].) *)
Theorem C2_marker_doubled_v2 :
  V2.format_commit_message (lit "feat") [] (lit "Add x") []
    (lit "BREAKING CHANGE: drop v1") []
  = lit "feat: Add x" ++ lit nl ++ lit nl
    ++ lit "BREAKING CHANGE: BREAKING CHANGE: drop v1"
  /\ V1.format_commit_message (lit "feat") [] (lit "Add x") []
       (lit "BREAKING CHANGE: drop v1") []
     = lit "feat: Add x" ++ lit nl ++ lit nl
       ++ lit "BREAKING CHANGE: drop v1".
Proof. split; vm_compute; reflexivity. Qed.

End Claims.

(** *** The claims on concrete inputs *)

Lemma C1_witness :
  50 < length (repeat 97%N 51)
  /\ length (V1.format_subject (repeat 97%N 51)) = 50.
Proof.
  assert (H : 50 < length (repeat 97%N 51)) by (vm_compute; lia).
  split; [exact H|].
  exact (proj1 (proj2 (C1_subject_limit [] [] _ [] [] [] H))).
Defined.

(** Fifty letters and a period: the second script takes the period off, and
    the subject is one character shorter than it came in. *)
Lemma C1_counterexample :
  50 < length (repeat 97%N 50 ++ [46%N])
  /\ length (V2.format_subject (repeat 97%N 50 ++ [46%N]))
     <> length (repeat 97%N 50 ++ [46%N]).
Proof. split; vm_compute; [lia | discriminate]. Qed.

Lemma C6_witness :
  endswith (lit ".") (lit "fix crash..") = true
  /\ V1.format_subject (lit "fix crash..") = lit "Fix crash."
  /\ V2.format_subject (lit "fix crash..") = lit "Fix crash.".
Proof.
  assert (H : endswith (lit ".") (lit "fix crash..") = true) by reflexivity.
  split; [exact H|].
  destruct (C6_one_period_removed (lit "fix crash..") H) as (H1 & H2 & _).
  split; [rewrite H1 | rewrite H2]; reflexivity.
Defined.

(** Fifty-one letters and a period: without its final character the
    capitalized subject has 51 characters, the header has 50 of them. *)
Lemma C6_counterexample :
  endswith (lit ".") (repeat 97%N 51 ++ [46%N]) = true
  /\ V1.format_subject (repeat 97%N 51 ++ [46%N])
     <> drop_last (V1.capitalize_subject (repeat 97%N 51 ++ [46%N])).
Proof.
  split; [reflexivity|].
  intros H. apply (f_equal (@length N)) in H. vm_compute in H. discriminate.
Qed.

Lemma C7_witness :
  isupper 70%N = true
  /\ endswith (lit ".") (lit "Fix crash") = false
  /\ length (lit "Fix crash") <= 50
  /\ V1.format_header (lit "fix") (lit "core")
       (V1.format_subject (V1.format_subject (lit "Fix crash")))
     = V1.format_header (lit "fix") (lit "core")
         (V1.format_subject (lit "Fix crash")).
Proof.
  assert (H1 : isupper 70%N = true) by reflexivity.
  assert (H2 : endswith (lit ".") (70%N :: lit "ix crash") = false)
    by reflexivity.
  assert (H3 : length (70%N :: lit "ix crash") <= 50) by (vm_compute; lia).
  split; [exact H1 | split; [exact H2 | split; [exact H3 |]]].
  exact (proj1 (proj2 (C7_header_idempotent (lit "fix") (lit "core")
                         [] [] [] 70%N (lit "ix crash") H1 H2 H3))).
Defined.

Lemma C5_witness :
  V1.format_footer (lit "see #42 and #7x")
  = lit "Soluciona: #42" ++ lit nl ++ lit "Soluciona: #7"
  /\ V1.format_footer (lit "Refs #1 (Closes: #2)") = lit "Refs #1 (Closes: #2)"
  /\ V1.format_footer (lit "no reference") = lit "no reference"
  /\ V2.format_footer (lit "Refs #1 (Closes: #2)")
     = lit "Soluciona: Refs #1 (Closes: #2)"
  /\ V2.format_footer (lit "Closes: #2") = lit "Closes: #2".
Proof.
  split; [|split; [|split; [|split]]].
  - rewrite (proj1 (C5_issue_references [] [] [] [] []
                      (lit "see #42 and #7x"))).
    reflexivity.
  - rewrite (proj1 (C5_issue_references [] [] [] [] []
                      (lit "Refs #1 (Closes: #2)"))).
    reflexivity.
  - rewrite (proj1 (C5_issue_references [] [] [] [] [] (lit "no reference"))).
    reflexivity.
  - rewrite (proj1 (proj2 (proj2 (C5_issue_references [] [] [] [] []
                                    (lit "Refs #1 (Closes: #2)"))))).
    reflexivity.
  - rewrite (proj1 (proj2 (proj2 (C5_issue_references [] [] [] [] []
                                    (lit "Closes: #2"))))).
    reflexivity.
Defined.

(** A footer as [get_commit_footer] makes it holds the reference [#42] and
    is left as it is by the first script; the second script puts a footer
    with two references on one line, and does so even when the footer
    names [Closes] further on. *)
Lemma C5_counterexample :
  findall_issue (lit "Closes: #42") = [lit "42"]
  /\ V1.format_footer (lit "Closes: #42") = lit "Closes: #42"
  /\ V1.format_footer (lit "Closes: #42") <> lit "Soluciona: #42"
  /\ V2.format_footer (lit "fixes #42, #43")
     = lit "Soluciona: fixes #42, #43"
  /\ findall_issue (lit "Refs #1 (Closes: #2)") = [lit "1"; lit "2"]
  /\ V2.format_footer (lit "Refs #1 (Closes: #2)")
     = lit "Soluciona: Refs #1 (Closes: #2)".
Proof.
  repeat split; try reflexivity.
  vm_compute. discriminate.
Qed.

End Formatter.

(** ** The decoder never runs out of fuel *)

Module JsonFacts.
Import Py Json.

Lemma skip_ws_length (s : str) : length (skip_ws s) <= length s.
Proof.
  induction s as [|c s IH]; simpl; [lia|].
  destruct (is_ws c); simpl; lia.
Qed.

Lemma scanstring_shorter (n : nat) :
  forall (s : str) pending acc t r,
    length s <= n ->
    scanstring pending acc s = POk t r -> length r < length s.
Proof.
  induction n as [|n IH]; intros s pending acc t r Hn H.
  - destruct s; [discriminate | simpl in Hn; lia].
  - destruct s as [|c s]; [discriminate|].
    simpl in Hn. cbn [scanstring] in H.
    destruct (c =? 34)%N.
    { injection H as _ <-. simpl. lia. }
    destruct (c =? 92)%N.
    2:{ destruct (c <? 32)%N; [discriminate|].
        apply IH in H; simpl; lia. }
    destruct s as [|e r1]; [discriminate|].
    destruct (e =? 117)%N.
    + destruct r1 as [|h1 [|h2 [|h3 [|h4 r2]]]]; try discriminate.
      destruct (hex4 h1 h2 h3 h4); [|discriminate].
      simpl in Hn |- *.
      destruct pending.
      * destruct (is_low_surrogate n0); [apply IH in H; simpl; lia|].
        destruct (is_high_surrogate n0); apply IH in H; simpl; lia.
      * destruct (is_high_surrogate n0); apply IH in H; simpl; lia.
    + destruct (simple_escape e); [|discriminate].
      simpl in Hn |- *. apply IH in H; simpl; lia.
Qed.

Lemma scanstring_no_fuel (s : str) : forall pending acc,
  scanstring pending acc s <> PFuel.
Proof.
  remember (length s) as n eqn:Hn.
  assert (Hle : length s <= n) by lia. clear Hn.
  revert s Hle. induction n as [|n IH]; intros s Hle pending acc.
  - destruct s; [discriminate | simpl in Hle; lia].
  - destruct s as [|c s]; [discriminate|].
    simpl in Hle. cbn [scanstring].
    destruct (c =? 34)%N; [discriminate|].
    destruct (c =? 92)%N.
    2:{ destruct (c <? 32)%N; [discriminate|]. apply IH. lia. }
    destruct s as [|e r1]; [discriminate|].
    destruct (e =? 117)%N.
    + destruct r1 as [|h1 [|h2 [|h3 [|h4 r2]]]]; try discriminate.
      destruct (hex4 h1 h2 h3 h4); [|discriminate].
      simpl in Hle.
      destruct pending.
      * destruct (is_low_surrogate n0); [apply IH; lia|].
        destruct (is_high_surrogate n0); apply IH; lia.
      * destruct (is_high_surrogate n0); apply IH; lia.
    + destruct (simple_escape e); [|discriminate].
      simpl in Hle. apply IH. lia.
Qed.

Lemma take_while_length (f : char -> bool) (s : str) :
  length (take_while f s) <= length s.
Proof. induction s as [|c s IH]; simpl; [lia|]. destruct (f c); simpl; lia. Qed.

Lemma span_digits_length (s ds r : str) :
  span_digits s = (ds, r) -> length r <= length s.
Proof.
  unfold span_digits. intros H. injection H as _ <-.
  rewrite length_skipn. lia.
Qed.

Lemma keyword_shorter (k : string) (v v' : json) (s r : str) :
  0 < length (lit k) ->
  keyword k v s = Some (v', r) -> length r < length s.
Proof.
  unfold keyword. intros Hk H.
  destruct (startswith (lit k) s) eqn:E; [|discriminate].
  injection H as _ <-.
  destruct (PyFacts.startswith_prefix _ _ E) as [t ->].
  rewrite length_skipn, length_app. lia.
Qed.

Lemma match_frac_length (s f r : str) :
  match_frac s = (f, r) -> length r <= length s.
Proof.
  unfold match_frac. destruct s as [|c s']; intros H.
  - injection H as _ <-. lia.
  - destruct (c =? 46)%N.
    + destruct (span_digits s') as [ds r'] eqn:E.
      apply span_digits_length in E.
      destruct ds; injection H as _ <-; simpl; lia.
    + injection H as _ <-. lia.
Qed.

Lemma match_exp_length (s f r : str) :
  match_exp s = (f, r) -> length r <= length s.
Proof.
  unfold match_exp. destruct s as [|e s']; intros H.
  - injection H as _ <-. lia.
  - destruct (_ || _)%bool.
    + destruct s' as [|sg r1]; [injection H as _ <-; simpl; lia|].
      destruct (_ || _)%bool.
      * destruct (span_digits r1) as [ds r'] eqn:E.
        apply span_digits_length in E.
        destruct ds; injection H as _ <-; simpl; lia.
      * destruct (span_digits (sg :: r1)) as [ds r'] eqn:E.
        apply span_digits_length in E.
        destruct ds; injection H as _ <-; simpl in *; lia.
    + injection H as _ <-. lia.
Qed.

Lemma match_int_shorter (s i r : str) :
  match_int s = Some (i, r) -> length r < length s.
Proof.
  unfold match_int. destruct s as [|c s']; [discriminate|].
  destruct (c =? 48)%N.
  - intros H. injection H as _ <-. simpl. lia.
  - destruct (is_digit c); [|discriminate].
    destruct (span_digits s') as [ds r'] eqn:E.
    apply span_digits_length in E.
    intros H. injection H as _ <-. simpl. lia.
Qed.

Lemma match_number_shorter (s t r : str) :
  match_number s = Some (t, r) -> length r < length s.
Proof.
  unfold match_number.
  destruct (match s with
            | [] => ([], s)
            | c :: r0 => if (c =? 45)%N then ([c], r0) else ([], s)
            end) as [sign s1] eqn:E1.
  assert (H1 : length s1 <= length s).
  { destruct s as [|c r0]; [injection E1 as _ <-; lia|].
    destruct (c =? 45)%N; injection E1 as _ <-; simpl; lia. }
  destruct (match_int s1) as [[i s2]|] eqn:E2; [|discriminate].
  apply match_int_shorter in E2.
  destruct (match_frac s2) as [f s3] eqn:E3.
  apply match_frac_length in E3.
  destruct (match_exp s3) as [e s4] eqn:E4.
  apply match_exp_length in E4.
  intros H. injection H as _ <-. lia.
Qed.

Lemma scan_atom_shorter (s : str) (v : json) (r : str) :
  scan_atom s = POk v r -> length r < length s.
Proof.
  unfold scan_atom.
  repeat match goal with
  | |- context [keyword ?k ?v0 s] =>
      let E := fresh "E" in
      destruct (keyword k v0 s) as [[? ?]|] eqn:E;
      [ intros H; injection H as _ <-;
        apply keyword_shorter in E; [exact E | vm_compute; lia] | ]
  | |- context [match_number s] =>
      let E := fresh "E" in
      destruct (match_number s) as [[? ?]|] eqn:E;
      [ intros H; injection H as _ <-;
        apply match_number_shorter in E; exact E | ]
  end.
  discriminate.
Qed.

Lemma scan_atom_no_fuel (s : str) : scan_atom s <> PFuel.
Proof.
  unfold scan_atom.
  repeat match goal with
  | |- context [keyword ?k ?v0 s] =>
      destruct (keyword k v0 s) as [[? ?]|]; [discriminate|]
  | |- context [match_number s] =>
      destruct (match_number s) as [[? ?]|]; [discriminate|]
  end.
  discriminate.
Qed.

Ltac stuck := split; [discriminate | intros; discriminate].

Lemma fuel_adequate (fuel : nat) : adequate fuel.
Proof.
  induction fuel as [|fuel (IHs & IHo & IHa)].
  - repeat split; intros; lia.
  - split; [|split].
    + intros s Hlen. cbn [scan_once].
      destruct s as [|c r]; [stuck|].
      simpl in Hlen.
      destruct (c =? 34)%N.
      { destruct (scanstring None [] r) as [t r'| |] eqn:E.
        - split; [discriminate|]. intros v r0 H. injection H as _ <-.
          apply (scanstring_shorter (length r)) in E; simpl; lia.
        - stuck.
        - now apply scanstring_no_fuel in E. }
      destruct (c =? 123)%N.
      { pose proof (skip_ws_length r) as Hws.
        destruct (skip_ws r) as [|c1 r1] eqn:E; [stuck|].
        simpl in Hws.
        destruct (c1 =? 125)%N.
        - split; [discriminate|]. intros v r0 H. injection H as _ <-.
          simpl. lia.
        - destruct (IHo [] (c1 :: r1)) as [Hf Hs]; [simpl; lia|].
          split; [exact Hf|]. intros v r0 H. apply Hs in H. simpl in *. lia. }
      destruct (c =? 91)%N.
      { pose proof (skip_ws_length r) as Hws.
        destruct (skip_ws r) as [|c1 r1] eqn:E; [stuck|].
        simpl in Hws.
        destruct (c1 =? 93)%N.
        - split; [discriminate|]. intros v r0 H. injection H as _ <-.
          simpl. lia.
        - destruct (IHa [] (c1 :: r1)) as [Hf Hs]; [simpl; lia|].
          split; [exact Hf|]. intros v r0 H. apply Hs in H. simpl in *. lia. }
      split; [apply scan_atom_no_fuel|].
      intros v r0 H. now apply scan_atom_shorter in H.
    + intros acc s Hlen. cbn [json_object].
      destruct s as [|c r]; [stuck|].
      simpl in Hlen.
      destruct (c =? 34)%N; [|stuck].
      destruct (scanstring None [] r) as [key r1| |] eqn:E.
      2:{ stuck. }
      2:{ now apply scanstring_no_fuel in E. }
      apply (scanstring_shorter (length r)) in E; [|lia].
      pose proof (skip_ws_length r1) as Hws1.
      destruct (skip_ws r1) as [|c2 r2] eqn:E2; [stuck|].
      simpl in Hws1.
      destruct (c2 =? 58)%N; [|stuck].
      pose proof (skip_ws_length r2) as Hws2.
      destruct (IHs (skip_ws r2)) as [Hf Hs]; [lia|].
      destruct (scan_once fuel (skip_ws r2)) as [v r3| |] eqn:E3.
      2:{ stuck. }
      2:{ congruence. }
      specialize (Hs v r3 eq_refl).
      pose proof (skip_ws_length r3) as Hws3.
      destruct (skip_ws r3) as [|c4 r4] eqn:E4; [stuck|].
      simpl in Hws3.
      destruct (c4 =? 125)%N.
      { split; [discriminate|]. intros v0 r0 H. injection H as _ <-.
        simpl. lia. }
      destruct (c4 =? 44)%N; [|stuck].
      pose proof (skip_ws_length r4) as Hws4.
      destruct (IHo ((key, v) :: acc) (skip_ws r4)) as [Hf' Hs']; [lia|].
      split; [exact Hf'|]. intros v0 r0 H. apply Hs' in H. simpl. lia.
    + intros acc s Hlen. cbn [json_array].
      destruct (IHs s) as [Hf Hs]; [lia|].
      destruct (scan_once fuel s) as [v r1| |] eqn:E.
      2:{ stuck. }
      2:{ congruence. }
      specialize (Hs v r1 eq_refl).
      pose proof (skip_ws_length r1) as Hws1.
      destruct (skip_ws r1) as [|c2 r2] eqn:E2; [stuck|].
      simpl in Hws1.
      destruct (c2 =? 93)%N.
      { split; [discriminate|]. intros v0 r0 H. injection H as _ <-. lia. }
      destruct (c2 =? 44)%N; [|stuck].
      pose proof (skip_ws_length r2) as Hws2.
      destruct (IHa (v :: acc) (skip_ws r2)) as [Hf' Hs']; [lia|].
      split; [exact Hf'|]. intros v0 r0 H. apply Hs' in H. lia.
Qed.

Lemma json_loads_no_fuel (s : str) : json_loads s <> PFuel.
Proof.
  unfold json_loads.
  pose proof (skip_ws_length s) as Hws.
  destruct (fuel_adequate (S (2 * length s))) as (Hs & _ & _).
  destruct (Hs (skip_ws s)) as [Hf _]; [lia|].
  destruct (scan_once (S (2 * length s)) (skip_ws s)) as [v r| |];
    [destruct (skip_ws r); discriminate | discriminate | congruence].
Qed.

End JsonFacts.

(** ** The generators and the review loops *)

Module LoopFacts.
Import Py Json Sys Samples PyFacts JsonFacts.

#[local] Arguments lit : simpl never.
#[local] Arguments str_eqb : simpl never.
#[local] Arguments strip : simpl never.
#[local] Arguments upper : simpl never.
#[local] Arguments replace : simpl never.

Section Loops.
Context `{RT : PyRuntime}.

Lemma commits_app (a b : list event) :
  commits (a ++ b) = commits a ++ commits b.
Proof.
  induction a as [|e a IH]; [reflexivity|].
  destruct e as [|argv| | |]; simpl; try exact IH.
  destruct argv as [|x [|y [|z [|m [|? ?]]]]]; try exact IH.
  destruct (_ && _)%bool; simpl; now rewrite IH.
Qed.

Lemma posts_app (a b : list event) : posts (a ++ b) = posts a + posts b.
Proof. unfold posts. now rewrite List.filter_app, length_app. Qed.

Lemma commits_commit (m : str) : commits [Ran (V1.git_commit_argv m)] = [m].
Proof. reflexivity. Qed.

Lemma bind_emit {A : Type} (e : event) (k : unit -> M A) (w : world) :
  (emit e ≫= k) w = k tt (log e w).
Proof. reflexivity. Qed.

Lemma bind_ret {A B : Type} (a : A) (k : A -> M B) (w : world) :
  (mret a ≫= k) w = k a w.
Proof. reflexivity. Qed.

Lemma bind_input {A : Type} (k : str -> M A) (w : world)
    (line : str) (rest : list str) :
  stdin w = line :: rest -> (input ≫= k) w = k line (left_to_read rest w).
Proof. intros H. unfold mbind, M_bind, input. now rewrite H. Qed.

Lemma bind_eq {A B : Type} (m : M A) (k : A -> M B) (w : world) :
  (m ≫= k) w
  = match m w with
    | (Ret a, w') => k a w'
    | (Raise e, w') => (Raise e, w')
    | (Beyond, w') => (Beyond, w')
    | (OutOfFuel, w') => (OutOfFuel, w')
    end.
Proof. reflexivity. Qed.

(** What a call of the generator of the first script comes to: a text, one
    request and at most a report of its failure. *)
Lemma v1_generate_shape
    (api_key diff commit_type scope lang : str) (w : world) :
  truthy diff = true ->
  exists message tail,
    V1.generate_commit_message api_key diff commit_type scope lang w
    = (Ret message,
       {| stdin := stdin w; net := net w; net_calls := S (net_calls w);
          procs := procs w; proc_calls := proc_calls w;
          trace := trace w ++ Posted :: tail |})
    /\ commits tail = [] /\ posts tail = 0.
Proof.
  intros Hd. unfold V1.generate_commit_message. rewrite Hd. cbn [negb].
  unfold try_except. rewrite bind_eq. unfold post_content.
  destruct (net w (net_calls w)) as [|status| |c].
  1-3: eexists [], [_]; rewrite bind_emit; unfold log, requested; simpl;
       rewrite <- app_assoc; split; [reflexivity | split; reflexivity].
  exists (strip c), []. unfold requested. simpl. auto.
Qed.

Ltac split_all := repeat match goal with |- _ /\ _ => split end.

Ltac observe :=
  cbn [trace log spawned left_to_read requested fst snd stdin];
  rewrite ?commits_app, ?posts_app, ?commits_commit;
  cbn [commits posts List.filter length app negb andb orb];
  rewrite ?app_nil_r, ?Nat.add_0_r, <- ?app_assoc;
  cbn [app];
  split_all; try reflexivity; try lia; try discriminate; eauto.

Lemma run_git_command_eq (argv : list str) (w : world) :
  V1.run_git_command argv w
  = match procs w (proc_calls w) with
    | Exit0 out => (Ret (Some (strip out)), spawned argv w)
    | ExitNonZero =>
        (Ret None,
         log (Notice (lit "es") (GitCommandFailed argv)) (spawned argv w))
    end.
Proof.
  unfold V1.run_git_command, try_except_called, subprocess_check.
  rewrite !bind_eq. unfold subprocess_run.
  destruct (procs w (proc_calls w)); reflexivity.
Qed.

Lemma v1_pass (api_key diff commit_type scope lang : str)
    (st : V1.review) (w : world) (line : str) (rest : list str) :
  truthy diff = true ->
  stdin w = line :: rest ->
  let r := V1.review_pass api_key diff commit_type scope lang st w in
  (exists tail,
      trace (snd r) = trace w ++ Printed (V1.formatted_message st) :: tail)
  /\ commits (trace (snd r))
     = commits (trace w)
       ++ (if chose line "A" then [V1.formatted_message st] else [])
  /\ posts (trace (snd r))
     = posts (trace w)
       + (if negb (chose line "A") && chose line "R" then 1 else 0)
  /\ match fst r with
     | Ret Leave => chose line "A" || chose line "C" = true
     | Ret (Again st') =>
         chose line "A" || chose line "C" = false
         /\ (chose line "R" || chose line "E" = false -> st' = st)
     | Raise e =>
         e = EOFError
         /\ chose line "A" || chose line "R" || chose line "C" = false
         /\ chose line "E" = true
     | Beyond | OutOfFuel => False
     end.
Proof.
  intros Hd Hin. unfold chose.
  unfold V1.review_pass. cbv zeta.
  rewrite bind_emit, (bind_input _ _ line rest) by exact Hin.
  set (choice := upper (strip line)). clearbody choice.
  destruct (str_eqb choice (lit "A")) eqn:EA.
  { unfold try_except, V1.track_command.
    rewrite bind_eq, run_git_command_eq.
    destruct (procs _ _) as [out|]; rewrite !bind_emit;
      unfold mret, M_ret; cbv iota beta; cbn [fst snd]; observe. }
  destruct (str_eqb choice (lit "R")) eqn:ER.
  { apply bool_decide_eq_true in ER. subst choice.
    rewrite bind_emit, bind_eq.
    destruct (v1_generate_shape api_key diff commit_type scope lang
                (log (Notice lang Regenerating)
                   (left_to_read rest
                      (log (Printed (V1.formatted_message st)) w))) Hd)
      as (message & tail & -> & Htail & Hposts).
    destruct (truthy message); [|rewrite bind_emit];
      unfold mret, M_ret; cbn [fst snd]; observe;
      rewrite ?Htail, ?Hposts, ?app_nil_r; try reflexivity; try lia. }
  destruct (str_eqb choice (lit "E")) eqn:EE.
  { apply bool_decide_eq_true in EE. subst choice.
    rewrite !bind_emit, bind_eq. unfold V1.read_lines.
    destruct (V1.read_lines_go _ _) as [[lines|] rest'];
      unfold mret, M_ret; cbn [fst snd]; observe. }
  destruct (str_eqb choice (lit "C")) eqn:EC.
  { rewrite bind_emit. unfold mret, M_ret; cbn [fst snd]; observe. }
  rewrite bind_emit. unfold mret, M_ret; cbn [fst snd]; observe.
Qed.

Lemma six_fields_lookup (a b c d e f : str) :
  V2.six_fields a b c d e f !! lit "type" = Some a
  /\ V2.six_fields a b c d e f !! lit "scope" = Some b
  /\ V2.six_fields a b c d e f !! lit "subject" = Some c
  /\ V2.six_fields a b c d e f !! lit "body" = Some d
  /\ V2.six_fields a b c d e f !! lit "breaking" = Some e
  /\ V2.six_fields a b c d e f !! lit "footer" = Some f.
Proof. repeat split; vm_compute; reflexivity. Qed.

Lemma six_fields_has (a b c d e f : str) :
  has_fields (V2.six_fields a b c d e f).
Proof.
  destruct (six_fields_lookup a b c d e f) as (H1 & H2 & H3 & H4 & H5 & H6).
  unfold has_fields. rewrite H1, H2, H3, H4, H5, H6. repeat split; eauto.
Qed.

Lemma setdefault_same (k v : str) (d : gmap str str) :
  is_Some (V2.setdefault k v d !! k).
Proof.
  unfold V2.setdefault. destruct (d !! k) eqn:E; [rewrite E; eauto|].
  rewrite lookup_insert_eq. eauto.
Qed.

Lemma setdefault_keeps (k v k' : str) (d : gmap str str) :
  is_Some (d !! k') -> is_Some (V2.setdefault k v d !! k').
Proof.
  intros H. unfold V2.setdefault. destruct (d !! k) eqn:E; [exact H|].
  destruct (decide (k = k')) as [->|Hne].
  - rewrite lookup_insert_eq. eauto.
  - now rewrite lookup_insert_ne.
Qed.

Lemma fallback_has (ai_response : str) :
  has_fields (V2.fallback_fields ai_response).
Proof.
  unfold V2.fallback_fields. cbv zeta.
  repeat match goal with
  | |- has_fields (match ?E with _ => _ end) => destruct E as [[? ?] ?]
  end.
  apply six_fields_has.
Qed.

Lemma parse_response_shape (content : str) (w : world) :
  snd (V2.parse_response content w) = w
  /\ match fst (V2.parse_response content w) with
     | Ret d => has_fields d
     | Raise e => e = AttributeError
     | Beyond => True
     | OutOfFuel => False
     end.
Proof.
  unfold V2.parse_response. cbv zeta.
  set (ai := strip _).
  destruct (find_char _ ai) as [i|];
    [|split; [reflexivity | apply fallback_has]].
  destruct (rfind_char _ ai) as [j|];
    [|split; [reflexivity | apply fallback_has]].
  pose proof (json_loads_no_fuel (slice i (S j) ai)) as Hfuel.
  destruct (json_loads _) as [v r| |];
    [| split; [reflexivity | apply fallback_has] | congruence].
  destruct v; try (split; reflexivity).
  destruct (V2.fields_of_members members) as [d|]; [|split; reflexivity].
  split; [reflexivity|]. cbn [fst mret M_ret].
  unfold has_fields.
  repeat split; eauto 10 using setdefault_same, setdefault_keeps.
Qed.

Lemma v2_generate_shape (api_key diff lang : str) (w : world) :
  truthy diff = true ->
  exists tail,
    snd (V2.generate_commit_message api_key diff lang w)
    = {| stdin := stdin w; net := net w; net_calls := S (net_calls w);
         procs := procs w; proc_calls := proc_calls w;
         trace := trace w ++ Posted :: tail |}
    /\ commits tail = [] /\ posts tail = 0
    /\ match fst (V2.generate_commit_message api_key diff lang w) with
       | Ret d => has_fields d
       | Beyond => True
       | Raise _ | OutOfFuel => False
       end.
Proof.
  intros Hd. unfold V2.generate_commit_message. rewrite Hd. cbn [negb].
  unfold try_except. rewrite bind_eq. unfold post_content.
  destruct (net w (net_calls w)) as [|status| |c].
  1-3: eexists [_]; rewrite bind_emit;
       unfold log, requested, mret, M_ret; simpl;
       rewrite <- app_assoc; repeat split; apply six_fields_has.
  destruct (parse_response_shape c (requested w)) as [Hw Hr].
  destruct (V2.parse_response c (requested w)) as [[d|e| |] w'];
    simpl in Hw, Hr; subst w'.
  - exists []. unfold requested; simpl. auto.
  - subst e. eexists [_]. rewrite bind_emit.
    unfold log, requested, mret, M_ret; simpl.
    rewrite <- app_assoc. repeat split; apply six_fields_has.
  - exists []. unfold requested; simpl. auto.
  - contradiction.
Qed.

Lemma field_some (d : gmap str str) (k v : str) (w : world) :
  d !! k = Some v -> V2.field d k w = (Ret v, w).
Proof. intros H. unfold V2.field. now rewrite H. Qed.

Lemma get_some (d : gmap str str) (k v : str) :
  d !! k = Some v -> V2.get d k = v.
Proof. intros H. unfold V2.get. now rewrite H. Qed.

Lemma bind_field {A : Type} (d : gmap str str) (k v : str)
    (f : str -> M A) (w : world) :
  d !! k = Some v -> (V2.field d k ≫= f) w = f v w.
Proof. intros H. rewrite bind_eq. now rewrite (field_some d k v w H). Qed.

(** Showing a draft prints its header first, runs nothing, and yields the
    message made of its six fields. *)
Lemma show_draft_shape (d : gmap str str) (w : world) :
  has_fields d ->
  exists shown,
    V2.show_draft d w
    = (Ret (message_of d),
       {| stdin := stdin w; net := net w; net_calls := net_calls w;
          procs := procs w; proc_calls := proc_calls w;
          trace := trace w ++ Printed (header_of d) :: shown |})
    /\ commits shown = [] /\ posts shown = 0.
Proof.
  intros ([t Ht] & [sc Hsc] & [su Hsu] & [b Hb] & [br Hbr] & [ft Hft]).
  unfold V2.show_draft, message_of, header_of.
  rewrite (get_some _ _ _ Ht), (get_some _ _ _ Hsc), (get_some _ _ _ Hsu),
    (get_some _ _ _ Hb), (get_some _ _ _ Hbr), (get_some _ _ _ Hft).
  rewrite (bind_field _ _ _ _ _ Ht), (bind_field _ _ _ _ _ Hsc),
    (bind_field _ _ _ _ _ Hsu), bind_emit, (bind_field _ _ _ _ _ Hb).
  cbv zeta.
  destruct (truthy b); [rewrite bind_emit | rewrite bind_ret];
    rewrite (bind_field _ _ _ _ _ Hbr), (bind_field _ _ _ _ _ Hft);
    match goal with |- context [if truthy ?x then emit _ else _] =>
      destruct (truthy x) end;
    [rewrite bind_emit | rewrite bind_ret
    | rewrite bind_emit | rewrite bind_ret];
    unfold mret, M_ret, log; cbn [stdin net net_calls procs proc_calls trace];
    rewrite <- ?app_assoc; cbn [app];
    eexists; (split; [reflexivity | split; reflexivity]).
Qed.

Lemma getitem_last {A : Type} (l : list A) (x : A) :
  getitem (l ++ [x]) (Z.of_nat (length (l ++ [x])) - 1) = Some x.
Proof.
  unfold getitem. rewrite length_app. simpl length.
  destruct (_ <? 0)%Z eqn:E; [apply Z.ltb_lt in E; lia|].
  replace (Z.to_nat (Z.of_nat (length l + 1) - 1)) with (length l) by lia.
  rewrite nth_error_app2 by lia. now rewrite Nat.sub_diag.
Qed.

Lemma Forall_firstn {A : Type} (P : A -> Prop) (n : nat) (l : list A) :
  Forall P l -> Forall P (firstn n l).
Proof.
  intros H. revert n. induction H; intros [|n]; simpl; constructor; auto.
Qed.

Lemma record_draft_current (st : V2.drafts) (d : gmap str str) :
  coherent st -> has_fields d ->
  getitem (V2.message_history (V2.record_draft st d))
          (V2.current_index (V2.record_draft st d)) = Some d
  /\ coherent (V2.record_draft st d).
Proof.
  intros [Hidx Hall] Hd. unfold V2.record_draft.
  destruct (V2.current_index st <? 0)%Z eqn:E.
  - apply Z.ltb_lt in E. destruct Hidx as [[_ Hnil]|?]; [|lia].
    cbn [V2.message_history V2.current_index]. rewrite Hnil.
    change ([] ++ [d]) with [d].
    split; [reflexivity|].
    split; [right; simpl; lia | constructor; [exact Hd | constructor]].
  - cbn [V2.message_history V2.current_index].
    split; [apply getitem_last|].
    unfold coherent. cbn [V2.message_history V2.current_index].
    split.
    + right. rewrite length_app. simpl length. lia.
    + apply Forall_app. split; [|constructor; [exact Hd | constructor]].
      destruct (V2.current_index st
                  <? Z.of_nat (length (V2.message_history st)) - 1)%Z;
        [now apply Forall_firstn | exact Hall].
Qed.

(** Once a draft has been recorded the index is the last one, so the test
    of the [N] branch, [current_index < len(message_history) - 1], is
    false whenever the menu is reached. *)
Lemma next_never_applies (st : V2.drafts) (d : gmap str str) :
  coherent st ->
  (V2.current_index (V2.record_draft st d)
   <? Z.of_nat (length (V2.message_history (V2.record_draft st d))) - 1)%Z
  = false.
Proof.
  intros [Hidx _]. unfold V2.record_draft.
  destruct (V2.current_index st <? 0)%Z eqn:E.
  - apply Z.ltb_lt in E. destruct Hidx as [[_ Hnil]|?]; [|lia].
    cbn [V2.message_history V2.current_index]. rewrite Hnil. reflexivity.
  - cbn [V2.message_history V2.current_index]. apply Z.ltb_ge. lia.
Qed.

Lemma move_to_shape (st : V2.drafts) (index : Z) (w : world) :
  snd (V2.move_to st index w) = w
  /\ match fst (V2.move_to st index w) with
     | Ret st' =>
         st' = {| V2.message_history := V2.message_history st;
                  V2.current_index := index |}
     | Raise _ => True
     | Beyond | OutOfFuel => False
     end.
Proof.
  unfold V2.move_to, lift_option, V2.field.
  destruct (getitem _ _) as [draft|]; [|split; reflexivity].
  rewrite bind_ret.
  destruct (draft !! lit "formatted"); split; reflexivity.
Qed.

Lemma bind_input_cases {A : Type} (k : str -> M A) (w : world) :
  (input ≫= k) w
  = match stdin w with
    | [] => (Raise EOFError, w)
    | line :: rest => k line (left_to_read rest w)
    end.
Proof. unfold mbind, M_bind, input. now destruct (stdin w). Qed.

Ltac read_line :=
  rewrite bind_input_cases;
  cbn [stdin log left_to_read];
  match goal with
  | |- context [match ?l with [] => _ | _ :: _ => _ end] =>
      destruct l as [|? ?]
  end;
  [cbn [fst snd trace log left_to_read stdin length];
   split; [reflexivity | split; [lia | reflexivity]] | ].

Lemma edit_draft_shape (st : V2.drafts) (d : gmap str str) (w : world) :
  getitem (V2.message_history st) (V2.current_index st) = Some d ->
  has_fields d ->
  Forall has_fields (V2.message_history st) ->
  trace (snd (V2.edit_draft st w)) = trace w ++ [Notice (lit "en") Editing]
  /\ length (stdin (snd (V2.edit_draft st w))) <= length (stdin w)
  /\ match fst (V2.edit_draft st w) with
     | Ret st' => coherent st'
     | Raise e => e = EOFError
     | Beyond | OutOfFuel => False
     end.
Proof.
  intros Hget ([t Ht] & [sc Hsc] & [su Hsu] & [b Hb] & [br Hbr] & [ft Hft]).
  intros Hall.
  unfold V2.edit_draft. rewrite Hget. unfold lift_option.
  rewrite bind_ret, bind_emit.
  destruct w as [inp nt nc ps pc tr].
  rewrite (bind_field _ _ _ _ _ Ht). read_line.
  rewrite (bind_field _ _ _ _ _ Hsc). read_line.
  rewrite (bind_field _ _ _ _ _ Hsu). read_line.
  rewrite (bind_field _ _ _ _ _ Hb). read_line.
  rewrite (bind_field _ _ _ _ _ Hbr). read_line.
  rewrite (bind_field _ _ _ _ _ Hft). read_line.
  cbv zeta. unfold mret, M_ret.
  cbn [fst snd trace log left_to_read stdin length].
  split; [reflexivity | split; [lia|]].
  unfold coherent. cbn [V2.message_history V2.current_index].
  split.
  - right. rewrite length_app. simpl length. lia.
  - apply Forall_app. split.
    + destruct (V2.current_index st
                  <? Z.of_nat (length (V2.message_history st)) - 1)%Z;
        [now apply Forall_firstn | exact Hall].
    + constructor; [apply six_fields_has | constructor].
Qed.

Lemma commits_commit_v2 (m : str) : commits [Ran (V2.git_commit_argv m)] = [m].
Proof. reflexivity. Qed.

Lemma accept_eq (lang m : str) (w : world) :
  try_except_called
    (subprocess_check (V2.git_commit_argv m);;
     emit (Notice lang CommitCreated);;
     mret (@Leave V2.drafts))
    (fun e => emit (Notice lang (ErrorCreatingCommit e));; mret Leave) w
  = (Ret Leave,
     log (Notice lang
            match procs w (proc_calls w) with
            | Exit0 _ => CommitCreated
            | ExitNonZero => ErrorCreatingCommit CalledProcessError
            end)
         (spawned (V2.git_commit_argv m) w)).
Proof.
  unfold try_except_called, subprocess_check.
  rewrite !bind_eq. unfold subprocess_run.
  destruct (procs w (proc_calls w)); reflexivity.
Qed.

Lemma posts_cons (e : event) (l : list event) :
  posts (e :: l) = (match e with Posted => 1 | _ => 0 end) + posts l.
Proof. destruct e; reflexivity. Qed.

Ltac finish :=
  cbn [trace log spawned left_to_read requested fst snd stdin length];
  rewrite ?commits_app, ?posts_app, ?commits_commit_v2, ?posts_cons;
  change (posts []) with 0;
  cbn [commits length app negb andb orb Nat.add];
  repeat match goal with
         | H : commits _ = _ |- _ => rewrite H
         | H : posts _ = _ |- _ => rewrite H
         end;
  rewrite ?app_nil_r, ?Nat.add_0_r, <- ?app_assoc;
  cbn [app];
  split_all; try reflexivity; try lia; try discriminate;
  try (do 2 eexists; reflexivity); eauto.

Lemma v2_pass (api_key diff lang : str)
    (st : V2.drafts) (w : world) (line : str) (rest : list str) :
  truthy diff = true ->
  stdin w = line :: rest ->
  coherent st ->
  let g := V2.generate_commit_message api_key diff lang
             (log (Notice lang Generating) w) in
  let r := V2.review_pass api_key diff lang st w in
  posts (trace (snd r)) = posts (trace w) + 1
  /\ match fst g with
     | Ret d =>
         commits (trace (snd r))
         = commits (trace w)
           ++ (if usable d && chose line "A" then [message_of d] else [])
         /\ (if usable d
             then exists before after,
                 trace (snd r) = before ++ Printed (header_of d) :: after
             else stdin (snd r) = stdin w)
         /\ match fst r with
            | Ret Leave =>
                negb (usable d) || chose line "A" || chose line "C" = true
            | Ret (Again st') =>
                usable d = true
                /\ chose line "A" || chose line "C" = false
                /\ coherent st'
                /\ length (stdin (snd r)) < length (stdin w)
            | Raise e =>
                usable d = true
                /\ chose line "A" || chose line "R" || chose line "C" = false
            | Beyond | OutOfFuel => False
            end
     | Beyond => fst r = Beyond
     | Raise _ | OutOfFuel => False
     end.
Proof.
  intros Hd Hin Hst. cbv zeta.
  unfold V2.review_pass. rewrite bind_emit, bind_eq.
  destruct (v2_generate_shape api_key diff lang
              (log (Notice lang Generating) w) Hd)
    as (tail & Hw & Hc & Hp & Hg).
  destruct (V2.generate_commit_message api_key diff lang
              (log (Notice lang Generating) w)) as [[d|e| |] w1];
    cbn [fst snd] in Hw, Hg |- *; try contradiction; subst w1.
  2:{ finish. }
  unfold usable, chose.
  destruct (V2.dict_truthy d && truthy (V2.get d (lit "subject"))) eqn:Eu.
  2:{ apply andb_false_iff in Eu.
      assert (Ec : negb (V2.dict_truthy d)
                   || negb (truthy (V2.get d (lit "subject"))) = true)
        by (destruct Eu as [-> | ->]; [reflexivity | apply orb_true_r]).
      rewrite Ec, bind_emit. unfold mret, M_ret.
      finish. }
  apply andb_true_iff in Eu as [Eu1 Eu2]. rewrite Eu1, Eu2.
  cbn [negb orb andb]. cbv zeta.
  destruct (record_draft_current st d Hst Hg) as [Hcur Hst1].
  set (st1 := V2.record_draft st d) in *. clearbody st1.
  rewrite Hcur. unfold lift_option. rewrite bind_ret, bind_eq.
  match goal with |- context [V2.show_draft d ?w0] =>
    destruct (show_draft_shape d w0 Hg) as (shown & -> & Hsc & Hsp)
  end.
  cbn [stdin log trace net net_calls procs proc_calls].
  assert (Hc1 : commits ((trace w ++ [Notice lang Generating])
                         ++ Posted :: tail)
                = commits (trace w)).
  { rewrite !commits_app. cbn [commits]. rewrite Hc. now rewrite !app_nil_r. }
  assert (Hp1 : posts ((trace w ++ [Notice lang Generating]) ++ Posted :: tail)
                = posts (trace w) + 1).
  { rewrite !posts_app. change (posts (Posted :: tail)) with (S (posts tail)).
    rewrite Hp. cbn. lia. }
  set (tr1 := (trace w ++ [Notice lang Generating]) ++ Posted :: tail) in *.
  clearbody tr1.
  rewrite bind_input_cases. cbn [stdin]. rewrite Hin.
  cbn [length].
  set (choice := upper (strip line)). clearbody choice.
  destruct (str_eqb choice (lit "A")) eqn:EA.
  { rewrite accept_eq. destruct (procs _ _); finish. }
  destruct (str_eqb choice (lit "R")) eqn:ER.
  { apply bool_decide_eq_true in ER. subst choice.
    unfold mret, M_ret. finish. }
  destruct (str_eqb choice (lit "P") && (0 <? V2.current_index st1)%Z) eqn:EP.
  { apply andb_true_iff in EP as [EP Hidx].
    apply bool_decide_eq_true in EP. subst choice. apply Z.ltb_lt in Hidx.
    rewrite bind_eq.
    match goal with |- context [V2.move_to st1 ?i ?w0] =>
      destruct (move_to_shape st1 i w0) as [Hmw Hmr];
      destruct (V2.move_to st1 i w0) as [[st'|e| |] w2]
    end; cbn [fst snd] in Hmw, Hmr; try contradiction; subst;
      unfold mret, M_ret; finish;
      try (destruct Hst1 as [Hrange Hall]; split;
           cbn [V2.message_history V2.current_index];
           [right; lia | exact Hall]). }
  destruct (str_eqb choice (lit "N")
            && (V2.current_index st1
                <? Z.of_nat (length (V2.message_history st1)) - 1)%Z) eqn:EN.
  { apply andb_true_iff in EN as [EN Hidx].
    apply bool_decide_eq_true in EN. subst choice. apply Z.ltb_lt in Hidx.
    rewrite bind_eq.
    match goal with |- context [V2.move_to st1 ?i ?w0] =>
      destruct (move_to_shape st1 i w0) as [Hmw Hmr];
      destruct (V2.move_to st1 i w0) as [[st'|e| |] w2]
    end; cbn [fst snd] in Hmw, Hmr; try contradiction; subst;
      unfold mret, M_ret; finish;
      try (destruct Hst1 as [[[Hneg Hnil]|Hrange] Hall]; split;
           cbn [V2.message_history V2.current_index];
           [ left; rewrite Hnil in Hidx |- *; simpl in Hidx;
             split; [lia|reflexivity]
           | exact Hall | right; lia | exact Hall ]). }
  destruct (str_eqb choice (lit "E")) eqn:EE.
  { apply bool_decide_eq_true in EE. subst choice.
    rewrite bind_eq.
    destruct Hst1 as [Hrange Hall].
    match goal with |- context [V2.edit_draft st1 ?w0] =>
      destruct (edit_draft_shape st1 d w0 Hcur Hg Hall) as (Het & Hes & Her);
      destruct (V2.edit_draft st1 w0) as [[st'|e| |] w2]
    end; cbn [fst snd trace stdin left_to_read length] in Het, Hes, Her;
      try contradiction; unfold mret, M_ret; cbn [fst snd]; rewrite Het;
      finish. }
  destruct (str_eqb choice (lit "C")) eqn:EC.
  { rewrite bind_emit. unfold mret, M_ret. finish. }
  rewrite bind_emit. unfold mret, M_ret. finish.
Qed.

(** The edit branch of the first loop: the lines typed, joined, are the
    message that the next pass shows and that accept commits. *)
Lemma v1_edit_pass (api_key diff commit_type scope lang : str)
    (st : V1.review) (w : world) (line : str) (rest lines rest' : list str) :
  stdin w = line :: rest ->
  chose line "E" = true ->
  V1.read_lines_go [] rest = (Some lines, rest') ->
  V1.review_pass api_key diff commit_type scope lang st w
  = (Ret (Again
            {| V1.formatted_message := join (lit nl) lines;
               V1.message_history :=
                 V1.message_history st ++ [join (lit nl) lines];
               V1.current_index :=
                 length (V1.message_history st ++ [join (lit nl) lines])
                 - 1 |}),
     left_to_read rest'
       (log (Notice lang EnterMessage)
          (log (Printed (V1.formatted_message st))
             (left_to_read rest
                (log (Printed (V1.formatted_message st)) w))))).
Proof.
  intros Hin HE Hlines. unfold chose in HE.
  apply bool_decide_eq_true in HE.
  unfold V1.review_pass. cbv zeta.
  rewrite bind_emit, (bind_input _ _ line rest) by exact Hin.
  rewrite HE.
  change (str_eqb (lit "E") (lit "A")) with false.
  change (str_eqb (lit "E") (lit "R")) with false.
  change (str_eqb (lit "E") (lit "E")) with true.
  cbv iota. rewrite !bind_emit, bind_eq. unfold V1.read_lines.
  cbn [stdin log left_to_read]. rewrite Hlines. reflexivity.
Qed.

(** A pass of the second loop shows the draft that it has just generated,
    right after generating it, whatever the history holds. *)
Lemma v2_pass_shown (api_key diff lang : str)
    (st : V2.drafts) (w : world) (line : str) (rest : list str)
    (d : gmap str str) :
  truthy diff = true ->
  stdin w = line :: rest ->
  coherent st ->
  fst (V2.generate_commit_message api_key diff lang
         (log (Notice lang Generating) w)) = Ret d ->
  usable d = true ->
  exists after,
    trace (snd (V2.review_pass api_key diff lang st w))
    = trace (snd (V2.generate_commit_message api_key diff lang
                    (log (Notice lang Generating) w)))
      ++ Printed (header_of d) :: after.
Proof.
  intros Hd Hin Hst Hgen Hu.
  unfold V2.review_pass. rewrite bind_emit, bind_eq.
  destruct (v2_generate_shape api_key diff lang
              (log (Notice lang Generating) w) Hd)
    as (tail & Hw & _ & _ & Hg).
  destruct (V2.generate_commit_message api_key diff lang
              (log (Notice lang Generating) w)) as [o w1].
  cbn [fst snd] in Hw, Hg, Hgen |- *. subst o w1.
  unfold usable in Hu. apply andb_true_iff in Hu as [Hu1 Hu2].
  rewrite Hu1, Hu2. cbn [negb orb]. cbv zeta.
  destruct (record_draft_current st d Hst Hg) as [Hcur Hst1].
  set (st1 := V2.record_draft st d) in *. clearbody st1.
  rewrite Hcur. unfold lift_option. rewrite bind_ret, bind_eq.
  match goal with |- context [V2.show_draft d ?w0] =>
    destruct (show_draft_shape d w0 Hg) as (shown & -> & _ & _)
  end.
  cbn [stdin log trace net net_calls procs proc_calls].
  set (tr1 := (trace w ++ [Notice lang Generating]) ++ Posted :: tail).
  clearbody tr1.
  rewrite bind_input_cases. cbn [stdin]. rewrite Hin.
  set (choice := upper (strip line)). clearbody choice.
  assert (Hend : forall (o : outcome (pass V2.drafts)) (w2 : world) extra,
             trace w2 = (tr1 ++ Printed (header_of d) :: shown) ++ extra ->
             exists after,
               trace (snd (o, w2)) = tr1 ++ Printed (header_of d) :: after).
  { intros o w2 extra H. cbn [snd]. rewrite H, <- app_assoc.
    cbn [app]. eauto. }
  destruct (str_eqb choice (lit "A")).
  { rewrite accept_eq. eapply Hend. cbn [trace log spawned].
    rewrite <- app_assoc. reflexivity. }
  destruct (str_eqb choice (lit "R")).
  { unfold mret, M_ret. eapply (Hend _ _ []). cbn [trace left_to_read].
    now rewrite app_nil_r. }
  destruct (str_eqb choice (lit "P") && (0 <? V2.current_index st1)%Z).
  { rewrite bind_eq.
    match goal with |- context [V2.move_to st1 ?i ?w0] =>
      destruct (move_to_shape st1 i w0) as [Hmw _];
      destruct (V2.move_to st1 i w0) as [[st'|e| |] w2]
    end; cbn [snd] in Hmw; subst w2; unfold mret, M_ret;
      eapply (Hend _ _ []); cbn [trace left_to_read];
      now rewrite app_nil_r. }
  destruct (str_eqb choice (lit "N")
            && (V2.current_index st1
                <? Z.of_nat (length (V2.message_history st1)) - 1)%Z).
  { rewrite bind_eq.
    match goal with |- context [V2.move_to st1 ?i ?w0] =>
      destruct (move_to_shape st1 i w0) as [Hmw _];
      destruct (V2.move_to st1 i w0) as [[st'|e| |] w2]
    end; cbn [snd] in Hmw; subst w2; unfold mret, M_ret;
      eapply (Hend _ _ []); cbn [trace left_to_read];
      now rewrite app_nil_r. }
  destruct (str_eqb choice (lit "E")).
  { rewrite bind_eq. destruct Hst1 as [_ Hall].
    match goal with |- context [V2.edit_draft st1 ?w0] =>
      destruct (edit_draft_shape st1 d w0 Hcur Hg Hall) as (Het & _ & _);
      destruct (V2.edit_draft st1 w0) as [[st'|e| |] w2]
    end; cbn [snd trace left_to_read] in Het; unfold mret, M_ret;
      eapply Hend; exact Het. }
  destruct (str_eqb choice (lit "C")).
  { rewrite bind_emit. unfold mret, M_ret. eapply Hend.
    cbn [trace log left_to_read]. reflexivity. }
  rewrite bind_emit. unfold mret, M_ret. eapply Hend.
  cbn [trace log left_to_read]. reflexivity.
Qed.

Lemma read_lines_go_length (pending : list str) : forall lines,
  length (snd (V1.read_lines_go lines pending)) <= length pending.
Proof.
  induction pending as [|line rest IH]; intros lines; simpl; [lia|].
  destruct (_ && _)%bool; simpl; [lia|].
  specialize (IH (lines ++ [line])). lia.
Qed.

(** A pass of the first loop that comes back to the top has read a line;
    no pass runs out of fuel or leaves the model. *)
Lemma v1_pass_progress (api_key diff commit_type scope lang : str)
    (st : V1.review) (w : world) :
  truthy diff = true ->
  match fst (V1.review_pass api_key diff commit_type scope lang st w) with
  | Ret (Again _) =>
      length (stdin (snd (V1.review_pass api_key diff commit_type scope
                            lang st w)))
      < length (stdin w)
  | Ret Leave | Raise _ => True
  | Beyond | OutOfFuel => False
  end.
Proof.
  intros Hd. unfold V1.review_pass. cbv zeta.
  rewrite bind_emit, bind_input_cases. cbn [stdin log].
  destruct (stdin w) as [|line rest] eqn:Hin; [exact I|].
  set (choice := upper (strip line)). clearbody choice.
  destruct (str_eqb choice (lit "A")).
  { unfold try_except, V1.track_command.
    rewrite bind_eq, run_git_command_eq.
    destruct (procs _ _) as [out|]; rewrite !bind_emit; exact I. }
  destruct (str_eqb choice (lit "R")).
  { rewrite bind_emit, bind_eq.
    match goal with |- context [V1.generate_commit_message _ _ _ _ _ ?w0] =>
      destruct (v1_generate_shape api_key diff commit_type scope lang w0 Hd)
        as (message & tail & -> & _ & _)
    end.
    destruct (truthy message); [|rewrite bind_emit];
      unfold mret, M_ret; cbn [fst snd stdin log left_to_read length]; lia. }
  destruct (str_eqb choice (lit "E")).
  { rewrite !bind_emit, bind_eq. unfold V1.read_lines.
    cbn [stdin log left_to_read].
    pose proof (read_lines_go_length rest []) as Hlen.
    destruct (V1.read_lines_go [] rest) as [[lines|] rest'];
      unfold mret, M_ret; cbn [fst snd stdin left_to_read length] in *;
      [lia | exact I]. }
  destruct (str_eqb choice (lit "C")).
  { rewrite bind_emit. exact I. }
  rewrite bind_emit. unfold mret, M_ret.
  cbn [fst snd stdin log left_to_read length]. lia.
Qed.

Lemma v1_loop_total (api_key diff commit_type scope lang : str) (fuel : nat) :
  truthy diff = true ->
  forall (st : V1.review) (w : world),
    length (stdin w) < fuel ->
    settled
      (fst (V1.review_loop fuel api_key diff commit_type scope lang st w)).
Proof.
  intros Hd. induction fuel as [|fuel IH]; intros st w Hlen; [lia|].
  cbn [V1.review_loop]. rewrite bind_eq.
  pose proof (v1_pass_progress api_key diff commit_type scope lang st w Hd)
    as Hp.
  destruct (V1.review_pass api_key diff commit_type scope lang st w)
    as [[[st'|]|e| |] w']; cbn [fst snd] in Hp |- *; try exact I;
    try contradiction.
  apply IH. lia.
Qed.

Lemma v1_create_total (api_key diff commit_type scope lang : str) (w : world) :
  truthy diff = true ->
  settled
    (fst (V1.create_new_commit_from api_key diff commit_type scope lang w)).
Proof.
  intros Hd. unfold V1.create_new_commit_from.
  rewrite bind_emit, bind_eq.
  match goal with |- context [V1.generate_commit_message _ _ _ _ _ ?w0] =>
    destruct (v1_generate_shape api_key diff commit_type scope lang w0 Hd)
      as (message & tail & -> & _ & _)
  end.
  destruct (truthy message); cbn [negb]; [|exact I].
  apply v1_loop_total; [exact Hd|]. cbn [stdin]. lia.
Qed.

(** The second loop: a pass that comes back to the top has read a line and
    keeps the state coherent; no pass runs out of fuel. *)
Lemma v2_pass_progress (api_key diff lang : str)
    (st : V2.drafts) (w : world) :
  truthy diff = true ->
  coherent st ->
  match fst (V2.review_pass api_key diff lang st w) with
  | Ret (Again st') =>
      coherent st'
      /\ length (stdin (snd (V2.review_pass api_key diff lang st w)))
         < length (stdin w)
  | Ret Leave | Raise _ | Beyond => True
  | OutOfFuel => False
  end.
Proof.
  intros Hd Hst.
  destruct (stdin w) as [|line rest] eqn:Hin.
  - unfold V2.review_pass. rewrite bind_emit, bind_eq.
    destruct (v2_generate_shape api_key diff lang
                (log (Notice lang Generating) w) Hd)
      as (tail & Hw & _ & _ & Hg).
    destruct (V2.generate_commit_message api_key diff lang
                (log (Notice lang Generating) w)) as [[d|e| |] w1];
      cbn [fst snd] in Hw, Hg |- *; try contradiction; try exact I; subst w1.
    destruct (negb (V2.dict_truthy d)
              || negb (truthy (V2.get d (lit "subject")))).
    { rewrite bind_emit. exact I. }
    cbv zeta.
    destruct (record_draft_current st d Hst Hg) as [Hcur _].
    rewrite Hcur. unfold lift_option. rewrite bind_ret, bind_eq.
    match goal with |- context [V2.show_draft d ?w0] =>
      destruct (show_draft_shape d w0 Hg) as (shown & -> & _ & _)
    end.
    rewrite bind_input_cases. cbn [stdin log]. rewrite Hin. exact I.
  - pose proof (v2_pass api_key diff lang st w line rest Hd Hin Hst) as Hp.
    cbv zeta in Hp. destruct Hp as [_ Hp].
    destruct (fst (V2.generate_commit_message api_key diff lang
                     (log (Notice lang Generating) w))) as [d|e| |];
      try contradiction.
    + destruct Hp as (_ & _ & Hp).
      destruct (fst (V2.review_pass api_key diff lang st w))
        as [[st'|]|e| |]; try exact I; try contradiction.
      destruct Hp as (_ & _ & Hco & Hlen). rewrite Hin in Hlen. auto.
    + rewrite Hp. exact I.
Qed.

Lemma v2_loop_total (api_key diff lang : str) (fuel : nat) :
  truthy diff = true ->
  forall (st : V2.drafts) (w : world),
    coherent st ->
    length (stdin w) < fuel ->
    in_time (fst (V2.review_loop fuel api_key diff lang st w)).
Proof.
  intros Hd. induction fuel as [|fuel IH]; intros st w Hst Hlen; [lia|].
  cbn [V2.review_loop]. rewrite bind_eq.
  pose proof (v2_pass_progress api_key diff lang st w Hd Hst) as Hp.
  destruct (V2.review_pass api_key diff lang st w)
    as [[[st'|]|e| |] w']; cbn [fst snd] in Hp |- *; try exact I;
    try contradiction.
  destruct Hp as [Hco Hl]. apply IH; [exact Hco | lia].
Qed.

Lemma reports_app (a b : list event) :
  reports_no_files (a ++ b) = reports_no_files a || reports_no_files b.
Proof. apply existsb_app. Qed.

Lemma stage_each_trace (fs : list str) (w : world) :
  fst (V2.stage_each fs w) = Ret tt
  /\ stdin (snd (V2.stage_each fs w)) = stdin w
  /\ trace (snd (V2.stage_each fs w))
     = trace w ++ map (fun file => Ran [lit "git"; lit "add"; file]) fs.
Proof.
  revert w. induction fs as [|f fs IH]; intros w.
  - simpl. now rewrite app_nil_r.
  - cbn [V2.stage_each]. rewrite bind_eq. unfold subprocess_run.
    destruct (IH (spawned [lit "git"; lit "add"; f] w)) as (H1 & H2 & H3).
    rewrite H1, H2, H3. cbn [map trace stdin spawned].
    rewrite <- app_assoc. auto.
Qed.

Lemma print_commands_trace (cs : list str) (w : world) :
  fst (V2.print_commands cs w) = Ret tt
  /\ stdin (snd (V2.print_commands cs w)) = stdin w
  /\ trace (snd (V2.print_commands cs w))
     = trace w ++ map (fun cmd => Printed (lit "$ " ++ cmd)) cs.
Proof.
  revert w. induction cs as [|c cs IH]; intros w.
  - simpl. now rewrite app_nil_r.
  - cbn [V2.print_commands]. rewrite bind_emit.
    destruct (IH (log (Printed (lit "$ " ++ c)) w)) as (H1 & H2 & H3).
    rewrite H1, H2, H3. cbn [map trace stdin log].
    rewrite <- app_assoc. auto.
Qed.

Lemma reports_ran (fs : list str) :
  reports_no_files (map (fun file => Ran [lit "git"; lit "add"; file]) fs)
  = false.
Proof. induction fs; simpl; auto. Qed.

Lemma reports_printed (cs : list str) :
  reports_no_files (map (fun cmd => Printed (lit "$ " ++ cmd)) cs) = false.
Proof. induction cs; simpl; auto. Qed.

(** Staging everything: one [git add .], no complaint, no line read. *)
Lemma stage_all_shape (lang : str) (w : world) :
  fst (V2.stage_changes None true lang w) = Ret tt
  /\ stdin (snd (V2.stage_changes None true lang w)) = stdin w
  /\ trace (snd (V2.stage_changes None true lang w))
     = trace w ++ [Ran [lit "git"; lit "add"; lit "."];
                   Notice lang AllStaged; Notice lang CommandsExecuted;
                   Printed (lit "$ " ++ lit "git add .")].
Proof.
  unfold V2.stage_changes. rewrite bind_eq. unfold subprocess_run.
  rewrite !bind_emit. cbn [V2.print_commands]. rewrite bind_emit.
  unfold mret, M_ret. cbn [fst snd stdin trace log spawned].
  rewrite <- !app_assoc. auto.
Qed.

Lemma stage_files_shape (f : str) (fs : list str) (lang : str) (w : world) :
  reports_no_files
    (trace (snd (V2.stage_changes (Some (f :: fs)) false lang w)))
  = reports_no_files (trace w).
Proof.
  unfold V2.stage_changes. rewrite bind_eq.
  destruct (stage_each_trace (f :: fs) w) as (H1 & H2 & H3).
  destruct (V2.stage_each (f :: fs) w) as [o w1]. cbn [fst snd] in *. subst o.
  rewrite !bind_emit.
  match goal with |- context [V2.print_commands ?cs ?w0] =>
    destruct (print_commands_trace cs w0) as (_ & _ & ->)
  end.
  cbn [trace log]. rewrite H3, !reports_app, reports_ran, reports_printed.
  simpl. now rewrite !orb_false_r.
Qed.

Lemma get_git_diff_shape (w : world) :
  exists diff,
    fst (V2.get_git_diff w) = Ret diff
    /\ stdin (snd (V2.get_git_diff w)) = stdin w.
Proof.
  unfold V2.get_git_diff, try_except_called, subprocess_check.
  rewrite !bind_eq. unfold subprocess_run.
  destruct (procs w (proc_calls w)) as [out|].
  - exists (strip out). split; reflexivity.
  - exists []. split; reflexivity.
Qed.

(** The second script's [create_new_commit] never stops for want of fuel:
    it ends with the loop left, with an exception, or outside the model. *)
Lemma v2_create_total (api_key lang : str) (w : world) :
  in_time (fst (V2.create_new_commit api_key lang w)).
Proof.
  unfold V2.create_new_commit. rewrite bind_eq.
  destruct (stage_all_shape lang w) as (Hs1 & Hs2 & _).
  destruct (V2.stage_changes None true lang w) as [o w1].
  cbn [fst snd] in Hs1, Hs2. subst o. rewrite bind_eq.
  destruct (get_git_diff_shape w1) as (diff & Hg1 & Hg2).
  destruct (V2.get_git_diff w1) as [o w2].
  cbn [fst snd] in Hg1, Hg2. subst o.
  destruct (truthy diff) eqn:Hd; cbn [negb]; [|exact I].
  apply v2_loop_total; [exact Hd | | lia].
  split; [left; split; [reflexivity | reflexivity] | constructor].
Qed.

End Loops.
End LoopFacts.

(** ** The claims about the generators, the loops and the dispatcher *)

Module Review.
Import Py Json Sys Samples PyFacts JsonFacts LoopFacts.

#[local] Arguments lit : simpl never.
#[local] Arguments str_eqb : simpl never.
#[local] Arguments strip : simpl never.
#[local] Arguments upper : simpl never.
#[local] Arguments replace : simpl never.

Section Claims.
Context `{RT : PyRuntime}.

(** C3.  The parser of the second script turns the canned reply into the
    six fields fix, core, Fix crash and three empty texts; the message put
    together from them is the single line [fix(core): Fix crash]; with an
    empty body, breaking text and footer the message is the header alone,
    with the scope in parentheses when there is one and without them when
    there is none.  Run as a whole on that reply, with the user accepting,
    the script commits exactly that line. *)
Theorem C3_canned_response (w : world) (commit_type scope subject : str) :
  V2.parse_response canned_response w
  = (Ret (V2.six_fields (lit "fix") (lit "core") (lit "Fix crash") [] [] []),
     w)
  /\ message_of
       (V2.six_fields (lit "fix") (lit "core") (lit "Fix crash") [] [] [])
     = lit "fix(core): Fix crash"
  /\ V2.assemble_message commit_type scope subject [] [] []
     = (if truthy scope
        then commit_type ++ lit "(" ++ scope ++ lit "): " ++ subject
        else commit_type ++ lit ": " ++ subject)
  /\ fst (V2.create_new_commit (lit "key") (lit "es")
            (stub_world [Content canned_response] [lit "a"])) = Ret tt
  /\ commits (trace (snd (V2.create_new_commit (lit "key") (lit "es")
                            (stub_world [Content canned_response] [lit "a"]))))
     = [lit "fix(core): Fix crash"].
Proof.
  split; [vm_compute; reflexivity|].
  split; [vm_compute; reflexivity|].
  split.
  { unfold V2.assemble_message, V2.assemble_header.
    cbn [truthy]. rewrite !app_nil_r.
    destruct (truthy scope); [|reflexivity].
    change (lit "): ") with (lit ")" ++ lit ": ").
    now rewrite <- !app_assoc. }
  split; vm_compute; reflexivity.
Qed.

(** C4.  When the request fails in transport or with an HTTP status, the
    generator catches the exception: the first script returns the empty
    string and the second the dictionary of six empty fields; exactly one
    request was made, and its failure reported. *)
Theorem C4_errors_are_caught
    (api_key diff commit_type scope lang : str) (w : world) :
  truthy diff = true ->
  (net w (net_calls w) = TransportError
   \/ exists status, net w (net_calls w) = HttpError status) ->
  exists e,
    V1.generate_commit_message api_key diff commit_type scope lang w
    = (Ret [], after_error w e)
    /\ V2.generate_commit_message api_key diff lang w
       = (Ret (V2.six_fields [] [] [] [] [] []), after_error w e)
    /\ posts (trace (after_error w e)) = posts (trace w) + 1
    /\ net_calls (after_error w e) = S (net_calls w).
Proof.
  intros Hd Hnet.
  assert (He : exists e, raised (net w (net_calls w)) = Some e).
  { destruct Hnet as [-> | [status ->]]; simpl; eauto. }
  destruct He as [e He]. exists e.
  assert (H1 : V1.generate_commit_message api_key diff commit_type scope lang w
               = (Ret [], after_error w e)).
  { unfold V1.generate_commit_message. rewrite Hd. cbn [negb].
    unfold try_except. rewrite bind_eq. unfold post_content.
    destruct (net w (net_calls w)); simpl in He; try discriminate;
      injection He as <-; rewrite bind_emit; reflexivity. }
  assert (H2 : V2.generate_commit_message api_key diff lang w
               = (Ret (V2.six_fields [] [] [] [] [] []), after_error w e)).
  { unfold V2.generate_commit_message. rewrite Hd. cbn [negb].
    unfold try_except. rewrite bind_eq. unfold post_content.
    destruct (net w (net_calls w)); simpl in He; try discriminate;
      injection He as <-; rewrite bind_emit; reflexivity. }
  split; [exact H1|]. split; [exact H2|].
  unfold after_error. cbn [trace log requested net_calls].
  rewrite !posts_app, !posts_cons. change (posts []) with 0.
  split; [lia | reflexivity].
Qed.

(** C8.  In the second script an edited draft is never shown and never
    committed.  The edit branch records the replacement text as the
    current draft, but the next pass of the loop starts by asking the
    generator again and goes on with that new draft: after an edit into
    [feat(ui): Add button], accept commits [docs: Update readme], the
    second draft of the generator.  This holds of every pass: whatever the
    history holds, the draft shown and the message committed are those of
    the draft generated in this very pass, for every state that the loop
    can be in.  The first script does what the
    claim says: the text typed in its edit branch is the message of the
    next pass, and accept commits it. *)
Theorem C8_edited_draft_is_lost :
  (fst (V2.create_new_commit (lit "key") (lit "es") edit_then_accept) = Ret tt
   /\ printed (trace (snd (V2.create_new_commit (lit "key") (lit "es")
                             edit_then_accept)))
      = [lit "$ git add ."; lit "fix(core): Fix crash";
         lit "docs: Update readme"]
   /\ commits (trace (snd (V2.create_new_commit (lit "key") (lit "es")
                             edit_then_accept)))
      = [lit "docs: Update readme"]
   /\ posts (trace (snd (V2.create_new_commit (lit "key") (lit "es")
                           edit_then_accept))) = 2
   /\ stdin (snd (V2.create_new_commit (lit "key") (lit "es")
                    edit_then_accept)) = [])
  /\ match V2.review_pass (lit "key") (lit "diff") (lit "es")
             {| V2.message_history := []; V2.current_index := (-1)%Z |}
             edit_then_accept with
     | (Ret (Again st), w1) =>
         map message_of (V2.message_history st)
         = [lit "fix(core): Fix crash"; lit "feat(ui): Add button"]
         /\ V2.current_index st = 1%Z
         /\ stdin w1 = [lit "a"]
         /\ commits (trace w1) = []
     | _ => False
     end
  /\ (fst (V1.create_new_commit_from (lit "key") (lit "diff") (lit "fix") []
             (lit "en") typed_then_accept) = Ret tt
      /\ printed (trace (snd (V1.create_new_commit_from (lit "key")
                                (lit "diff") (lit "fix") [] (lit "en")
                                typed_then_accept)))
         = [lit "fix: Fix crash"; lit "fix: Fix crash";
            lit "feat(ui): Add button" ++ lit nl]
      /\ commits (trace (snd (V1.create_new_commit_from (lit "key")
                                (lit "diff") (lit "fix") [] (lit "en")
                                typed_then_accept)))
         = [lit "feat(ui): Add button" ++ lit nl]
      /\ posts (trace (snd (V1.create_new_commit_from (lit "key")
                              (lit "diff") (lit "fix") [] (lit "en")
                              typed_then_accept))) = 1)
  /\ (forall (api_key diff lang : str) (st : V2.drafts) (w : world)
             (line : str) (rest : list str),
        truthy diff = true ->
        stdin w = line :: rest ->
        coherent st ->
        let g := V2.generate_commit_message api_key diff lang
                   (log (Notice lang Generating) w) in
        let r := V2.review_pass api_key diff lang st w in
        match fst g with
        | Ret d =>
            commits (trace (snd r))
            = commits (trace w)
              ++ (if usable d && chose line "A" then [message_of d] else [])
            /\ (usable d = true ->
                exists after,
                  trace (snd r)
                  = trace (snd g) ++ Printed (header_of d) :: after)
            /\ (forall st', fst r = Ret (Again st') -> coherent st')
        | Beyond =>
            r = (Beyond, snd g)
            /\ commits (trace (snd g)) = commits (trace w)
        | Raise _ | OutOfFuel => False
        end)
  /\ coherent {| V2.message_history := []; V2.current_index := (-1)%Z |}
  /\ (forall (api_key diff commit_type scope lang : str) (st : V1.review)
             (w : world) (line : str) (rest lines rest' : list str),
        stdin w = line :: rest ->
        chose line "E" = true ->
        V1.read_lines_go [] rest = (Some lines, rest') ->
        let r := V1.review_pass api_key diff commit_type scope lang st w in
        stdin (snd r) = rest'
        /\ commits (trace (snd r)) = commits (trace w)
        /\ posts (trace (snd r)) = posts (trace w)
        /\ exists st',
             fst r = Ret (Again st')
             /\ V1.formatted_message st' = join (lit nl) lines
             /\ V1.message_history st'
                = V1.message_history st ++ [join (lit nl) lines]
             /\ forall w' accept rest'',
                  truthy diff = true ->
                  stdin w' = accept :: rest'' ->
                  chose accept "A" = true ->
                  commits (trace (snd (V1.review_pass api_key diff
                                         commit_type scope lang st' w')))
                  = commits (trace w') ++ [join (lit nl) lines]).
Proof.
  split; [repeat split; vm_compute; reflexivity|].
  split; [vm_compute; repeat split; reflexivity|].
  split; [repeat split; vm_compute; reflexivity|].
  split; [|split].
  - intros api_key diff lang st w line rest Hd Hin Hst. cbv zeta.
    destruct (v2_pass api_key diff lang st w line rest Hd Hin Hst)
      as (_ & Hpass).
    pose proof (v2_pass_shown api_key diff lang st w line rest) as Hshown.
    destruct (v2_generate_shape api_key diff lang
                (log (Notice lang Generating) w) Hd)
      as (tail & Hw & Hc & _ & _).
    destruct (fst (V2.generate_commit_message api_key diff lang
                     (log (Notice lang Generating) w))) as [d|e| |] eqn:Eg;
      try contradiction.
    + destruct Hpass as (Hcommits & _ & Hnext). split; [exact Hcommits|].
      split; [intros Hu; exact (Hshown d Hd Hin Hst eq_refl Hu)|].
      intros st' Hr. rewrite Hr in Hnext. tauto.
    + split.
      * unfold V2.review_pass. rewrite bind_emit, bind_eq.
        destruct (V2.generate_commit_message api_key diff lang
                    (log (Notice lang Generating) w)) as [o w1].
        cbn [fst snd] in Eg |- *. now subst o.
      * rewrite Hw. cbn [trace log].
        rewrite !commits_app. cbn [commits]. rewrite Hc.
        now rewrite !app_nil_r.
  - split; [left; split; reflexivity | constructor].
  - intros api_key diff commit_type scope lang st w line rest lines rest'
      Hin HE Hlines. cbv zeta.
    rewrite (v1_edit_pass api_key diff commit_type scope lang st w line rest
               lines rest' Hin HE Hlines).
    cbn [fst snd stdin trace log left_to_read].
    rewrite !commits_app, !posts_app. cbn [commits].
    change (posts [Printed (V1.formatted_message st)]) with 0.
    change (posts [Notice lang EnterMessage]) with 0.
    rewrite !app_nil_r.
    split; [reflexivity|]. split; [reflexivity|]. split; [lia|].
    eexists. split; [reflexivity|].
    cbn [V1.formatted_message V1.message_history].
    split; [reflexivity|]. split; [reflexivity|].
    intros w' accept rest'' Hd Hin' HA.
    match goal with |- context [V1.review_pass _ _ _ _ _ ?st' w'] =>
      destruct (v1_pass api_key diff commit_type scope lang st' w' accept
                  rest'' Hd Hin') as (_ & Hcommits & _)
    end.
    rewrite Hcommits, HA. reflexivity.
Qed.

(** C9.  Two drafts, then previous: the index goes back and the script
    looks up the key [formatted], which no draft of six fields has, so the
    run ends with [KeyError] and nothing is committed.  With replies that do
    carry that key the loop goes on, and its next pass asks the generator
    again: what is shown third is the new draft, not the earlier one. *)
Theorem C9_previous_raises :
  fst (V2.create_new_commit (lit "key") (lit "es")
         (stub_world [Content canned_response; Content canned_response]
            [lit "r"; lit "p"; lit "a"]))
  = Raise (KeyError (lit "formatted"))
  /\ commits (trace (snd (V2.create_new_commit (lit "key") (lit "es")
         (stub_world [Content canned_response; Content canned_response]
            [lit "r"; lit "p"; lit "a"])))) = []
  /\ fst (V2.create_new_commit (lit "key") (lit "es")
         (stub_world [Content formatted_response; Content formatted_response;
                      Content canned_response]
            [lit "r"; lit "p"; lit "c"]))
     = Ret tt
  /\ printed (trace (snd (V2.create_new_commit (lit "key") (lit "es")
         (stub_world [Content formatted_response; Content formatted_response;
                      Content canned_response]
            [lit "r"; lit "p"; lit "c"]))))
     = [lit "$ git add ."; lit "fix: Fix crash"; lit "fix: Fix crash";
        lit "fix(core): Fix crash"]
  /\ posts (trace (snd (V2.create_new_commit (lit "key") (lit "es")
         (stub_world [Content formatted_response; Content formatted_response;
                      Content canned_response]
            [lit "r"; lit "p"; lit "c"])))) = 3.
Proof. repeat split; vm_compute; reflexivity. Qed.

(** C10.  [stage] without files and without [--all] is [stage --all]: the
    dispatcher calls [stage_changes(all_files=True)], which runs
    [git add .]; and whatever the arguments, the dispatcher never makes
    [stage_changes] report that no files were given. *)
Theorem C10_stage_defaults_to_all
    (args : V2.stage_args) (lang : str) (w : world) :
  V2.main_stage {| V2.files := []; V2.all := false |} lang w
  = V2.main_stage {| V2.files := []; V2.all := true |} lang w
  /\ V2.main_stage {| V2.files := []; V2.all := false |} lang w
     = V2.stage_changes None true lang w
  /\ fst (V2.main_stage {| V2.files := []; V2.all := false |} lang w) = Ret tt
  /\ trace (snd (V2.main_stage {| V2.files := []; V2.all := false |} lang w))
     = trace w ++ [Ran [lit "git"; lit "add"; lit "."];
                   Notice lang AllStaged; Notice lang CommandsExecuted;
                   Printed (lit "$ " ++ lit "git add .")]
  /\ reports_no_files (trace (snd (V2.main_stage args lang w)))
     = reports_no_files (trace w).
Proof.
  assert (H0 : V2.main_stage {| V2.files := []; V2.all := false |} lang w
               = V2.stage_changes None true lang w) by reflexivity.
  destruct (stage_all_shape lang w) as (Ha1 & Ha2 & Ha3).
  split; [reflexivity|]. split; [exact H0|].
  rewrite H0. split; [exact Ha1|]. split; [exact Ha3|].
  unfold V2.main_stage. destruct args as [fs a]. cbn [V2.files V2.all].
  destruct fs as [|f fs].
  - rewrite orb_true_r. rewrite Ha3, reports_app. simpl. apply orb_false_r.
  - destruct a; cbn [orb negb bool_decide].
    + rewrite Ha3, reports_app. simpl. apply orb_false_r.
    + simpl. apply stage_files_shape.
Qed.

End Claims.

(** *** The claims on concrete inputs *)

Lemma C4_witness :
  truthy (lit "diff") = true
  /\ (net (stub_world [HttpError 500] []) 0 = TransportError
      \/ exists status, net (stub_world [HttpError 500] []) 0
                        = HttpError status)
  /\ fst (V1.generate_commit_message (lit "key") (lit "diff") (lit "fix") []
            (lit "en") (stub_world [HttpError 500] [])) = Ret []
  /\ fst (V2.generate_commit_message (lit "key") (lit "diff") (lit "es")
            (stub_world [HttpError 500] []))
     = Ret (V2.six_fields [] [] [] [] [] []).
Proof.
  assert (H1 : truthy (lit "diff") = true) by reflexivity.
  assert (H2 : net (stub_world [HttpError 500] [])
                   (net_calls (stub_world [HttpError 500] []))
               = TransportError
               \/ exists status,
                   net (stub_world [HttpError 500] [])
                       (net_calls (stub_world [HttpError 500] []))
                   = HttpError status)
    by (right; exists 500%Z; reflexivity).
  split; [exact H1|]. split; [exact H2|].
  destruct (C4_errors_are_caught (lit "key") (lit "diff") (lit "fix") []
              (lit "en") (stub_world [HttpError 500] []) H1 H2)
    as (e & Hv1 & _).
  destruct (C4_errors_are_caught (lit "key") (lit "diff") (lit "fix") []
              (lit "es") (stub_world [HttpError 500] []) H1 H2)
    as (e' & _ & Hv2 & _).
  rewrite Hv1, Hv2. split; reflexivity.
Defined.

(** The pass in which the user of [edit_then_accept] edits: what holds of
    every pass holds of it, and the draft it shows is the generated one. *)
Lemma C8_witness :
  truthy (lit "diff") = true
  /\ stdin edit_then_accept
     = lit "e" :: [lit "feat"; lit "ui"; lit "Add button"; []; []; [];
                   lit "a"]
  /\ coherent {| V2.message_history := []; V2.current_index := (-1)%Z |}
  /\ commits (trace (snd (V2.review_pass (lit "key") (lit "diff") (lit "es")
                            {| V2.message_history := [];
                               V2.current_index := (-1)%Z |}
                            edit_then_accept))) = []
  /\ exists after,
       trace (snd (V2.review_pass (lit "key") (lit "diff") (lit "es")
                     {| V2.message_history := [];
                        V2.current_index := (-1)%Z |}
                     edit_then_accept))
       = [Notice (lit "es") Generating; Posted;
          Printed (lit "fix(core): Fix crash")] ++ after.
Proof.
  assert (H1 : truthy (lit "diff") = true) by reflexivity.
  assert (H2 : stdin edit_then_accept
               = lit "e" :: [lit "feat"; lit "ui"; lit "Add button"; []; [];
                             []; lit "a"]) by reflexivity.
  destruct C8_edited_draft_is_lost as (_ & _ & _ & Hpass & H3 & _).
  split; [exact H1|]. split; [exact H2|]. split; [exact H3|].
  specialize (Hpass (lit "key") (lit "diff") (lit "es") _ _ _ _ H1 H2 H3).
  cbv zeta in Hpass.
  change (fst (V2.generate_commit_message (lit "key") (lit "diff") (lit "es")
                 (log (Notice (lit "es") Generating) edit_then_accept)))
    with (Ret (V2.six_fields (lit "fix") (lit "core") (lit "Fix crash")
                 [] [] []) : outcome (gmap str str)) in Hpass.
  cbv iota in Hpass. destruct Hpass as (Hcommits & Hshown & _).
  split.
  - rewrite Hcommits. reflexivity.
  - destruct (Hshown eq_refl) as [after Hafter]. exists after.
    rewrite Hafter. reflexivity.
Defined.

(** Regenerate, then accept, with a generator that fails the second time:
    the run ends after the regeneration with nothing committed, and the
    accept is never read. *)
Lemma failed_regeneration_ends_the_run :
  fst (V2.create_new_commit (lit "key") (lit "es")
         (stub_world [Content canned_response] [lit "r"; lit "a"])) = Ret tt
  /\ commits (trace (snd (V2.create_new_commit (lit "key") (lit "es")
         (stub_world [Content canned_response] [lit "r"; lit "a"])))) = []
  /\ stdin (snd (V2.create_new_commit (lit "key") (lit "es")
         (stub_world [Content canned_response] [lit "r"; lit "a"])))
     = [lit "a"].
Proof. repeat split; vm_compute; reflexivity. Qed.

End Review.

(** ** More facts about the string operations *)

Module MoreStrings.
Import Py PyFacts.

Section Facts.
Context `{RT : PyRuntime}.

Lemma startswith_skipn (p s : str) :
  startswith p s = true -> s = p ++ skipn (length p) s.
Proof.
  intros H. destruct (startswith_prefix p s H) as [t ->].
  now rewrite skipn_app, Nat.sub_diag, skipn_all.
Qed.

Lemma split_go_skip (sep : str) (s : str) : forall (k : nat) (cur : str),
  split_go sep k cur s = split_go sep 0 cur (skipn k s).
Proof.
  induction s as [|c s IH]; intros k cur.
  - now destruct k.
  - destruct k as [|k]; [reflexivity|]. simpl split_go at 1. apply IH.
Qed.

Lemma split_go_cons (sep : str) (k : nat) (cur s : str) :
  exists p ps, split_go sep k cur s = p :: ps.
Proof.
  revert k cur. induction s as [|c s IH]; intros k cur; simpl; [eauto|].
  destruct k; [|apply IH].
  destruct (startswith sep (c :: s)); [eauto | apply IH].
Qed.

(** Joining the pieces of a split with the separator gives the text back. *)
Lemma join_split_go (sep : str) (n : nat) : forall (s cur : str),
  sep <> [] -> length s <= n ->
  join sep (split_go sep 0 cur s) = rev cur ++ s.
Proof.
  induction n as [|n IH]; intros s cur Hsep Hlen.
  - destruct s; [|simpl in Hlen; lia]. simpl. now rewrite app_nil_r.
  - destruct s as [|c s]; [simpl; now rewrite app_nil_r|].
    cbn [split_go].
    destruct (startswith sep (c :: s)) eqn:E.
    + rewrite split_go_skip.
      destruct (split_go_cons sep 0 [] (skipn (length sep - 1) s))
        as (p & ps & Hp).
      rewrite Hp, join_cons, <- Hp.
      rewrite IH; [|exact Hsep|].
      * cbn [rev app]. f_equal.
        pose proof (startswith_skipn sep (c :: s) E) as Hs.
        destruct sep as [|a sep]; [contradiction|].
        cbn [length Nat.sub skipn] in Hs |- *.
        rewrite Nat.sub_0_r. symmetry. exact Hs.
      * rewrite length_skipn. simpl in Hlen. lia.
    + rewrite IH; [|exact Hsep | simpl in Hlen; lia].
      simpl. now rewrite <- app_assoc.
Qed.

Lemma join_split (sep s : str) : sep <> [] -> join sep (split sep s) = s.
Proof.
  intros H. unfold split.
  now rewrite (join_split_go sep (length s) s [] H (Nat.le_refl _)).
Qed.

(** Replacing a one-character text: the character goes, whatever else the
    text holds stays. *)
Lemma replace_go_char (c : char) (new : str) (s : str) :
  replace_go [c] new 0 s
  = flat_map (fun x => if (c =? x)%N then new else [x]) s.
Proof.
  induction s as [|x s IH]; [reflexivity|].
  cbn [replace_go flat_map startswith length Nat.sub].
  rewrite andb_true_r.
  destruct (c =? x)%N; rewrite IH; reflexivity.
Qed.

Lemma contains_char_In (c : char) (s : str) :
  contains [c] s = true <-> In c s.
Proof.
  induction s as [|x s IH]; simpl.
  - split; [discriminate | tauto].
  - rewrite andb_true_r, orb_true_iff, IH, N.eqb_eq.
    split; (intros [H|H]; [left; congruence | now right]).
Qed.

(** Every match of the issue pattern is a run of digits that is not empty. *)
Lemma take_while_all (f : char -> bool) (s : str) :
  forallb f (take_while f s) = true.
Proof.
  induction s as [|c s IH]; [reflexivity|]. simpl.
  destruct (f c) eqn:E; [simpl; now rewrite E | reflexivity].
Qed.

Lemma findall_issue_go_digits (s : str) : forall k,
  Forall (fun ref => ref <> [] /\ forallb isdecimal ref = true)
         (findall_issue_go k s).
Proof.
  induction s as [|c s IH]; intros k; [destruct k; constructor|].
  cbn [findall_issue_go]. destruct k; [|apply IH].
  destruct (c =? chr "#")%N; [|apply IH].
  destruct (take_while isdecimal s) as [|d ds] eqn:E; [apply IH|].
  constructor; [|apply IH].
  split; [discriminate|]. rewrite <- E. apply take_while_all.
Qed.

End Facts.
End MoreStrings.

(** ** The formatters and the helpers that ask for the parts of a message *)

Module Layout.
Import Py Sys Text Samples PyFacts FormatFacts MoreStrings.

#[local] Arguments strip : simpl never.
#[local] Arguments replace : simpl never.

#[local] Arguments lit : simpl never.

Section Facts.
Context `{RT : PyRuntime}.

Lemma contains_cons (sub : str) (c : char) (s : str) :
  contains sub s = true -> contains sub (c :: s) = true.
Proof. intros H. cbn [contains]. rewrite H. apply orb_true_r. Qed.

Lemma startswith_take_while (f : char -> bool) (s : str) :
  startswith (take_while f s) s = true.
Proof.
  induction s as [|c s IH]; [reflexivity|]. simpl.
  destruct (f c); [|reflexivity]. simpl. now rewrite N.eqb_refl.
Qed.

Lemma findall_issue_go_occurs (s : str) : forall k,
  Forall (fun ref => contains (lit "#" ++ ref) s = true)
         (findall_issue_go k s).
Proof.
  induction s as [|c s IH]; intros k; [destruct k; constructor|].
  assert (Hlater : forall j,
             Forall (fun ref => contains (lit "#" ++ ref) (c :: s) = true)
                    (findall_issue_go j s)).
  { intros j. eapply Forall_impl; [apply IH|].
    intros ref H. now apply contains_cons. }
  cbn [findall_issue_go]. destruct k; [|apply Hlater].
  destruct (c =? chr "#")%N eqn:Ec; [|apply Hlater].
  destruct (take_while isdecimal s) as [|d ds] eqn:E; [apply Hlater|].
  constructor; [|apply Hlater].
  apply N.eqb_eq in Ec. subst c.
  change (lit "#" ++ d :: ds) with (chr "#" :: d :: ds).
  rewrite <- E. cbn [contains startswith].
  now rewrite N.eqb_refl, startswith_take_while.
Qed.

Lemma v1_breaking_fixed (b : str) :
  startswith (lit "BREAKING CHANGE: ") b = true -> V1.format_breaking b = b.
Proof.
  intros H. unfold V1.format_breaking.
  change (V1.breaking_changes_prefix V1.rules) with (lit "BREAKING CHANGE: ").
  rewrite H. now rewrite andb_false_r.
Qed.

Lemma v1_footer_fixed (f : str) :
  contains (lit "Soluciona") f = true \/ contains (lit "Closes") f = true ->
  V1.format_footer f = f.
Proof.
  intros H. unfold V1.format_footer.
  destruct H as [-> | ->]; cbn [negb]; now rewrite ?andb_false_r.
Qed.

Lemma v2_footer_fixed (f : str) :
  startswith (lit "Soluciona:") f = true \/ startswith (lit "Closes:") f = true ->
  V2.format_footer f = f.
Proof.
  intros H. unfold V2.format_footer.
  destruct H as [-> | ->]; cbn [negb]; now rewrite ?andb_false_r.
Qed.

Lemma v2_format_body_id (body : str) : V2.format_body body = body.
Proof.
  unfold V2.format_body. rewrite map_id. apply join_split. discriminate.
Qed.

(** X1.  The paragraph loop of the second formatter changes nothing:
    splitting the body at empty lines and joining the pieces again gives
    the body back, so a message with a body alone is the header, an empty
    line and the body as it was given. *)
Theorem v2_body_unchanged (body : str) :
  V2.format_body body = body
  /\ (forall commit_type scope subject,
        truthy body = true ->
        V2.message_parts commit_type scope subject body [] []
        = [V2.format_header commit_type scope (V2.format_subject subject);
           []; body]).
Proof.
  pose proof (v2_format_body_id body) as H.
  split; [exact H|]. intros t sc su Hb.
  unfold V2.message_parts. rewrite Hb, H. reflexivity.
Qed.

(** X2.  A formatted message is the header and, when a body, a breaking
    text or a footer is there, an empty line and then those sections: one
    line feed, not an empty line, stands between one section and the next.
    The first script leaves out a section that is empty after formatting,
    the second one that was empty before. *)
Theorem message_layout
    (commit_type scope subject body breaking footer : str) :
  V1.format_commit_message commit_type scope subject body breaking footer
  = V1.format_header commit_type scope (V1.format_subject subject)
    ++ match List.filter truthy
               [V1.format_body body; V1.format_breaking breaking;
                V1.format_footer footer] with
       | [] => []
       | sections => lit nl ++ lit nl ++ join (lit nl) sections
       end
  /\ V2.format_commit_message commit_type scope subject body breaking footer
     = V2.format_header commit_type scope (V2.format_subject subject)
       ++ match (if truthy body then [body] else [])
                ++ (if truthy breaking
                    then [lit "BREAKING CHANGE: " ++ breaking] else [])
                ++ (if truthy footer then [V2.format_footer footer] else [])
          with
          | [] => []
          | sections => lit nl ++ lit nl ++ join (lit nl) sections
          end.
Proof.
  split.
  - unfold V1.format_commit_message, V1.message_parts. cbv zeta.
    cbn [List.filter].
    destruct (truthy (V1.format_body body));
      destruct (truthy (V1.format_breaking breaking));
      destruct (truthy (V1.format_footer footer));
      cbn [negb andb app List.filter join];
      rewrite ?app_nil_r, <- ?app_assoc; reflexivity.
  - unfold V2.format_commit_message, V2.message_parts.
    rewrite v2_format_body_id.
    unfold V2.format_breaking.
    destruct (truthy body); destruct (truthy breaking);
      destruct (truthy footer);
      cbn [negb andb app join];
      rewrite ?app_nil_r, <- ?app_assoc; reflexivity.
Qed.

Lemma v1_breaking_twice (b : str) :
  V1.format_breaking (V1.format_breaking b) = V1.format_breaking b.
Proof.
  assert (H : V1.format_breaking b
              = if truthy b && negb (startswith (lit "BREAKING CHANGE: ") b)
                then lit "BREAKING CHANGE: " ++ b else b) by reflexivity.
  destruct (truthy b && negb (startswith (lit "BREAKING CHANGE: ") b));
    rewrite H.
  - apply v1_breaking_fixed, startswith_app.
  - exact H.
Qed.

Lemma v1_footer_twice (f : str) :
  V1.format_footer (V1.format_footer f) = V1.format_footer f.
Proof.
  assert (H : V1.format_footer f
              = if truthy f && contains (lit "#") f
                   && negb (contains (lit "Soluciona") f)
                   && negb (contains (lit "Closes") f)
                then match findall_issue f with
                     | [] => f
                     | issue_refs =>
                         join (lit nl)
                           (map (fun ref =>
                                   replace (lit "{issue}") ref
                                     (V1.footer_issue_references V1.rules))
                                issue_refs)
                     end
                else f) by reflexivity.
  destruct (truthy f && contains (lit "#") f
            && negb (contains (lit "Soluciona") f)
            && negb (contains (lit "Closes") f)).
  - destruct (findall_issue f) as [|r rs]; rewrite H; [exact H|].
    apply v1_footer_fixed. left. cbn [map].
      rewrite issue_template. apply Formatter.startswith_contains.
      destruct (map _ rs); cbn [join].
      * change (lit "Soluciona: #" ++ r)
          with (lit "Soluciona" ++ (lit ": #" ++ r)).
        apply startswith_app.
      * change (lit "Soluciona: #" ++ r)
          with (lit "Soluciona" ++ (lit ": #" ++ r)).
        rewrite <- app_assoc. apply startswith_app.
  - rewrite H. exact H.
Qed.

Lemma v2_footer_twice (f : str) :
  V2.format_footer (V2.format_footer f) = V2.format_footer f.
Proof.
  assert (H : V2.format_footer f
              = if negb (startswith (lit "Soluciona:") f)
                   && negb (startswith (lit "Closes:") f)
                then lit "Soluciona: " ++ f else f) by reflexivity.
  destruct (negb (startswith (lit "Soluciona:") f)
            && negb (startswith (lit "Closes:") f)); rewrite H; [|exact H].
  apply v2_footer_fixed. left.
  change (lit "Soluciona: " ++ f) with (lit "Soluciona:" ++ (lit " " ++ f)).
  apply startswith_app.
Qed.

(** X3.  Formatting a breaking text or a footer a second time changes nothing
    in the first script, and nothing for the footer in the second. *)
Theorem sections_idempotent (breaking footer : str) :
  V1.format_breaking (V1.format_breaking breaking)
  = V1.format_breaking breaking
  /\ V1.format_footer (V1.format_footer footer) = V1.format_footer footer
  /\ V2.format_footer (V2.format_footer footer) = V2.format_footer footer.
Proof.
  split; [apply v1_breaking_twice|].
  split; [apply v1_footer_twice | apply v2_footer_twice].
Qed.

(** X4.  Every issue reference that the first script writes into a footer is a
    run of digits that stands after a hash sign in the text it was given:
    the footer it builds is either the text itself or one line
    [Soluciona: #<digits>] for each such run. *)
Theorem issue_refs_come_from_the_text (footer : str) :
  Forall (fun ref => ref <> []
                     /\ forallb isdecimal ref = true
                     /\ contains (lit "#" ++ ref) footer = true)
         (findall_issue footer)
  /\ (V1.format_footer footer = footer
      \/ V1.format_footer footer
         = join (lit nl)
             (map (fun ref => lit "Soluciona: #" ++ ref)
                  (findall_issue footer))).
Proof.
  split.
  - unfold findall_issue.
    pose proof (findall_issue_go_digits footer 0) as Hd.
    pose proof (findall_issue_go_occurs footer 0) as Ho.
    induction (findall_issue_go 0 footer) as [|r rs IH]; constructor.
    + inversion Hd; inversion Ho; subst. tauto.
    + inversion Hd; inversion Ho; subst. now apply IH.
  - rewrite Formatter.v1_format_footer_cases.
    destruct (contains (lit "Soluciona") footer
              || contains (lit "Closes") footer); [now left|].
    destruct (findall_issue footer); [now left | now right].
Qed.

Lemma bar_replaced (s : str) :
  replace (lit "|") (lit nl) s
  = map (fun x => if (x =? chr "|")%N then 10%N else x) s.
Proof.
  unfold replace. change (lit "|") with [chr "|"].
  rewrite replace_go_char.
  induction s as [|x s IH]; [reflexivity|]. cbn [flat_map map].
  rewrite IH, (N.eqb_sym (chr "|") x). now destruct (x =? chr "|")%N.
Qed.

(** X5.  The helpers that ask for a breaking text and for a footer read
    one line and trim it: a blank line gives the empty text, any other the
    text after [BREAKING CHANGE: ] and [Closes: ]; at the end of the input
    they raise [EOFError].  The helpers of the two scripts are the same.
    What they return passes the formatter of the first script unchanged;
    the formatter of the second script leaves the footer alone and puts a
    second marker before the breaking text. *)
Theorem asked_sections_format
    (w : world) (commit_type scope subject : str) :
  match stdin w with
  | [] =>
      V1Tools.get_commit_breaking w = (Raise EOFError, w)
      /\ V1Tools.get_commit_footer w = (Raise EOFError, w)
  | line :: rest =>
      let breaking :=
        if truthy (strip line) then lit "BREAKING CHANGE: " ++ strip line
        else [] in
      let footer :=
        if truthy (strip line) then lit "Closes: " ++ strip line else [] in
      V1Tools.get_commit_breaking w = (Ret breaking, left_to_read rest w)
      /\ V1Tools.get_commit_footer w = (Ret footer, left_to_read rest w)
      /\ V1.format_breaking breaking = breaking
      /\ V1.format_footer footer = footer
      /\ V1.message_parts commit_type scope subject [] breaking footer
         = [V1.format_header commit_type scope (V1.format_subject subject)]
           ++ (if truthy (strip line) then [[]; breaking; footer] else [])
      /\ V2.message_parts commit_type scope subject [] breaking footer
         = [V2.format_header commit_type scope (V2.format_subject subject)]
           ++ (if truthy (strip line)
               then [[];
                     lit "BREAKING CHANGE: BREAKING CHANGE: " ++ strip line;
                     footer]
               else [])
  end
  /\ V2Tools.get_commit_breaking w = V1Tools.get_commit_breaking w
  /\ V2Tools.get_commit_footer w = V1Tools.get_commit_footer w.
Proof.
  split; [|split; reflexivity].
  unfold V1Tools.get_commit_breaking, V1Tools.get_commit_footer.
  rewrite !LoopFacts.bind_input_cases.
  destruct (stdin w) as [|line rest]; [split; reflexivity|].
  cbv zeta. split; [reflexivity|]. split; [reflexivity|].
  destruct (truthy (strip line)) eqn:E.
  - assert (Hf2 : V2.format_footer (lit "Closes: " ++ strip line)
                  = lit "Closes: " ++ strip line).
    { apply v2_footer_fixed. right.
      change (lit "Closes: " ++ strip line)
        with (lit "Closes:" ++ (lit " " ++ strip line)).
      apply startswith_app. }
    assert (Hb1 : V1.format_breaking (lit "BREAKING CHANGE: " ++ strip line)
                  = lit "BREAKING CHANGE: " ++ strip line)
      by apply v1_breaking_fixed, startswith_app.
    assert (Hf1 : V1.format_footer (lit "Closes: " ++ strip line)
                  = lit "Closes: " ++ strip line).
    { apply v1_footer_fixed. right. apply Formatter.startswith_contains.
      change (lit "Closes: " ++ strip line)
        with (lit "Closes" ++ (lit ": " ++ strip line)).
      apply startswith_app. }
    split; [exact Hb1|]. split; [exact Hf1|].
    split.
    + unfold V1.message_parts. rewrite Hb1, Hf1. reflexivity.
    + unfold V2.message_parts. rewrite Hf2. reflexivity.
  - repeat split; reflexivity.
Qed.

(** X6.  Both scripts build the same header from the same answer to the scope
    question: the second script has the helper add the parentheses that
    the first one has the formatter add. *)
Theorem asked_scope_header (w : world) (commit_type subject : str) :
  match fst (V1Tools.get_commit_scope w), fst (V2Tools.get_commit_scope w) with
  | Ret scope1, Ret scope2 =>
      V2.format_header commit_type scope2 subject
      = V1.format_header commit_type scope1 subject
      /\ V2.assemble_header commit_type scope1 subject
         = V1.format_header commit_type scope1 subject
  | Raise e1, Raise e2 => e1 = EOFError /\ e2 = EOFError /\ stdin w = []
  | _, _ => False
  end.
Proof.
  unfold V1Tools.get_commit_scope, V2Tools.get_commit_scope.
  rewrite !LoopFacts.bind_input_cases.
  destruct (stdin w) as [|line rest]; [now repeat split|].
  cbn [fst mret M_ret].
  unfold V2.format_header, V1.format_header, V2.assemble_header.
  destruct (truthy (strip line)) eqn:E; rewrite ?E; cbn [truthy];
    rewrite <- ?app_assoc; split; reflexivity.
Qed.

(** X7.  The body helper returns the trimmed line with every bar turned into a
    line feed and nothing else changed. *)
Theorem asked_body_bars (w : world) :
  match fst (V1Tools.get_commit_body w) with
  | Ret body =>
      exists line rest,
        stdin w = line :: rest
        /\ body = map (fun x => if (x =? chr "|")%N then 10%N else x)
                      (strip line)
        /\ length body = length (strip line)
        /\ ~ In (chr "|") body
  | Raise e => e = EOFError /\ stdin w = []
  | Beyond | OutOfFuel => False
  end
  /\ V2Tools.get_commit_body w = V1Tools.get_commit_body w.
Proof.
  split; [|reflexivity].
  unfold V1Tools.get_commit_body. rewrite LoopFacts.bind_input_cases.
  destruct (stdin w) as [|line rest]; [now split|].
  cbn [fst mret M_ret]. exists line, rest.
  rewrite bar_replaced. split; [reflexivity|]. split; [reflexivity|].
  split; [apply length_map|].
  intros Hin. apply in_map_iff in Hin as (x & Hx & _).
  destruct (x =? chr "|")%N eqn:E; [discriminate|].
  apply N.eqb_neq in E. congruence.
Qed.

End Facts.
End Layout.

(** ** Whole runs of the review loops *)

Module Runs.
Import Py Json Sys Text Samples Observe PyFacts JsonFacts LoopFacts.

#[local] Arguments lit : simpl never.
#[local] Arguments str_eqb : simpl never.
#[local] Arguments strip : simpl never.
#[local] Arguments upper : simpl never.
#[local] Arguments replace : simpl never.

Section Facts.
Context `{RT : PyRuntime}.

Lemma v1_pass_eof (api_key diff commit_type scope lang : str)
    (st : V1.review) (w : world) :
  stdin w = [] ->
  V1.review_pass api_key diff commit_type scope lang st w
  = (Raise EOFError, log (Printed (V1.formatted_message st)) w).
Proof.
  intros H. unfold V1.review_pass.
  rewrite bind_emit, bind_input_cases. cbn [stdin log]. now rewrite H.
Qed.

Lemma chose_not_accept (line : str) :
  chose line "A" || chose line "C" = false -> chose line "A" = false.
Proof. now intros H%orb_false_iff. Qed.

(** Running straight-line code of the monad. *)
Ltac run_m :=
  cbv beta iota zeta
      delta [mbind M_bind mret M_ret emit subprocess_run subprocess_check
             raise try_except try_except_called input lift_option
             V2.print_commands];
  cbn [fst snd stdin net net_calls procs proc_calls trace
       log spawned left_to_read requested truthy negb].

Ltac none_made :=
  exists []; rewrite ?app_nil_r;
  split; [reflexivity | split; [simpl; lia | congruence]].

(** The first loop, run on any amount of fuel: it asks the generator at
    most once per line of input, and commits at most once, as its last
    act. *)
Lemma v1_loop_counts (api_key diff commit_type scope lang : str) (fuel : nat) :
  truthy diff = true ->
  forall (st : V1.review) (w : world),
    let r := V1.review_loop fuel api_key diff commit_type scope lang st w in
    posts (trace (snd r)) <= posts (trace w) + length (stdin w)
    /\ exists made,
         commits (trace (snd r)) = commits (trace w) ++ made
         /\ length made <= 1
         /\ (made <> [] -> fst r = Ret tt).
Proof.
  intros Hd. induction fuel as [|fuel IH]; intros st w; cbv zeta.
  { cbn. split; [lia | none_made]. }
  cbn [V1.review_loop]. rewrite bind_eq.
  destruct (stdin w) as [|line rest] eqn:Hin.
  { rewrite v1_pass_eof by exact Hin. cbn [fst snd trace log].
    rewrite posts_app, commits_app. cbn. split; [lia | none_made]. }
  pose proof (v1_pass api_key diff commit_type scope lang st w line rest
                Hd Hin) as (_ & Hc & Hp & Hr).
  pose proof (v1_pass_progress api_key diff commit_type scope lang st w Hd)
    as Hprog.
  destruct (V1.review_pass api_key diff commit_type scope lang st w)
    as [[[st'|]|e| |] w1]; cbn [fst snd] in Hc, Hp, Hr, Hprog |- *;
    try contradiction.
  - destruct Hr as [Hr _]. apply chose_not_accept in Hr.
    rewrite Hr, app_nil_r in Hc. rewrite Hin in Hprog. cbn [length] in Hprog.
    specialize (IH st' w1). cbv zeta in IH.
    destruct IH as (IHp & made & IHc & IHl & IHr).
    split.
    + cbn [length]. destruct (negb (chose line "A") && chose line "R"); lia.
    + exists made. rewrite IHc, Hc. auto.
  - split; [destruct (negb (chose line "A") && chose line "R"); simpl; lia|].
    eexists. split; [exact Hc|].
    destruct (chose line "A"); simpl; split; auto.
  - destruct Hr as (_ & Hr & _).
    apply orb_false_iff in Hr as [Hr _]. apply orb_false_iff in Hr as [Hr _].
    rewrite Hr, app_nil_r in Hc.
    split; [destruct (negb (chose line "A") && chose line "R"); simpl; lia|].
    rewrite Hc. none_made.
Qed.

Lemma v2_pass_beyond (api_key diff lang : str) (st : V2.drafts) (w : world) :
  fst (V2.generate_commit_message api_key diff lang
         (log (Notice lang Generating) w)) = Beyond ->
  V2.review_pass api_key diff lang st w
  = (Beyond,
     snd (V2.generate_commit_message api_key diff lang
            (log (Notice lang Generating) w))).
Proof.
  intros H. unfold V2.review_pass. rewrite bind_emit, bind_eq.
  destruct (V2.generate_commit_message api_key diff lang
              (log (Notice lang Generating) w)) as [o w1].
  cbn [fst snd] in H |- *. now subst o.
Qed.

Lemma commits_generated (lang : str) (tr tail : list event) :
  commits tail = [] ->
  commits ((tr ++ [Notice lang Generating]) ++ Posted :: tail) = commits tr.
Proof.
  intros H. rewrite !commits_app. cbn [commits]. rewrite H.
  now rewrite !app_nil_r.
Qed.

Lemma posts_generated (lang : str) (tr tail : list event) :
  posts tail = 0 ->
  posts ((tr ++ [Notice lang Generating]) ++ Posted :: tail) = posts tr + 1.
Proof.
  intros H. rewrite !posts_app, !posts_cons, H. change (posts []) with 0. lia.
Qed.

(** A pass of the second loop at the end of the input. *)
Lemma v2_pass_eof (api_key diff lang : str) (st : V2.drafts) (w : world) :
  truthy diff = true ->
  coherent st ->
  stdin w = [] ->
  let r := V2.review_pass api_key diff lang st w in
  posts (trace (snd r)) = posts (trace w) + 1
  /\ commits (trace (snd r)) = commits (trace w)
  /\ match fst r with
     | Ret (Again _) | OutOfFuel => False
     | _ => True
     end.
Proof.
  intros Hd Hst Hin. cbv zeta.
  unfold V2.review_pass. rewrite bind_emit, bind_eq.
  destruct (v2_generate_shape api_key diff lang
              (log (Notice lang Generating) w) Hd)
    as (tail & Hw & Hc & Hp & Hg).
  destruct (V2.generate_commit_message api_key diff lang
              (log (Notice lang Generating) w)) as [[d|e| |] w1];
    cbn [fst snd] in Hw, Hg |- *; try contradiction; subst w1.
  2:{ cbn [trace log]. rewrite commits_generated, posts_generated; auto. }
  destruct (negb (V2.dict_truthy d)
            || negb (truthy (V2.get d (lit "subject")))).
  { rewrite bind_emit. unfold mret, M_ret. cbn [fst snd trace log].
    rewrite posts_app, commits_app, commits_generated, posts_generated
      by assumption.
    cbn. rewrite app_nil_r. split; [lia | auto]. }
  destruct (record_draft_current st d Hst Hg) as [Hcur _].
  rewrite Hcur. unfold lift_option. rewrite bind_ret, bind_eq.
  match goal with |- context [V2.show_draft d ?w0] =>
    destruct (show_draft_shape d w0 Hg) as (shown & -> & Hsc & Hsp)
  end.
  rewrite bind_input_cases. cbn [stdin log]. rewrite Hin.
  cbn [fst snd trace log].
  rewrite posts_app, commits_app, commits_generated, posts_generated
    by assumption.
  rewrite posts_cons. cbn [commits]. rewrite Hsc, Hsp, app_nil_r.
  split; [lia | auto].
Qed.

(** What one pass of the second loop adds up to, whatever is left of the
    input: one request, at most one commit, and a pass that comes back to
    the top has made none and has read a line. *)
Lemma v2_pass_counts (api_key diff lang : str) (st : V2.drafts) (w : world) :
  truthy diff = true ->
  coherent st ->
  let r := V2.review_pass api_key diff lang st w in
  posts (trace (snd r)) = posts (trace w) + 1
  /\ exists made,
       commits (trace (snd r)) = commits (trace w) ++ made
       /\ length made <= 1
       /\ match fst r with
          | Ret (Again st') =>
              made = [] /\ coherent st'
              /\ length (stdin (snd r)) < length (stdin w)
          | Ret Leave => True
          | Raise _ | Beyond => made = []
          | OutOfFuel => False
          end.
Proof.
  intros Hd Hst. cbv zeta.
  destruct (stdin w) as [|line rest] eqn:Hin.
  { destruct (v2_pass_eof api_key diff lang st w Hd Hst Hin)
      as (Hp & Hc & Hr).
    split; [exact Hp|]. exists []. rewrite app_nil_r.
    split; [exact Hc|]. split; [simpl; lia|].
    destruct (fst (V2.review_pass api_key diff lang st w)) as [[?|]|?| |];
      try contradiction; auto. }
  pose proof (v2_pass api_key diff lang st w line rest Hd Hin Hst) as Hpass.
  cbv zeta in Hpass. destruct Hpass as [Hp Hg]. split; [exact Hp|].
  pose proof (v2_pass_beyond api_key diff lang st w) as Hb.
  destruct (v2_generate_shape api_key diff lang
              (log (Notice lang Generating) w) Hd)
    as (tail & Hw & Hc & _ & _).
  destruct (V2.generate_commit_message api_key diff lang
              (log (Notice lang Generating) w)) as [[d|e| |] w1];
    cbn [fst snd] in Hg, Hb, Hw; try contradiction.
  - destruct Hg as (Hcm & _ & Hr).
    destruct (V2.review_pass api_key diff lang st w)
      as [[[st'|]|e| |] w2]; cbn [fst snd] in Hcm, Hr |- *;
      try contradiction.
    + destruct Hr as (_ & Hr & Hco & Hlen).
      apply chose_not_accept in Hr. rewrite Hr, andb_false_r in Hcm.
      rewrite Hin in Hlen. rewrite app_nil_r in Hcm.
      exists []. rewrite app_nil_r.
      split; [exact Hcm | split; [simpl; lia |]].
      split; [reflexivity | split; [exact Hco | exact Hlen]].
    + eexists. split; [exact Hcm|].
      destruct (usable d && chose line "A"); simpl; split; auto.
    + destruct Hr as (_ & Hr).
      apply orb_false_iff in Hr as [Hr _]. apply orb_false_iff in Hr as [Hr _].
      rewrite Hr, andb_false_r, app_nil_r in Hcm. exists [].
      rewrite app_nil_r. split; [exact Hcm | split; [simpl; lia | reflexivity]].
  - rewrite (Hb eq_refl). cbn [fst snd]. subst w1. cbn [trace log].
    rewrite commits_generated by exact Hc.
    exists []. rewrite app_nil_r.
    split; [reflexivity | split; [simpl; lia | reflexivity]].
Qed.

Lemma v2_loop_counts (api_key diff lang : str) (fuel : nat) :
  truthy diff = true ->
  forall (st : V2.drafts) (w : world),
    coherent st ->
    let r := V2.review_loop fuel api_key diff lang st w in
    posts (trace (snd r)) <= posts (trace w) + length (stdin w) + 1
    /\ exists made,
         commits (trace (snd r)) = commits (trace w) ++ made
         /\ length made <= 1
         /\ (made <> [] -> fst r = Ret tt).
Proof.
  intros Hd. induction fuel as [|fuel IH]; intros st w Hst; cbv zeta.
  { cbn. split; [lia | none_made]. }
  cbn [V2.review_loop]. rewrite bind_eq.
  pose proof (v2_pass_counts api_key diff lang st w Hd Hst) as Hpass.
  cbv zeta in Hpass. destruct Hpass as (Hp & made & Hc & Hl & Hr).
  destruct (V2.review_pass api_key diff lang st w)
    as [[[st'|]|e| |] w1]; cbn [fst snd] in Hp, Hc, Hr |- *;
    try contradiction.
  - destruct Hr as (-> & Hco & Hlen). rewrite app_nil_r in Hc.
    specialize (IH st' w1 Hco). cbv zeta in IH.
    destruct IH as (IHp & made & IHc & IHl & IHr).
    split; [lia|]. exists made. rewrite IHc, Hc. auto.
  - unfold mret, M_ret. cbn [fst snd]. split; [lia|]. exists made. auto.
  - subst made. split; [lia|]. rewrite Hc. none_made.
  - subst made. split; [lia|]. rewrite Hc. none_made.
Qed.

Lemma v2_get_git_diff_trace (w : world) :
  exists report,
    trace (snd (V2.get_git_diff w))
    = trace w ++ Ran [lit "git"; lit "diff"; lit "--staged"] :: report
    /\ commits report = [] /\ posts report = 0 /\ runs report = []
    /\ (procs w (proc_calls w) = ExitNonZero -> fst (V2.get_git_diff w) = Ret [])
    /\ (forall out, procs w (proc_calls w) = Exit0 out ->
                    fst (V2.get_git_diff w) = Ret (strip out) /\ report = []).
Proof.
  unfold V2.get_git_diff, try_except_called, subprocess_check.
  rewrite !bind_eq. unfold subprocess_run.
  destruct (procs w (proc_calls w)) as [out|].
  - exists []. cbn. repeat split; try discriminate; congruence.
  - exists [Notice (lit "en") ErrorGettingDiff]. cbn.
    rewrite bind_emit. cbn. rewrite <- app_assoc.
    repeat split; try discriminate.
Qed.

Lemma fields_of_members_none (ms : list (str * json))
    (acc : option (gmap str str)) :
  fold_left
    (fun acc kv =>
       match acc, snd kv with
       | Some d, JStr s => Some (<[fst kv := s]> d)
       | _, _ => None
       end) ms acc = None
  <-> acc = None \/ forallb (fun kv => is_string (snd kv)) ms = false.
Proof.
  revert acc. induction ms as [|[k v] ms IH]; intros acc; cbn [fold_left].
  - split; [auto | intros [H|H]; [exact H | discriminate]].
  - rewrite IH. cbn [forallb snd fst].
    destruct acc as [d|]; destruct v; cbn [is_string andb];
      split; intros [H|H]; auto; discriminate.
Qed.

Lemma parse_response_beyond (content : str) (w : world) :
  fst (V2.parse_response content w) = Beyond <-> odd_reply content = true.
Proof.
  unfold V2.parse_response, odd_reply, json_part. cbv zeta.
  destruct (find_char _ _) as [json_start|];
    [|split; discriminate].
  destruct (rfind_char _ _) as [json_end|];
    [|split; discriminate].
  destruct (json_loads _) as [[| | | | | |members] rest| |];
    try (split; discriminate).
  unfold V2.fields_of_members.
  pose proof (fields_of_members_none members (Some ∅)) as H.
  destruct (fold_left _ members (Some ∅)) as [d|].
  - split; [discriminate|]. intros Ho.
    apply negb_true_iff in Ho.
    destruct H as [_ H]. discriminate (H (or_intror Ho)).
  - split; [|reflexivity]. intros _.
    destruct H as [H _]. destruct (H eq_refl) as [H1|H1]; [discriminate|].
    now rewrite H1.
Qed.

(** X8.  The generator of the second script, for every diff, language and
    fate of the request: it ends after at most one request, without a
    commit or a line read, and without a request at all when there is no
    diff; nothing is raised.  It returns a dictionary that has the six
    keys the review loop reads, except for one kind of reply that the model
    does not follow: a reply whose text between its first opening and its
    last closing brace decodes to a JSON object with a member that is not
    a string.  The outcome is outside the model for exactly those
    replies. *)
Theorem generator_always_answers (api_key diff lang : str) (w : world) :
  let r := V2.generate_commit_message api_key diff lang w in
  (fst r = Beyond
   <-> truthy diff = true
       /\ exists content,
            net w (net_calls w) = Content content
            /\ odd_reply content = true)
  /\ match fst r with
     | Ret d => has_fields d
     | Beyond => True
     | Raise _ | OutOfFuel => False
     end
  /\ posts (trace (snd r))
     = posts (trace w) + (if truthy diff then 1 else 0)
  /\ commits (trace (snd r)) = commits (trace w)
  /\ stdin (snd r) = stdin w
  /\ (truthy diff = false -> snd r = w).
Proof.
  cbv zeta. destruct (truthy diff) eqn:Hd.
  - destruct (v2_generate_shape api_key diff lang w Hd)
      as (tail & Hw & Hc & Hp & Hg).
    rewrite Hw. cbn [trace stdin].
    rewrite posts_app, commits_app, posts_cons. cbn [commits].
    rewrite Hc, Hp, app_nil_r.
    split; [|split; [exact Hg |
                     split; [lia | split; [reflexivity |
                                           split; [reflexivity |]]]]];
      [|discriminate].
    unfold V2.generate_commit_message. rewrite Hd.
    cbn [negb]. unfold try_except. rewrite bind_eq. unfold post_content.
    destruct (net w (net_calls w)) as [|status| |content] eqn:Hnet;
      cbn [is_exception].
    1-3: rewrite bind_emit; unfold mret, M_ret; cbn [fst];
         split; [discriminate | intros (_ & c & Hc' & _); discriminate].
    pose proof (parse_response_beyond content (requested w)) as Hb.
    destruct (parse_response_shape content (requested w)) as [_ Hs].
    destruct (V2.parse_response content (requested w)) as [[d|e| |] w1];
      cbn [fst snd] in Hb, Hs |- *.
    + split; [discriminate|].
      intros (_ & c & Hc' & Ho). injection Hc' as <-.
      apply Hb in Ho. discriminate.
    + subst e. cbn [is_exception]. rewrite bind_emit.
      unfold mret, M_ret. cbn [fst].
      split; [discriminate|].
      intros (_ & c & Hc' & Ho). injection Hc' as <-.
      apply Hb in Ho. discriminate.
    + split; [|reflexivity]. intros _. split; [reflexivity|].
      exists content. split; [reflexivity | now apply Hb].
    + contradiction.
  - unfold V2.generate_commit_message. rewrite Hd. cbn [negb].
    unfold mret, M_ret. cbn [fst snd].
    split; [split; [discriminate | intros [H _]; discriminate]|].
    split; [apply six_fields_has|].
    split; [lia | split; [reflexivity | split; [reflexivity | reflexivity]]].
Qed.

(** X9.  A run of [create_new_commit] of the first script, from the first
    generation on, ends; it asks the generator at most once more than
    there are lines of input, and it runs [git commit] at most once, as
    the last thing it does. *)
Theorem v1_run_bounds
    (api_key diff commit_type scope lang : str) (w : world) :
  truthy diff = true ->
  let r := V1.create_new_commit_from api_key diff commit_type scope lang w in
  settled (fst r)
  /\ posts (trace (snd r)) <= posts (trace w) + length (stdin w) + 1
  /\ exists made,
       commits (trace (snd r)) = commits (trace w) ++ made
       /\ length made <= 1
       /\ (made <> [] -> fst r = Ret tt).
Proof.
  intros Hd. cbv zeta.
  split; [apply v1_create_total; exact Hd|].
  unfold V1.create_new_commit_from. rewrite bind_emit, bind_eq.
  match goal with |- context [V1.generate_commit_message _ _ _ _ _ ?w0] =>
    destruct (v1_generate_shape api_key diff commit_type scope lang w0 Hd)
      as (message & tail & -> & Hc & Hp)
  end.
  cbn [trace log stdin].
  assert (Hc1 : commits ((trace w ++ [Notice lang Generating])
                         ++ Posted :: tail) = commits (trace w))
    by (apply commits_generated; exact Hc).
  assert (Hp1 : posts ((trace w ++ [Notice lang Generating])
                       ++ Posted :: tail) = posts (trace w) + 1)
    by (apply posts_generated; exact Hp).
  destruct (truthy message); cbn [negb].
  - cbv beta. cbn [stdin].
    match goal with |- context [V1.review_loop ?f _ _ _ _ _ ?st ?w0] =>
      pose proof (v1_loop_counts api_key diff commit_type scope lang f Hd
                    st w0) as Hloop
    end.
    cbv zeta in Hloop. cbn [trace stdin] in Hloop.
    rewrite Hc1, Hp1 in Hloop. destruct Hloop as [Hposts Hmade].
    split; [lia | exact Hmade].
  - unfold emit. cbn [fst snd trace log].
    rewrite posts_app, commits_app, Hc1, Hp1. cbn.
    split; [lia | none_made].
Qed.

Lemma stage_all_counts (lang : str) (w : world) :
  commits (trace (snd (V2.stage_changes None true lang w)))
  = commits (trace w)
  /\ posts (trace (snd (V2.stage_changes None true lang w)))
     = posts (trace w)
  /\ runs (trace (snd (V2.stage_changes None true lang w)))
     = runs (trace w) ++ [[lit "git"; lit "add"; lit "."]].
Proof.
  destruct (stage_all_shape lang w) as (_ & _ & ->).
  rewrite commits_app, posts_app. cbn.
  rewrite app_nil_r. split; [reflexivity|]. split; [lia|].
  induction (trace w) as [|e tr IH]; [reflexivity|].
  destruct e; cbn [runs app]; now rewrite IH.
Qed.

Lemma runs_app (a b : list event) : runs (a ++ b) = runs a ++ runs b.
Proof.
  induction a as [|e a IH]; [reflexivity|].
  destruct e; cbn [runs app]; now rewrite IH.
Qed.

(** X10.  A run of [create_new_commit] of the second script ends; it asks
    the generator at most once more than there are lines of input, and it
    runs [git commit] at most once, as the last thing it does. *)
Theorem v2_run_bounds (api_key lang : str) (w : world) :
  let r := V2.create_new_commit api_key lang w in
  in_time (fst r)
  /\ posts (trace (snd r)) <= posts (trace w) + length (stdin w) + 1
  /\ exists made,
       commits (trace (snd r)) = commits (trace w) ++ made
       /\ length made <= 1
       /\ (made <> [] -> fst r = Ret tt).
Proof.
  cbv zeta. split; [apply v2_create_total|].
  unfold V2.create_new_commit. rewrite bind_eq.
  destruct (stage_all_shape lang w) as (Hs1 & Hs2 & _).
  destruct (stage_all_counts lang w) as (Hsc & Hsp & Hsr).
  destruct (V2.stage_changes None true lang w) as [o w1].
  cbn [fst snd] in Hs1, Hs2, Hsc, Hsp, Hsr. subst o. rewrite bind_eq.
  destruct (get_git_diff_shape w1) as (diff & Hg1 & Hg2).
  destruct (v2_get_git_diff_trace w1) as (report & Hgt & Hgc & Hgp & Hgr & _).
  destruct (V2.get_git_diff w1) as [o w2].
  cbn [fst snd] in Hg1, Hg2, Hgt. subst o.
  assert (Hc2 : commits (trace w2) = commits (trace w)).
  { rewrite Hgt, commits_app. cbn [commits]. now rewrite Hgc, app_nil_r. }
  assert (Hp2 : posts (trace w2) = posts (trace w)).
  { rewrite Hgt, posts_app, posts_cons, Hgp. lia. }
  destruct (truthy diff) eqn:Hd; cbn [negb].
  - cbv beta.
    match goal with |- context [V2.review_loop ?f _ _ _ ?st ?w0] =>
      assert (Hst : coherent st)
        by (split; [left; split; reflexivity | constructor]);
      pose proof (v2_loop_counts api_key diff lang f Hd st w0 Hst) as Hloop
    end.
    cbv zeta in Hloop. rewrite Hc2, Hp2 in Hloop.
    rewrite Hg2, Hs2 in Hloop |- *. exact Hloop.
  - unfold emit. cbn [fst snd trace log].
    rewrite posts_app, commits_app, Hc2, Hp2. cbn.
    split; [lia | none_made].
Qed.

(** X11.  With nothing staged after [git add .] (the diff is empty, or
    [git diff] fails) the second script stops at once: it has run those
    two commands and nothing else, asked the generator nothing, read
    nothing, and its last word is that there are no changes. *)
Theorem nothing_staged_nothing_asked (api_key lang : str) (w : world) :
  (procs w (S (proc_calls w)) = ExitNonZero
   \/ exists out, procs w (S (proc_calls w)) = Exit0 out /\ strip out = []) ->
  let r := V2.create_new_commit api_key lang w in
  fst r = Ret tt
  /\ stdin (snd r) = stdin w
  /\ posts (trace (snd r)) = posts (trace w)
  /\ commits (trace (snd r)) = commits (trace w)
  /\ runs (trace (snd r))
     = runs (trace w)
       ++ [[lit "git"; lit "add"; lit "."];
           [lit "git"; lit "diff"; lit "--staged"]]
  /\ exists before, trace (snd r) = before ++ [Notice lang NoChanges].
Proof.
  intros H. cbv zeta.
  unfold V2.create_new_commit, V2.stage_changes, V2.get_git_diff.
  run_m.
  destruct H as [H | (out & H & Hout)]; rewrite H; run_m;
    rewrite ?Hout; run_m;
    rewrite !posts_app, !commits_app, !runs_app; cbn;
    rewrite !app_nil_r, <- !app_assoc;
    (split; [reflexivity|]); (split; [reflexivity|]); (split; [lia|]);
    (split; [reflexivity|]); (split; [reflexivity|]); eexists;
    rewrite !app_assoc; reflexivity.
Qed.

(** X12.  When [git commit] fails after the message has been accepted, the
    first script still reports that the commit was created, after the
    error line of [run_git_command]; the second script reports the error
    and no success.  Both leave the loop. *)
Theorem accepted_but_git_fails
    (api_key diff commit_type scope lang : str)
    (st1 : V1.review) (st2 : V2.drafts) (d : gmap str str)
    (w : world) (line : str) (rest : list str) :
  truthy diff = true ->
  stdin w = line :: rest ->
  chose line "A" = true ->
  procs w (proc_calls w) = ExitNonZero ->
  coherent st2 ->
  fst (V2.generate_commit_message api_key diff lang
         (log (Notice lang Generating) w)) = Ret d ->
  usable d = true ->
  V1.review_pass api_key diff commit_type scope lang st1 w
  = (Ret Leave,
     {| stdin := rest; net := net w; net_calls := net_calls w;
        procs := procs w; proc_calls := S (proc_calls w);
        trace :=
          trace w
          ++ [Printed (V1.formatted_message st1);
              Ran (V1.git_commit_argv (V1.formatted_message st1));
              Notice (lit "es")
                (GitCommandFailed
                   (V1.git_commit_argv (V1.formatted_message st1)));
              Tracked (lit "git commit -m " ++ [34%N]
                       ++ V1.formatted_message st1 ++ [34%N])
                      (lit "Create new commit / Crear nuevo commit");
              Notice lang CommitCreated] |})
  /\ fst (V2.review_pass api_key diff lang st2 w) = Ret Leave
  /\ exists before,
       trace (snd (V2.review_pass api_key diff lang st2 w))
       = before
         ++ [Ran (V2.git_commit_argv (message_of d));
             Notice lang (ErrorCreatingCommit CalledProcessError)].
Proof.
  intros Hd Hin HA Hproc Hst Hg Hu. unfold chose in HA. split.
  - unfold V1.review_pass. cbv zeta.
    rewrite bind_emit, (bind_input _ _ line rest) by exact Hin.
    rewrite HA. unfold try_except, V1.track_command.
    rewrite bind_eq, run_git_command_eq.
    cbn [procs proc_calls log left_to_read]. rewrite Hproc.
    rewrite !bind_emit. unfold mret, M_ret.
    unfold log, spawned, left_to_read.
    cbn [stdin net net_calls procs proc_calls trace].
    rewrite <- !app_assoc. reflexivity.
  - unfold V2.review_pass. rewrite bind_emit, bind_eq.
    destruct (v2_generate_shape api_key diff lang
                (log (Notice lang Generating) w) Hd)
      as (tail & Hw & _ & _ & Hf).
    destruct (V2.generate_commit_message api_key diff lang
                (log (Notice lang Generating) w)) as [o w1].
    cbn [fst snd] in Hw, Hg, Hf. subst o w1.
    unfold usable in Hu. apply andb_true_iff in Hu as [Hu1 Hu2].
    rewrite Hu1, Hu2. cbn [negb orb]. cbv zeta.
    destruct (record_draft_current st2 d Hst Hf) as [Hcur _].
    rewrite Hcur. unfold lift_option. rewrite bind_ret, bind_eq.
    match goal with |- context [V2.show_draft d ?w0] =>
      destruct (show_draft_shape d w0 Hf) as (shown & -> & _ & _)
    end.
    rewrite bind_input_cases.
    cbn [stdin log net net_calls procs proc_calls trace]. rewrite Hin, HA.
    rewrite accept_eq.
    cbn [procs proc_calls left_to_read log]. rewrite Hproc.
    cbn [fst snd trace log spawned left_to_read].
    split; [reflexivity|]. eexists. rewrite <- app_assoc. reflexivity.
Qed.

(** X13.  Recording a draft keeps the history linear: the drafts up to the
    current one stay, whatever came after it is dropped, and the new
    draft is appended and becomes the current one. *)
Theorem history_is_linear (st : V2.drafts) (d : gmap str str) :
  coherent st ->
  has_fields d ->
  V2.message_history (V2.record_draft st d)
  = firstn (Z.to_nat (V2.current_index st + 1)) (V2.message_history st)
    ++ [d]
  /\ V2.current_index (V2.record_draft st d)
     = (Z.of_nat (length (V2.message_history (V2.record_draft st d))) - 1)%Z
  /\ getitem (V2.message_history (V2.record_draft st d))
             (V2.current_index (V2.record_draft st d)) = Some d
  /\ coherent (V2.record_draft st d).
Proof.
  intros Hst Hd.
  destruct (record_draft_current st d Hst Hd) as [Hcur Hco].
  split; [|split; [|split; [exact Hcur | exact Hco]]].
  - destruct Hst as [[[Hneg Hnil] | Hrange] _]; unfold V2.record_draft.
    + apply Z.ltb_lt in Hneg. rewrite Hneg.
      cbn [V2.message_history]. rewrite Hnil. now rewrite firstn_nil.
    + destruct (V2.current_index st <? 0)%Z eqn:E;
        [apply Z.ltb_lt in E; lia|].
      cbn [V2.message_history].
      destruct (V2.current_index st
                <? Z.of_nat (length (V2.message_history st)) - 1)%Z eqn:E2;
        [reflexivity|].
      apply Z.ltb_ge in E2.
      rewrite firstn_all2; [reflexivity | lia].
  - unfold V2.record_draft.
    destruct (V2.current_index st <? 0)%Z eqn:E;
      cbn [V2.message_history V2.current_index]; [|reflexivity].
    destruct Hst as [[[_ Hnil] | Hrange] _];
      [now rewrite Hnil | apply Z.ltb_lt in E; lia].
Qed.

Lemma or_else_blank (a old : str) :
  strip a = [] -> V2.or_else (strip a) old = old.
Proof. intros ->. reflexivity. Qed.

(** X14.  An edit in which every question is answered with a blank line
    keeps the six fields of the current draft, and so its message; the
    edited draft is appended to the history and becomes the current one. *)
Theorem blank_edit_keeps_message
    (st : V2.drafts) (d : gmap str str) (w : world)
    (a1 a2 a3 a4 a5 a6 : str) (rest : list str) :
  getitem (V2.message_history st) (V2.current_index st) = Some d ->
  has_fields d ->
  stdin w = a1 :: a2 :: a3 :: a4 :: a5 :: a6 :: rest ->
  Forall (fun a => strip a = []) [a1; a2; a3; a4; a5; a6] ->
  exists st',
    fst (V2.edit_draft st w) = Ret st'
    /\ stdin (snd (V2.edit_draft st w)) = rest
    /\ getitem (V2.message_history st') (V2.current_index st')
       = Some (V2.six_fields (V2.get d (lit "type")) (V2.get d (lit "scope"))
                 (V2.get d (lit "subject")) (V2.get d (lit "body"))
                 (V2.get d (lit "breaking")) (V2.get d (lit "footer")))
    /\ message_of (V2.six_fields (V2.get d (lit "type"))
                     (V2.get d (lit "scope")) (V2.get d (lit "subject"))
                     (V2.get d (lit "body")) (V2.get d (lit "breaking"))
                     (V2.get d (lit "footer")))
       = message_of d.
Proof.
  intros Hget ([t Ht] & [sc Hsc] & [su Hsu] & [b Hb] & [br Hbr] & [ft Hft]).
  intros Hin Hblank.
  repeat match goal with
         | H : Forall _ (_ :: _) |- _ => apply Forall_cons in H as [? H]
         end.
  unfold V2.edit_draft. rewrite Hget. unfold lift_option.
  rewrite bind_ret, bind_emit.
  destruct w as [inp nt nc ps pc tr]. cbn [stdin] in Hin. subst inp.
  rewrite (bind_field _ _ _ _ _ Ht).
  rewrite bind_input_cases; cbn [stdin log left_to_read].
  rewrite (bind_field _ _ _ _ _ Hsc).
  rewrite bind_input_cases; cbn [stdin log left_to_read].
  rewrite (bind_field _ _ _ _ _ Hsu).
  rewrite bind_input_cases; cbn [stdin log left_to_read].
  rewrite (bind_field _ _ _ _ _ Hb).
  rewrite bind_input_cases; cbn [stdin log left_to_read].
  rewrite (bind_field _ _ _ _ _ Hbr).
  rewrite bind_input_cases; cbn [stdin log left_to_read].
  rewrite (bind_field _ _ _ _ _ Hft).
  rewrite bind_input_cases; cbn [stdin log left_to_read].
  cbv zeta. rewrite !or_else_blank by assumption.
  match goal with H : strip a4 = [] |- _ => rewrite H end.
  cbn [truthy]. unfold mret, M_ret. cbn [fst snd stdin left_to_read log].
  rewrite (get_some _ _ _ Ht), (get_some _ _ _ Hsc), (get_some _ _ _ Hsu),
    (get_some _ _ _ Hb), (get_some _ _ _ Hbr), (get_some _ _ _ Hft).
  eexists. split; [reflexivity|]. split; [reflexivity|].
  cbn [V2.message_history V2.current_index].
  split; [apply getitem_last|].
  unfold message_of.
  destruct (six_fields_lookup t sc su b br ft)
    as (L1 & L2 & L3 & L4 & L5 & L6).
  rewrite (get_some _ _ _ L1), (get_some _ _ _ L2), (get_some _ _ _ L3),
    (get_some _ _ _ L4), (get_some _ _ _ L5), (get_some _ _ _ L6).
  rewrite (get_some _ _ _ Ht), (get_some _ _ _ Hsc), (get_some _ _ _ Hsu),
    (get_some _ _ _ Hb), (get_some _ _ _ Hbr), (get_some _ _ _ Hft).
  reflexivity.
Qed.

End Facts.

(** *** The same on concrete inputs *)

Lemma v1_run_bounds_witness :
  truthy (lit "diff") = true
  /\ posts (trace (snd (V1.create_new_commit_from (lit "key") (lit "diff")
                          (lit "fix") [] (lit "en")
                          (stub_world [Content (lit "fix: x");
                                       Content (lit "fix: y")]
                                      [lit "r"; lit "a"]))))
     <= 0 + 2 + 1.
Proof.
  assert (H : truthy (lit "diff") = true) by reflexivity.
  split; [exact H|].
  exact (proj1 (proj2 (v1_run_bounds (lit "key") (lit "diff") (lit "fix") []
                         (lit "en")
                         (stub_world [Content (lit "fix: x");
                                      Content (lit "fix: y")]
                                     [lit "r"; lit "a"]) H))).
Defined.

Lemma nothing_staged_witness :
  procs (failing_git [] [lit "a"]) 1 = ExitNonZero
  /\ fst (V2.create_new_commit (lit "key") (lit "es")
            (failing_git [] [lit "a"])) = Ret tt
  /\ stdin (snd (V2.create_new_commit (lit "key") (lit "es")
                   (failing_git [] [lit "a"]))) = [lit "a"].
Proof.
  assert (H : procs (failing_git [] [lit "a"])
                    (S (proc_calls (failing_git [] [lit "a"])))
              = ExitNonZero) by reflexivity.
  split; [exact H|].
  pose proof (nothing_staged_nothing_asked (lit "key") (lit "es")
                (failing_git [] [lit "a"]) (or_introl H)) as T.
  split; [exact (proj1 T) | exact (proj1 (proj2 T))].
Defined.

Lemma accepted_but_git_fails_witness :
  truthy (lit "diff") = true
  /\ stdin (failing_git [Content canned_response] [lit "a"]) = [lit "a"]
  /\ chose (lit "a") "A" = true
  /\ procs (failing_git [Content canned_response] [lit "a"]) 0 = ExitNonZero
  /\ coherent {| V2.message_history := []; V2.current_index := (-1)%Z |}
  /\ fst (V2.generate_commit_message (lit "key") (lit "diff") (lit "es")
            (log (Notice (lit "es") Generating)
               (failing_git [Content canned_response] [lit "a"])))
     = Ret (V2.six_fields (lit "fix") (lit "core") (lit "Fix crash") [] [] [])
  /\ usable (V2.six_fields (lit "fix") (lit "core") (lit "Fix crash") [] [] [])
     = true
  /\ fst (V2.review_pass (lit "key") (lit "diff") (lit "es")
            {| V2.message_history := []; V2.current_index := (-1)%Z |}
            (failing_git [Content canned_response] [lit "a"]))
     = Ret Leave.
Proof.
  assert (H1 : truthy (lit "diff") = true) by reflexivity.
  assert (H2 : stdin (failing_git [Content canned_response] [lit "a"])
               = [lit "a"]) by reflexivity.
  assert (H3 : chose (lit "a") "A" = true) by (vm_compute; reflexivity).
  assert (H4 : procs (failing_git [Content canned_response] [lit "a"])
                     (proc_calls
                        (failing_git [Content canned_response] [lit "a"]))
               = ExitNonZero) by reflexivity.
  assert (H5 : coherent {| V2.message_history := [];
                           V2.current_index := (-1)%Z |}).
  { split; [left; split; [reflexivity | reflexivity] | constructor]. }
  assert (H6 : fst (V2.generate_commit_message (lit "key") (lit "diff")
                      (lit "es")
                      (log (Notice (lit "es") Generating)
                         (failing_git [Content canned_response] [lit "a"])))
               = Ret (V2.six_fields (lit "fix") (lit "core") (lit "Fix crash")
                        [] [] []))
    by (vm_compute; reflexivity).
  assert (H7 : usable (V2.six_fields (lit "fix") (lit "core")
                         (lit "Fix crash") [] [] []) = true)
    by (vm_compute; reflexivity).
  split; [exact H1|]. split; [exact H2|]. split; [exact H3|].
  split; [exact H4|]. split; [exact H5|]. split; [exact H6|].
  split; [exact H7|].
  exact (proj1 (proj2 (accepted_but_git_fails (lit "key") (lit "diff")
                         (lit "fix") [] (lit "es")
                         {| V1.formatted_message := lit "m";
                            V1.message_history := [lit "m"];
                            V1.current_index := 0 |}
                         _ _ _ _ _ H1 H2 H3 H4 H5 H6 H7))).
Defined.

Lemma history_is_linear_witness :
  coherent {| V2.message_history :=
                [V2.six_fields (lit "fix") [] (lit "A") [] [] [];
                 V2.six_fields (lit "fix") [] (lit "B") [] [] []];
              V2.current_index := 0 |}
  /\ has_fields (V2.six_fields (lit "fix") [] (lit "C") [] [] [])
  /\ V2.message_history
       (V2.record_draft
          {| V2.message_history :=
               [V2.six_fields (lit "fix") [] (lit "A") [] [] [];
                V2.six_fields (lit "fix") [] (lit "B") [] [] []];
             V2.current_index := 0 |}
          (V2.six_fields (lit "fix") [] (lit "C") [] [] []))
     = [V2.six_fields (lit "fix") [] (lit "A") [] [] [];
        V2.six_fields (lit "fix") [] (lit "C") [] [] []].
Proof.
  assert (H1 : coherent
                 {| V2.message_history :=
                      [V2.six_fields (lit "fix") [] (lit "A") [] [] [];
                       V2.six_fields (lit "fix") [] (lit "B") [] [] []];
                    V2.current_index := 0 |}).
  { split; [right; cbn; lia|].
    constructor; [apply LoopFacts.six_fields_has|].
    constructor; [apply LoopFacts.six_fields_has | constructor]. }
  assert (H2 : has_fields (V2.six_fields (lit "fix") [] (lit "C") [] [] []))
    by apply LoopFacts.six_fields_has.
  split; [exact H1|]. split; [exact H2|].
  exact (proj1 (history_is_linear _ _ H1 H2)).
Defined.

Lemma blank_edit_witness :
  getitem [V2.six_fields (lit "fix") (lit "core") (lit "Fix crash") [] [] []]
          0%Z
  = Some (V2.six_fields (lit "fix") (lit "core") (lit "Fix crash") [] [] [])
  /\ has_fields
       (V2.six_fields (lit "fix") (lit "core") (lit "Fix crash") [] [] [])
  /\ stdin (stub_world [] [[]; lit " "; []; []; []; []; lit "a"])
     = [[]; lit " "; []; []; []; []; lit "a"]
  /\ Forall (fun a => strip a = []) [[]; lit " "; []; []; []; []]
  /\ exists st',
       fst (V2.edit_draft
              {| V2.message_history :=
                   [V2.six_fields (lit "fix") (lit "core") (lit "Fix crash")
                      [] [] []];
                 V2.current_index := 0 |}
              (stub_world [] [[]; lit " "; []; []; []; []; lit "a"]))
       = Ret st'.
Proof.
  assert (H1 : getitem
                 [V2.six_fields (lit "fix") (lit "core") (lit "Fix crash")
                    [] [] []] 0%Z
               = Some (V2.six_fields (lit "fix") (lit "core")
                         (lit "Fix crash") [] [] [])) by reflexivity.
  assert (H2 : has_fields
                 (V2.six_fields (lit "fix") (lit "core") (lit "Fix crash")
                    [] [] [])) by apply LoopFacts.six_fields_has.
  assert (H3 : stdin (stub_world [] [[]; lit " "; []; []; []; []; lit "a"])
               = [[]; lit " "; []; []; []; []; lit "a"]) by reflexivity.
  assert (H4 : Forall (fun a => strip a = []) [[]; lit " "; []; []; []; []])
    by (repeat constructor).
  split; [exact H1|]. split; [exact H2|]. split; [exact H3|].
  split; [exact H4|].
  destruct (blank_edit_keeps_message
              {| V2.message_history :=
                   [V2.six_fields (lit "fix") (lit "core") (lit "Fix crash")
                      [] [] []];
                 V2.current_index := 0 |}
              _ (stub_world [] [[]; lit " "; []; []; []; []; lit "a"])
              _ _ _ _ _ _ _ H1 H2 H3 H4) as (st' & Hst & _).
  exists st'. exact Hst.
Defined.

End Runs.

(** ** The subcommands of the second script *)

Module Subcommands.
Import Py Sys Text Samples Observe PyFacts LoopFacts Runs.

#[local] Arguments lit : simpl never.
#[local] Arguments ulit : simpl never.
#[local] Arguments decimal : simpl never.
#[local] Arguments str_eqb : simpl never.
#[local] Arguments strip : simpl never.
#[local] Arguments lower : simpl never.

Section Facts.
Context `{RT : PyRuntime} `{CR : CliRuntime}.

(** Running straight-line code of the subcommands. *)
Ltac run_cli :=
  cbv beta iota zeta
      delta [mbind M_bind mret M_ret emit subprocess_run subprocess_check
             raise input V2Tools.say V2Tools.executed V2Tools.run_captured
             V2.print_commands];
  cbn [fst snd stdin net net_calls procs proc_calls trace
       log spawned left_to_read truthy negb].

Lemma runs_ran (f : str -> list str) (fs : list str) :
  runs (map (fun file => Ran (f file)) fs) = map f fs.
Proof. induction fs as [|x fs IH]; [reflexivity|]. cbn. now rewrite IH. Qed.

Lemma runs_printed (f : str -> str) (cs : list str) :
  runs (map (fun cmd => Printed (f cmd)) cs) = [].
Proof. induction cs; simpl; auto. Qed.

Lemma unstage_each_trace (fs : list str) (w : world) :
  fst (V2Tools.unstage_each fs w) = Ret tt
  /\ stdin (snd (V2Tools.unstage_each fs w)) = stdin w
  /\ trace (snd (V2Tools.unstage_each fs w))
     = trace w
       ++ map (fun file =>
                 Ran [lit "git"; lit "restore"; lit "--staged"; file]) fs.
Proof.
  revert w. induction fs as [|f fs IH]; intros w.
  - simpl. now rewrite app_nil_r.
  - cbn [V2Tools.unstage_each]. rewrite bind_eq. unfold subprocess_run.
    destruct (IH (spawned [lit "git"; lit "restore"; lit "--staged"; f] w))
      as (H1 & H2 & H3).
    rewrite H1, H2, H3. cbn [map trace stdin spawned].
    rewrite <- app_assoc. auto.
Qed.

Ltac case_procs :=
  repeat match goal with
         | |- context [match procs ?w ?n with _ => _ end] =>
             destruct (procs w n)
         end.

Ltac tally :=
  rewrite ?runs_app, ?posts_app, ?commits_app; cbn;
  rewrite ?app_nil_r, <- ?app_assoc.

Lemma stage_runs (files : list str) (all : bool) (lang : str) (w : world) :
  fst (V2Tools.main_chain (V2Tools.Stage files all) lang w) = Ret tt
  /\ stdin (snd (V2Tools.main_chain (V2Tools.Stage files all) lang w)) = stdin w
  /\ runs (trace (snd (V2Tools.main_chain (V2Tools.Stage files all) lang w)))
     = runs (trace w)
       ++ (if all || none files then [[lit "git"; lit "add"; lit "."]]
           else map (fun file => [lit "git"; lit "add"; file]) files).
Proof.
  unfold V2Tools.main_chain, V2.main_stage. cbn [V2.files V2.all].
  destruct files as [|f fs].
  - cbn [none bool_decide decide_rel negb]. rewrite !orb_true_r.
    destruct (stage_all_shape lang w) as (-> & -> & ->).
    rewrite runs_app. cbn. auto.
  - cbn [none]. rewrite !orb_false_r.
    destruct all.
    + destruct (stage_all_shape lang w) as (-> & -> & ->).
      rewrite runs_app. cbn. auto.
    + cbn [bool_decide decide_rel negb].
      replace (bool_decide (f :: fs <> [])) with true
        by (symmetry; now apply bool_decide_eq_true).
      cbn [negb]. unfold V2.stage_changes. rewrite bind_eq.
      destruct (stage_each_trace (f :: fs) w) as (H1 & H2 & H3).
      destruct (V2.stage_each (f :: fs) w) as [o w1].
      cbn [fst snd] in *. subst o. rewrite !bind_emit.
      match goal with |- context [V2.print_commands ?cs ?w0] =>
        destruct (print_commands_trace cs w0) as (-> & -> & ->)
      end.
      cbn [trace log stdin]. rewrite H2, H3, !runs_app.
      rewrite (runs_ran (fun file => [lit "git"; lit "add"; file])).
      rewrite (runs_printed (fun cmd => lit "$ " ++ cmd)). cbn.
      now rewrite !app_nil_r.
Qed.

Lemma unstage_runs (files : list str) (all : bool) (lang : str) (w : world) :
  fst (V2Tools.main_chain (V2Tools.Unstage files all) lang w) = Ret tt
  /\ stdin (snd (V2Tools.main_chain (V2Tools.Unstage files all) lang w)) = stdin w
  /\ runs (trace (snd (V2Tools.main_chain (V2Tools.Unstage files all) lang w)))
     = runs (trace w)
       ++ (if all || none files then [[lit "git"; lit "reset"]]
           else map (fun file =>
                       [lit "git"; lit "restore"; lit "--staged"; file])
                    files).
Proof.
  unfold V2Tools.main_chain.
  assert (Hall : fst (V2Tools.unstage_changes None true lang w) = Ret tt
                 /\ stdin (snd (V2Tools.unstage_changes None true lang w))
                    = stdin w
                 /\ runs (trace (snd (V2Tools.unstage_changes None true
                                        lang w)))
                    = runs (trace w) ++ [[lit "git"; lit "reset"]]).
  { unfold V2Tools.unstage_changes. run_cli.
    rewrite !runs_app. cbn. rewrite !app_nil_r. auto. }
  destruct files as [|f fs].
  - cbn [none bool_decide decide_rel negb]. rewrite !orb_true_r. exact Hall.
  - cbn [none]. rewrite !orb_false_r.
    destruct all; [exact Hall|].
    replace (bool_decide (f :: fs <> [])) with true
      by (symmetry; now apply bool_decide_eq_true).
    cbn [negb]. unfold V2Tools.unstage_changes. rewrite bind_eq.
    destruct (unstage_each_trace (f :: fs) w) as (H1 & H2 & H3).
    destruct (V2Tools.unstage_each (f :: fs) w) as [o w1].
    cbn [fst snd] in *. subst o.
    unfold V2Tools.executed, V2Tools.say. rewrite !bind_emit.
    match goal with |- context [V2.print_commands ?cs ?w0] =>
      destruct (print_commands_trace cs w0) as (-> & -> & ->)
    end.
    cbn [trace log stdin]. rewrite H2, H3, !runs_app.
    rewrite (runs_ran (fun file =>
                         [lit "git"; lit "restore"; lit "--staged"; file])).
    rewrite (runs_printed (fun cmd => lit "$ " ++ cmd)). cbn.
    now rewrite !app_nil_r.
Qed.

(** The branch that a push or a pull is about. *)
Lemma branch_or_current_eq (branch : option str) (lang : str) (w : world) :
  V2Tools.branch_or_current branch lang w
  = match V2Tools.named branch with
    | Some b => (Ret (Some b), w)
    | None =>
        match procs w (proc_calls w) with
        | Exit0 out =>
            (Ret (Some (strip out)),
             spawned [lit "git"; lit "rev-parse"; lit "--abbrev-ref";
                      lit "HEAD"] w)
        | ExitNonZero =>
            (Ret None,
             log (Printed
                    (lit nl
                     ++ (if str_eqb lang (lit "es")
                         then lit "Error getting current branch name!"
                         else ulit "¡Error al obtener el nombre de la rama actual!")))
                 (spawned [lit "git"; lit "rev-parse"; lit "--abbrev-ref";
                           lit "HEAD"] w))
        end
    end.
Proof.
  unfold V2Tools.branch_or_current.
  destruct (V2Tools.named branch); [reflexivity|].
  run_cli. destruct (procs w (proc_calls w)); reflexivity.
Qed.

Lemma stash_changes_runs
    (message : str) (pop apply list_stash : bool) (lang : str) (w : world) :
  fst (V2Tools.stash_changes message pop apply list_stash lang w) = Ret tt
  /\ stdin (snd (V2Tools.stash_changes message pop apply list_stash lang w))
     = stdin w
  /\ runs (trace (snd (V2Tools.stash_changes message pop apply list_stash
                         lang w)))
     = runs (trace w)
       ++ [[lit "git"; lit "stash"]
           ++ (if list_stash then [lit "list"]
               else if pop then [lit "pop"]
               else if apply then [lit "apply"]
               else lit "save" :: (if truthy message then [message] else []))].
Proof.
  unfold V2Tools.stash_changes.
  destruct list_stash; [|destruct pop; [|destruct apply]];
    run_cli; case_procs; run_cli; tally; auto.
Qed.

Lemma chain_reads_nothing (args : V2Tools.command) (lang : str) (w : world) :
  match args with
  | V2Tools.UndoCommit true => True
  | _ =>
      fst (V2Tools.main_chain args lang w) = Ret tt
      /\ stdin (snd (V2Tools.main_chain args lang w)) = stdin w
  end.
Proof.
  destruct args as [|files all|files all|branch flag|branch flag|
                    |name switch|branch create|message pop apply list|hard].
  - unfold V2Tools.main_chain, V2Tools.show_status. run_cli. auto.
  - destruct (stage_runs files all lang w) as (-> & -> & _). auto.
  - destruct (unstage_runs files all lang w) as (-> & -> & _). auto.
  - unfold V2Tools.main_chain, V2Tools.push_changes.
    rewrite !bind_eq, branch_or_current_eq.
    destruct (V2Tools.named branch) as [b|];
      [|destruct (procs w (proc_calls w)) as [out|] eqn:E0];
      cbv iota beta; destruct flag; run_cli; case_procs; run_cli; auto.
  - unfold V2Tools.main_chain, V2Tools.pull_changes.
    rewrite !bind_eq, branch_or_current_eq.
    destruct (V2Tools.named branch) as [b|];
      [|destruct (procs w (proc_calls w)) as [out|] eqn:E0];
      cbv iota beta; destruct flag; run_cli; case_procs; run_cli; auto.
  - unfold V2Tools.main_chain, V2Tools.list_branches. run_cli. auto.
  - unfold V2Tools.main_chain, V2Tools.create_branch.
    destruct (truthy name), switch; run_cli; case_procs; run_cli; auto.
  - unfold V2Tools.main_chain, V2Tools.create_branch, V2Tools.switch_branch.
    destruct (truthy branch), create; run_cli; case_procs; run_cli; auto.
  - unfold V2Tools.main_chain.
    destruct pop; [|destruct apply; [|destruct list]];
      match goal with |- context [V2Tools.stash_changes ?m ?p ?a ?l _ _] =>
        destruct (stash_changes_runs m p a l lang w) as (-> & -> & _)
      end; auto.
  - destruct hard; [exact I|].
    unfold V2Tools.main_chain, V2Tools.undo_last_commit. cbn [negb].
    run_cli; case_procs; run_cli; auto.
Qed.

(** [main] adds to its chain only the report of an exception: a chain
    that ends normally is the whole of [main]. *)
Lemma main_is_chain (args : V2Tools.command) (lang : str) (w : world) :
  args <> V2Tools.UndoCommit true ->
  V2Tools.main args lang w = V2Tools.main_chain args lang w.
Proof.
  intros Hargs.
  assert (Hr : fst (V2Tools.main_chain args lang w) = Ret tt).
  { pose proof (chain_reads_nothing args lang w) as H.
    destruct args as [| | | | | | | | |[|]]; try exact (proj1 H).
    now contradiction Hargs. }
  unfold V2Tools.main.
  destruct (V2Tools.main_chain args lang w) as [[[]|e| |] w1];
    cbn [fst] in Hr; try discriminate; reflexivity.
Qed.


(** X15.  [stage] and [unstage] run one command for the whole tree when
    [--all] is given or no file is named, and otherwise one command per
    named file, in the order given; they read nothing and end normally
    whatever [git] answers. *)
Theorem staging_runs (files : list str) (all : bool) (lang : str) (w : world) :
  (fst (V2Tools.main (V2Tools.Stage files all) lang w) = Ret tt
   /\ stdin (snd (V2Tools.main (V2Tools.Stage files all) lang w)) = stdin w
   /\ runs (trace (snd (V2Tools.main (V2Tools.Stage files all) lang w)))
      = runs (trace w)
        ++ (if all || none files then [[lit "git"; lit "add"; lit "."]]
            else map (fun file => [lit "git"; lit "add"; file]) files))
  /\ (fst (V2Tools.main (V2Tools.Unstage files all) lang w) = Ret tt
      /\ stdin (snd (V2Tools.main (V2Tools.Unstage files all) lang w))
         = stdin w
      /\ runs (trace (snd (V2Tools.main (V2Tools.Unstage files all) lang w)))
         = runs (trace w)
           ++ (if all || none files then [[lit "git"; lit "reset"]]
               else map (fun file =>
                           [lit "git"; lit "restore"; lit "--staged"; file])
                        files)).
Proof.
  rewrite !main_is_chain by discriminate.
  split; [apply stage_runs | apply unstage_runs].
Qed.












(** What [stage] and [unstage] print does not depend on what [git]
    answers. *)
Lemma stage_trace_unchecked
    (files : list str) (all : bool) (lang : str) (w : world)
    (answers : nat -> proc_outcome) :
  trace (snd (V2Tools.main_chain (V2Tools.Stage files all) lang
                (with_git answers w)))
  = trace (snd (V2Tools.main_chain (V2Tools.Stage files all) lang w)).
Proof.
  unfold V2Tools.main_chain, V2.main_stage. cbn [V2.files V2.all].
  destruct (all || negb (bool_decide (files <> []))).
  - destruct (stage_all_shape lang w) as (_ & _ & ->).
    destruct (stage_all_shape lang (with_git answers w)) as (_ & _ & ->).
    reflexivity.
  - destruct (bool_decide (files <> [])); [|reflexivity].
    unfold V2.stage_changes. destruct files as [|f fs]; [reflexivity|].
    rewrite !bind_eq.
    destruct (stage_each_trace (f :: fs) w) as (H1 & _ & H3).
    destruct (stage_each_trace (f :: fs) (with_git answers w))
      as (H1' & _ & H3').
    destruct (V2.stage_each (f :: fs) w) as [o w1].
    destruct (V2.stage_each (f :: fs) (with_git answers w)) as [o' w1'].
    cbn [fst snd] in *. subst o o'. rewrite !bind_emit.
    repeat match goal with |- context [V2.print_commands ?cs ?w0] =>
      destruct (print_commands_trace cs w0) as (_ & _ & ->)
    end.
    cbn [trace log]. now rewrite H3, H3'.
Qed.

Lemma unstage_trace_unchecked
    (files : list str) (all : bool) (lang : str) (w : world)
    (answers : nat -> proc_outcome) :
  trace (snd (V2Tools.main_chain (V2Tools.Unstage files all) lang
                (with_git answers w)))
  = trace (snd (V2Tools.main_chain (V2Tools.Unstage files all) lang w)).
Proof.
  unfold V2Tools.main_chain.
  destruct (all || negb (bool_decide (files <> []))).
  - unfold V2Tools.unstage_changes. run_cli. reflexivity.
  - destruct (bool_decide (files <> [])); [|reflexivity].
    unfold V2Tools.unstage_changes. destruct files as [|f fs]; [reflexivity|].
    rewrite !bind_eq.
    destruct (unstage_each_trace (f :: fs) w) as (H1 & _ & H3).
    destruct (unstage_each_trace (f :: fs) (with_git answers w))
      as (H1' & _ & H3').
    destruct (V2Tools.unstage_each (f :: fs) w) as [o w1].
    destruct (V2Tools.unstage_each (f :: fs) (with_git answers w))
      as [o' w1'].
    cbn [fst snd] in *. subst o o'.
    unfold V2Tools.executed, V2Tools.say. rewrite !bind_emit.
    repeat match goal with |- context [V2.print_commands ?cs ?w0] =>
      destruct (print_commands_trace cs w0) as (_ & _ & ->)
    end.
    cbn [trace log]. now rewrite H3, H3'.
Qed.

(** X21.  [status], [stage], [unstage], [branch] and [stash --list] never
    look at how [git] ended: what they print, the words of success
    included, is the same whatever [git] answers. *)
Theorem unchecked_subcommands
    (args : V2Tools.command) (lang : str) (w : world)
    (answers : nat -> proc_outcome) :
  match args with
  | V2Tools.Status | V2Tools.Stage _ _ | V2Tools.Unstage _ _
  | V2Tools.Branch | V2Tools.Stash _ false false true =>
      trace (snd (V2Tools.main args lang (with_git answers w)))
      = trace (snd (V2Tools.main args lang w))
      /\ fst (V2Tools.main args lang (with_git answers w)) = Ret tt
  | _ => True
  end.
Proof.
  destruct args as [|files all|files all|branch flag|branch flag|
                    |name switch|branch create|message pop apply list|hard];
    try exact I; rewrite ?main_is_chain by discriminate.
  - split; reflexivity.
  - split; [apply stage_trace_unchecked|].
    now destruct (stage_runs files all lang (with_git answers w)) as (-> & _).
  - split; [apply unstage_trace_unchecked|].
    now destruct (unstage_runs files all lang (with_git answers w))
      as (-> & _).
  - split; reflexivity.
  - destruct pop; [exact I|]. destruct apply; [exact I|].
    destruct list; [|exact I]. split; reflexivity.
Qed.

End Facts.
End Subcommands.

(** ** The menu helpers of the first script *)

Module Menu.
Import Py Sys Text Samples Observe PyFacts LoopFacts Runs Subcommands.

#[local] Arguments lit : simpl never.
#[local] Arguments ulit : simpl never.
#[local] Arguments decimal : simpl never.
#[local] Arguments str_eqb : simpl never.
#[local] Arguments strip : simpl never.
#[local] Arguments upper : simpl never.

Section Facts.
Context `{RT : PyRuntime}.

Ltac run_v1 :=
  cbv beta iota zeta
      delta [mbind M_bind mret M_ret emit subprocess_run subprocess_check
             raise try_except_called V1.run_git_command V1.track_command
             V1Tools.say];
  cbn [fst snd stdin net net_calls procs proc_calls trace
       log spawned left_to_read truthy negb].

Ltac case_procs :=
  repeat match goal with
         | |- context [match procs ?w ?n with _ => _ end] =>
             destruct (procs w n)
         end.



(** X22.  The helpers of the first script do not look at what
    [run_git_command] returns: each runs its one command, notes it as
    executed and prints its words of success, also when [git] failed and
    the failure has just been reported. *)
Theorem success_is_always_reported
    (lang branch_name message stash_id : str) (w : world) :
  truthy stash_id = true ->
  truthy message = true ->
  let ok en es := Printed (if str_eqb lang (lit "en") then en else es) in
  Forall
    (fun '(helper, argv, said) =>
       fst (helper w) = Ret tt
       /\ stdin (snd (helper w)) = stdin w
       /\ exists command description,
            trace (snd (helper w))
            = trace w ++ attempt w argv
              ++ [Tracked command description; said])
    [(V1Tools.add_files_to_stage (lit ".") lang,
      [lit "git"; lit "add"; lit "."],
      ok (lit nl ++ ulit "✅ All changes added to staging!")
         (lit nl ++ ulit "✅ ¡Todos los cambios añadidos al staging!"));
     (V1Tools.undo_changes (lit ".") lang,
      [lit "git"; lit "checkout"; lit "--"; lit "."],
      ok (lit nl ++ ulit "✅ All changes undone!")
         (lit nl ++ ulit "✅ ¡Todos los cambios deshechos!"));
     (V1Tools.pull_changes lang,
      [lit "git"; lit "pull"],
      ok (lit nl ++ ulit "✅ Changes pulled successfully!")
         (lit nl ++ ulit "✅ ¡Cambios descargados exitosamente!"));
     (V1Tools.create_branch branch_name lang,
      [lit "git"; lit "checkout"; lit "-b"; branch_name],
      ok (lit nl ++ ulit "✅ Branch '" ++ branch_name
          ++ lit "' created and checked out!")
         (lit nl ++ ulit "✅ ¡Rama '" ++ branch_name
          ++ lit "' creada y seleccionada!"));
     (V1Tools.switch_branch branch_name lang,
      [lit "git"; lit "checkout"; branch_name],
      ok (lit nl ++ ulit "✅ Switched to branch '" ++ branch_name ++ lit "'!")
         (lit nl ++ ulit "✅ ¡Cambiado a rama '" ++ branch_name ++ lit "'!"));
     (V1Tools.stash_changes message lang,
      [lit "git"; lit "stash"; lit "push"; lit "-m"; message],
      ok (lit nl ++ ulit "✅ Changes stashed successfully!")
         (lit nl ++ ulit "✅ ¡Cambios guardados temporalmente!"));
     (V1Tools.stash_changes [] lang,
      [lit "git"; lit "stash"; lit "push"],
      ok (lit nl ++ ulit "✅ Changes stashed successfully!")
         (lit nl ++ ulit "✅ ¡Cambios guardados temporalmente!"));
     (V1Tools.apply_stash (Some stash_id) lang,
      [lit "git"; lit "stash"; lit "apply"; stash_id],
      ok (lit nl ++ ulit "✅ Stash applied successfully!")
         (lit nl ++ ulit "✅ ¡Cambios temporales aplicados!"));
     (V1Tools.apply_stash None lang,
      [lit "git"; lit "stash"; lit "apply"],
      ok (lit nl ++ ulit "✅ Stash applied successfully!")
         (lit nl ++ ulit "✅ ¡Cambios temporales aplicados!"));
     (V1Tools.revert_last_commit lang,
      [lit "git"; lit "revert"; lit "HEAD"],
      ok (lit nl ++ ulit "✅ Last commit reverted successfully!")
         (lit nl ++ ulit "✅ ¡Último commit revertido exitosamente!"))].
Proof.
  intros Hid Hmsg. cbv zeta.
  repeat constructor;
    unfold V1Tools.add_files_to_stage, V1Tools.undo_changes,
      V1Tools.pull_changes, V1Tools.create_branch, V1Tools.switch_branch,
      V1Tools.stash_changes, V1Tools.apply_stash, V1Tools.revert_last_commit,
      V1Tools.given, attempt;
    rewrite ?Hid, ?Hmsg;
    try (change (str_eqb (lit ".") (lit ".")) with true; cbv iota);
    run_v1; case_procs; run_v1; try reflexivity;
    do 2 eexists; rewrite <- ?app_assoc; reflexivity.
Qed.

Ltac tally :=
  rewrite ?runs_app; cbn [runs app]; rewrite ?app_nil_r, <- ?app_assoc.

(** X23.  [push_changes] of the first script pushes to the branch it is
    given; without one it asks [git] for the current branch and pushes
    only when that gives a name: when it fails or prints nothing, nothing
    is pushed and the helper says that it could not determine the
    branch. *)
Theorem v1_push_needs_a_branch (branch : option str) (lang : str) (w : world) :
  let ask := [lit "git"; lit "branch"; lit "--show-current"] in
  let push b := [lit "git"; lit "push"; lit "origin"; b] in
  let current :=
    match procs w (proc_calls w) with
    | Exit0 out => if truthy (strip out) then Some (strip out) else None
    | ExitNonZero => None
    end in
  fst (V1Tools.push_changes branch lang w) = Ret tt
  /\ stdin (snd (V1Tools.push_changes branch lang w)) = stdin w
  /\ runs (trace (snd (V1Tools.push_changes branch lang w)))
     = runs (trace w)
       ++ match V1Tools.given branch with
          | Some b => [push b]
          | None => ask :: match current with
                           | Some b => [push b]
                           | None => []
                           end
          end
  /\ (V1Tools.given branch = None -> current = None ->
      exists before,
        trace (snd (V1Tools.push_changes branch lang w))
        = before
          ++ [Printed (if str_eqb lang (lit "en")
                       then lit "Could not determine current branch."
                       else lit "No se pudo determinar la rama actual.")]).
Proof.
  cbv zeta. unfold V1Tools.push_changes.
  destruct (V1Tools.given branch) as [b|] eqn:Hb.
  - rewrite bind_ret.
    assert (Hg : V1Tools.given (Some b) = Some b).
    { unfold V1Tools.given in Hb |- *.
      destruct branch as [x|]; [|discriminate].
      destruct (truthy x) eqn:E; [|discriminate]. injection Hb as <-.
      now rewrite E. }
    rewrite Hg. run_v1. case_procs; run_v1; tally;
      (split; [reflexivity|]); (split; [reflexivity|]);
      (split; [reflexivity|]); discriminate.
  - rewrite bind_eq, run_git_command_eq.
    destruct (procs w (proc_calls w)) as [out|]; cbv iota beta.
    + unfold V1Tools.given. destruct (truthy (strip out)).
      * run_v1. case_procs; run_v1; tally;
          (split; [reflexivity|]); (split; [reflexivity|]);
          (split; [reflexivity|]); discriminate.
      * run_v1. tally.
        split; [reflexivity|]. split; [reflexivity|]. split; [reflexivity|].
        intros _ _.
        exists (trace w ++ [Ran [lit "git"; lit "branch";
                                 lit "--show-current"]]).
        now rewrite <- app_assoc.
    + unfold V1Tools.given. run_v1. tally.
      split; [reflexivity|]. split; [reflexivity|]. split; [reflexivity|].
      intros _ _.
      exists (trace w
              ++ [Ran [lit "git"; lit "branch"; lit "--show-current"];
                  Notice (lit "es")
                    (GitCommandFailed
                       [lit "git"; lit "branch"; lit "--show-current"])]).
      now rewrite <- app_assoc.
Qed.


Lemma commits_other (a b : str) (l : list str) :
  str_eqb b (lit "commit") = false -> commits [Ran (a :: b :: l)] = [].
Proof.
  intros H. destruct l as [|c [|d [|e l]]]; try reflexivity.
  cbn [commits]. now rewrite H, andb_false_r.
Qed.

Ltac quiet_v1 :=
  unfold quiet_step;
  cbn [fst snd stdin net net_calls procs proc_calls trace
       log spawned left_to_read];
  rewrite ?posts_app, ?commits_app, ?posts_cons;
  change (posts []) with 0; cbn [app];
  rewrite ?commits_other by (vm_compute; reflexivity);
  cbn [commits]; rewrite ?app_nil_r;
  try (split; [reflexivity|]); try (split; [reflexivity|]);
  try (split; [reflexivity|]); try (split; [lia|]); try reflexivity.

Lemma print_entries_quiet (entries : list (str * str)) :
  forall (i : nat) (w : world),
    fst (V1Tools.print_entries i entries w) = Ret tt
    /\ quiet_step w (snd (V1Tools.print_entries i entries w)).
Proof.
  induction entries as [|[cmd desc] rest IH]; intros i w.
  - cbn. unfold quiet_step. auto.
  - cbn [V1Tools.print_entries]. rewrite !bind_emit.
    destruct (IH (S i) (log (Printed (lit "   $ " ++ cmd))
                          (log (Printed (lit nl ++ decimal i ++ lit ". "
                                         ++ desc)) w)))
      as (-> & Hs & Hn & Hp & Hc).
    split; [reflexivity|]. unfold quiet_step.
    rewrite Hs, Hn, Hp, Hc. quiet_v1.
Qed.

Lemma summary_quiet (cleared : nat) (w : world) :
  fst (V1Tools.show_command_summary cleared w) = Ret tt
  /\ quiet_step w (snd (V1Tools.show_command_summary cleared w)).
Proof.
  unfold V1Tools.show_command_summary.
  destruct (V1Tools.command_history cleared w) as [|e es];
    [unfold quiet_step; auto|].
  rewrite !bind_emit, bind_eq.
  match goal with |- context [V1Tools.print_entries ?i ?l ?w0] =>
    destruct (print_entries_quiet l i w0) as (Hr & Hs & Hn & Hp & Hc);
    destruct (V1Tools.print_entries i l w0) as [o w1]
  end.
  cbn [fst snd] in Hr, Hs, Hn, Hp, Hc. subst o. rewrite !bind_emit.
  unfold emit. cbn [fst snd]. split; [reflexivity|].
  unfold quiet_step. cbn [stdin net_calls trace log] in *.
  rewrite !posts_app, !commits_app, Hs, Hn, Hp, Hc.
  rewrite !posts_app, !commits_app. cbn. rewrite ?app_nil_r.
  repeat split; lia.
Qed.

Lemma helpers_quiet (lang a : str) (o : option str) (w : world) :
  (fst (V1Tools.show_status lang w) = Ret tt
   /\ quiet_step w (snd (V1Tools.show_status lang w)))
  /\ (fst (V1Tools.add_files_to_stage a lang w) = Ret tt
      /\ quiet_step w (snd (V1Tools.add_files_to_stage a lang w)))
  /\ (fst (V1Tools.undo_changes a lang w) = Ret tt
      /\ quiet_step w (snd (V1Tools.undo_changes a lang w)))
  /\ (fst (V1Tools.push_changes o lang w) = Ret tt
      /\ quiet_step w (snd (V1Tools.push_changes o lang w)))
  /\ (fst (V1Tools.pull_changes lang w) = Ret tt
      /\ quiet_step w (snd (V1Tools.pull_changes lang w)))
  /\ (fst (V1Tools.list_branches lang w) = Ret tt
      /\ quiet_step w (snd (V1Tools.list_branches lang w)))
  /\ (fst (V1Tools.create_branch a lang w) = Ret tt
      /\ quiet_step w (snd (V1Tools.create_branch a lang w)))
  /\ (fst (V1Tools.switch_branch a lang w) = Ret tt
      /\ quiet_step w (snd (V1Tools.switch_branch a lang w)))
  /\ (fst (V1Tools.stash_changes a lang w) = Ret tt
      /\ quiet_step w (snd (V1Tools.stash_changes a lang w)))
  /\ (fst (V1Tools.apply_stash o lang w) = Ret tt
      /\ quiet_step w (snd (V1Tools.apply_stash o lang w)))
  /\ (fst (V1Tools.revert_last_commit lang w) = Ret tt
      /\ quiet_step w (snd (V1Tools.revert_last_commit lang w))).
Proof.
  repeat match goal with |- _ /\ _ => split end;
    unfold V1Tools.show_status, V1Tools.add_files_to_stage,
      V1Tools.undo_changes, V1Tools.push_changes, V1Tools.pull_changes,
      V1Tools.list_branches, V1Tools.create_branch, V1Tools.switch_branch,
      V1Tools.stash_changes, V1Tools.apply_stash, V1Tools.revert_last_commit;
    repeat match goal with
           | |- context [if str_eqb ?x ?y then _ else _] =>
               destruct (str_eqb x y)
           | |- context [match V1Tools.given ?x with _ => _ end] =>
               destruct (V1Tools.given x)
           | |- context [if truthy ?x then _ else _] => destruct (truthy x)
           end;
    run_v1; case_procs; run_v1;
    repeat match goal with
           | |- context [match V1Tools.given ?x with _ => _ end] =>
               destruct (V1Tools.given x)
           | |- context [if truthy ?x then _ else _] => destruct (truthy x)
           end;
    run_v1; case_procs; run_v1; try reflexivity; quiet_v1.
Qed.

Ltac with_helper h a o l w0 :=
  let Hr := fresh "Hr" in
  let Hq := fresh "Hq" in
  let r := fresh "r" in
  let w1 := fresh "w" in
  assert (fst (h w0) = Ret tt /\ quiet_step w0 (snd (h w0))) as [Hr Hq]
    by (pose proof (helpers_quiet l a o w0); tauto);
  destruct (h w0) as [r w1]; cbn [fst snd] in Hr, Hq; subst r;
  destruct Hq as (? & ? & ? & ?).

Ltac serve :=
  rewrite ?bind_eq;
  match goal with
  | |- context [V1Tools.show_status ?l ?w0] =>
      with_helper (V1Tools.show_status l) (@nil N) (@None (list N)) l w0
  | |- context [V1Tools.add_files_to_stage ?a ?l ?w0] =>
      with_helper (V1Tools.add_files_to_stage a l) a (@None (list N)) l w0
  | |- context [V1Tools.undo_changes ?a ?l ?w0] =>
      with_helper (V1Tools.undo_changes a l) a (@None (list N)) l w0
  | |- context [V1Tools.push_changes ?o ?l ?w0] =>
      with_helper (V1Tools.push_changes o l) (@nil N) o l w0
  | |- context [V1Tools.pull_changes ?l ?w0] =>
      with_helper (V1Tools.pull_changes l) (@nil N) (@None (list N)) l w0
  | |- context [V1Tools.list_branches ?l ?w0] =>
      with_helper (V1Tools.list_branches l) (@nil N) (@None (list N)) l w0
  | |- context [V1Tools.create_branch ?a ?l ?w0] =>
      with_helper (V1Tools.create_branch a l) a (@None (list N)) l w0
  | |- context [V1Tools.switch_branch ?a ?l ?w0] =>
      with_helper (V1Tools.switch_branch a l) a (@None (list N)) l w0
  | |- context [V1Tools.stash_changes ?a ?l ?w0] =>
      with_helper (V1Tools.stash_changes a l) a (@None (list N)) l w0
  | |- context [V1Tools.apply_stash ?o ?l ?w0] =>
      with_helper (V1Tools.apply_stash o l) (@nil N) o l w0
  | |- context [V1Tools.revert_last_commit ?l ?w0] =>
      with_helper (V1Tools.revert_last_commit l) (@nil N) (@None (list N)) l w0
  end.

Ltac summarize :=
  match goal with
  | |- context [V1Tools.show_command_summary ?c ?w0] =>
      let Hr := fresh "Hr" in
      let Hq := fresh "Hq" in
      let r := fresh "r" in
      let w1 := fresh "w" in
      destruct (summary_quiet c w0) as [Hr Hq];
      destruct (V1Tools.show_command_summary c w0) as [r w1];
      cbn [fst snd] in Hr, Hq; subst r;
      destruct Hq as (? & ? & ? & ?)
  end.

Ltac read :=
  repeat (progress (cbv beta iota; unfold mret, M_ret; rewrite ?bind_eq));
  first [rewrite bind_input_cases | progress unfold input | idtac];
  cbn [stdin left_to_read log];
  match goal with
  | |- context [match ?l with [] => _ | _ :: _ => _ end] =>
      is_var l; destruct l as [|? ?]
  end.

Ltac choices :=
  repeat match goal with
         | |- context [if str_eqb ?x ?y then _ else _] =>
             destruct (str_eqb x y) eqn:?
         end.

Ltac norm :=
  repeat (progress (cbv beta iota; unfold mret, M_ret; rewrite ?bind_eq)).

Ltac settle :=
  norm; cbn [fst snd stdin net_calls trace left_to_read log];
  repeat match goal with
         | H : stdin _ = _ |- _ => rewrite H
         | H : net_calls _ = _ |- _ => rewrite H
         | H : posts _ = _ |- _ => rewrite H
         | H : commits _ = _ |- _ => rewrite H
         end;
  cbn [fst snd stdin net_calls trace left_to_read log length];
  repeat split; try reflexivity; try lia.

Ltac leaf :=
  norm; repeat first [serve; norm | summarize; norm]; settle.

(** One pass of the menu: it asks the remote model nothing and commits
    nothing; a pass that comes back to the top has read a line. *)
Lemma menu_pass_shape (cleared : nat) (lang : str) (w : world) :
  let r := V1Tools.menu_pass cleared lang w in
  net_calls (snd r) = net_calls w
  /\ posts (trace (snd r)) = posts (trace w)
  /\ commits (trace (snd r)) = commits (trace w)
  /\ match fst r with
     | Ret (Again _) => length (stdin (snd r)) < length (stdin w)
     | Ret Leave =>
         exists line rest,
           stdin w = line :: rest /\ strip line = lit "9"
           /\ snd r = left_to_read rest w
     | Raise e => e = EOFError
     | Beyond | OutOfFuel => False
     end.
Proof.
  cbv zeta. unfold V1Tools.menu_pass.
  rewrite bind_input_cases.
  destruct (stdin w) as [|line rest] eqn:Hin; [cbn; auto|].
  cbv zeta. rewrite bind_eq.
  destruct (str_eqb (strip line) (lit "1")).
  { leaf. }
  destruct (str_eqb (strip line) (lit "2")).
  { norm. read; [settle|]. choices; [leaf | read; [settle | leaf] | leaf]. }
  destruct (str_eqb (strip line) (lit "3")).
  { norm. read; [settle|]. choices; [leaf | read; [settle | leaf] | leaf]. }
  destruct (str_eqb (strip line) (lit "4")).
  { norm. read; [settle | leaf]. }
  destruct (str_eqb (strip line) (lit "5")).
  { leaf. }
  destruct (str_eqb (strip line) (lit "6")).
  { norm. read; [settle|].
    choices; [leaf | read; [settle | leaf] | read; [settle | leaf] | leaf]. }
  destruct (str_eqb (strip line) (lit "7")).
  { norm. read; [settle|].
    choices; [read; [settle | leaf] | read; [settle | leaf] | leaf]. }
  destruct (str_eqb (strip line) (lit "8")).
  { leaf. }
  destruct (str_eqb (strip line) (lit "9")) eqn:E9.
  { norm. cbn [fst snd]. repeat split; try reflexivity.
    exists line, rest. apply bool_decide_eq_true in E9. auto. }
  unfold V1Tools.say. rewrite bind_emit. leaf;
    rewrite ?posts_app, ?commits_app; cbn; rewrite ?app_nil_r; lia || reflexivity.
Qed.

Lemma menu_loop_shape (cleared : nat) (lang : str) (fuel : nat) :
  forall w : world,
    length (stdin w) < fuel ->
    let r := V1Tools.menu_loop fuel cleared lang w in
    (fst r = Ret tt \/ fst r = Raise EOFError)
    /\ net_calls (snd r) = net_calls w
    /\ posts (trace (snd r)) = posts (trace w)
    /\ commits (trace (snd r)) = commits (trace w).
Proof.
  induction fuel as [|fuel IH]; intros w Hlen; [lia|]. cbv zeta.
  cbn [V1Tools.menu_loop]. rewrite bind_eq.
  pose proof (menu_pass_shape cleared lang w) as Hpass. cbv zeta in Hpass.
  destruct Hpass as (Hn & Hp & Hc & Hr).
  destruct (V1Tools.menu_pass cleared lang w) as [[[[]|]|e| |] w1];
    cbn [fst snd] in Hn, Hp, Hc, Hr |- *; try contradiction.
  - specialize (IH w1). cbv zeta in IH.
    destruct IH as (IH1 & IH2 & IH3 & IH4); [lia|].
    rewrite IH2, IH3, IH4. auto.
  - unfold mret, M_ret. cbn [fst snd]. auto.
  - subst e. auto.
Qed.

(** X25.  The menu of the first script ends on every input: with the
    choice 9, or with [EOFError] when the input runs out.  Whatever is
    chosen, it asks the remote model nothing and makes no commit.  The
    choice 9 leaves at once: nothing is run and nothing printed. *)
Theorem menu_ends_and_stays_local (cleared : nat) (lang : str) (w : world) :
  let r := V1Tools.git_management_menu cleared lang w in
  (fst r = Ret tt \/ fst r = Raise EOFError)
  /\ net_calls (snd r) = net_calls w
  /\ posts (trace (snd r)) = posts (trace w)
  /\ commits (trace (snd r)) = commits (trace w)
  /\ (forall line rest,
        stdin w = line :: rest -> strip line = lit "9" ->
        r = (Ret tt, left_to_read rest w)).
Proof.
  cbv zeta. unfold V1Tools.git_management_menu.
  destruct (menu_loop_shape cleared lang (S (length (stdin w))) w
              (Nat.lt_succ_diag_r _)) as (H1 & H2 & H3 & H4).
  split; [exact H1 | split; [exact H2 | split; [exact H3|]]].
  split; [exact H4|].
  intros line rest Hin H9. cbn [V1Tools.menu_loop].
  unfold V1Tools.menu_pass. rewrite bind_eq, bind_input_cases, Hin.
  cbv zeta. rewrite H9.
  change (str_eqb (lit "9") (lit "1")) with false.
  change (str_eqb (lit "9") (lit "2")) with false.
  change (str_eqb (lit "9") (lit "3")) with false.
  change (str_eqb (lit "9") (lit "4")) with false.
  change (str_eqb (lit "9") (lit "5")) with false.
  change (str_eqb (lit "9") (lit "6")) with false.
  change (str_eqb (lit "9") (lit "7")) with false.
  change (str_eqb (lit "9") (lit "8")) with false.
  change (str_eqb (lit "9") (lit "9")) with true.
  reflexivity.
Qed.

End Facts.

(** *** The same on a concrete input *)

Lemma success_is_always_reported_witness :
  truthy (lit "stash@{0}") = true
  /\ truthy (lit "wip") = true
  /\ procs (failing_git [] []) 0 = ExitNonZero
  /\ fst (V1Tools.pull_changes (lit "en") (failing_git [] [])) = Ret tt
  /\ exists before,
       trace (snd (V1Tools.pull_changes (lit "en") (failing_git [] [])))
       = before
         ++ [Printed (lit nl ++ ulit "✅ Changes pulled successfully!")].
Proof.
  assert (H1 : truthy (lit "stash@{0}") = true) by reflexivity.
  assert (H2 : truthy (lit "wip") = true) by reflexivity.
  split; [exact H1|]. split; [exact H2|]. split; [reflexivity|].
  pose proof (Forall_inv
                (Forall_inv_tail
                   (Forall_inv_tail
                      (success_is_always_reported (lit "en") (lit "topic")
                         (lit "wip") (lit "stash@{0}") (failing_git [] [])
                         H1 H2)))) as T.
  cbv beta iota in T. destruct T as (Hr & _ & command & description & Ht).
  split; [exact Hr|].
  exists (trace (failing_git [] [])
          ++ attempt (failing_git [] []) [lit "git"; lit "pull"]
          ++ [Tracked command description]).
  rewrite Ht. rewrite <- !app_assoc. reflexivity.
Defined.

End Menu.

(** ** The manual extraction and the hand-written message *)

Module Replies.
Import Py Json Sys Text Samples Observe PyFacts MoreStrings LoopFacts.

#[local] Arguments lit : simpl never.
#[local] Arguments strip : simpl never.

Section Facts.
Context `{RT : PyRuntime}.

Lemma strip_trimmed (s : str) : trimmed s = true -> strip s = s.
Proof.
  intros H. unfold strip. apply strip_by_id.
  - intros c r ->. cbn [trimmed] in H.
    apply andb_true_iff in H as [H _]. now apply negb_true_iff in H.
  - intros r x ->. destruct (r ++ [x]) as [|c r'] eqn:E.
    { now destruct r. }
    cbn [trimmed] in H. apply andb_true_iff in H as [_ H].
    apply negb_true_iff in H. rewrite <- E in H.
    now rewrite last_last in H.
Qed.

Lemma trimmed_ends (c x : char) (mid : str) :
  isspace c = false -> isspace x = false ->
  trimmed (c :: mid ++ [x]) = true.
Proof.
  intros Hc Hx. unfold trimmed. rewrite Hc. cbn [negb andb].
  change (c :: mid ++ [x]) with ((c :: mid) ++ [x]).
  now rewrite last_last, Hx.
Qed.

Lemma plain_out (s : str) (c : char) :
  plain s = true ->
  In c [10%N; chr ":"; chr "("; chr ")"] -> ~ In c s.
Proof.
  intros H Hc Hin. unfold plain in H. rewrite forallb_forall in H.
  specialize (H c Hin). apply negb_true_iff in H.
  assert (existsb (N.eqb c) [10%N; chr ":"; chr "("; chr ")"] = true)
    by (apply existsb_exists; exists c; split; [exact Hc | apply N.eqb_refl]).
  congruence.
Qed.

Lemma split1_go_char (c : char) (a b : str) : forall cur,
  ~ In c a ->
  split1_go [c] cur (a ++ c :: b) = (rev cur ++ a, Some b).
Proof.
  induction a as [|x a IH]; intros cur Hin.
  - cbn [app]. destruct b as [|y b]; cbn [split1_go startswith];
      rewrite N.eqb_refl; cbn; now rewrite app_nil_r.
  - assert (Hx : (c =? x)%N = false).
    { apply N.eqb_neq. intros ->. apply Hin. now left. }
    cbn [app]. cbn [split1_go startswith]. rewrite Hx. cbn [andb].
    rewrite IH by (intros H; apply Hin; now right).
    cbn [rev]. now rewrite <- app_assoc.
Qed.

Lemma split1_char (c : char) (a b : str) :
  ~ In c a -> split1 [c] (a ++ c :: b) = (a, Some b).
Proof. intros H. unfold split1. now rewrite split1_go_char. Qed.

Lemma split_go_one (c : char) (s : str) : forall cur,
  ~ In c s -> split_go [c] 0 cur s = [rev cur ++ s].
Proof.
  induction s as [|x s IH]; intros cur Hin.
  - cbn. now rewrite app_nil_r.
  - assert (Hx : (c =? x)%N = false).
    { apply N.eqb_neq. intros ->. apply Hin. now left. }
    cbn [split_go startswith]. rewrite Hx. cbn [andb].
    rewrite IH by (intros H; apply Hin; now right).
    cbn [rev]. now rewrite <- app_assoc.
Qed.

Lemma contains_char_false (c : char) (s : str) :
  ~ In c s -> contains [c] s = false.
Proof.
  intros H. destruct (contains [c] s) eqn:E; [|reflexivity].
  apply contains_char_In in E. contradiction.
Qed.

Lemma contains_char_true (c : char) (s : str) :
  In c s -> contains [c] s = true.
Proof. apply contains_char_In. Qed.

Lemma strip_after_space (s : str) : strip (lit " " ++ s) = strip s.
Proof. reflexivity. Qed.

Lemma not_in_app (c : char) (a b : str) :
  ~ In c a -> ~ In c b -> ~ In c (a ++ b).
Proof. intros Ha Hb H. apply in_app_or in H as [H|H]; contradiction. Qed.

(** X26.  The manual extraction reads back the header that the review loop
    writes: for a type, a scope and a subject that are trimmed and hold
    no line feed, and a type and a scope without colon or parenthesis, the
    one-line reply [type(scope): subject] (or [type: subject] without a
    scope) gives exactly these three fields and an empty body, breaking
    text and footer. *)
Theorem fallback_reads_the_header (commit_type scope subject : str) :
  plain commit_type = true -> trimmed commit_type = true ->
  plain scope = true -> trimmed scope = true ->
  trimmed subject = true -> ~ In 10%N subject ->
  V2.fallback_fields (V2.assemble_header commit_type scope subject)
  = V2.six_fields commit_type scope subject [] [] [].
Proof.
  intros Pt Tt Ps Ts Tsu Nsu.
  assert (Hnl : forall x, plain x = true -> ~ In 10%N x)
    by (intros x Hx; apply (plain_out x _ Hx); cbn; auto).
  assert (Hco : forall x, plain x = true -> ~ In (chr ":") x)
    by (intros x Hx; apply (plain_out x _ Hx); cbn; auto).
  assert (Hop : forall x, plain x = true -> ~ In (chr "(") x)
    by (intros x Hx; apply (plain_out x _ Hx); cbn; auto).
  assert (Hcl : forall x, plain x = true -> ~ In (chr ")") x)
    by (intros x Hx; apply (plain_out x _ Hx); cbn; auto).
  unfold V2.fallback_fields, V2.assemble_header.
  destruct (truthy scope) eqn:Hsc.
  - set (ts := commit_type ++ lit "(" ++ scope ++ lit ")").
    assert (Hhead : commit_type ++ (lit "(" ++ scope ++ lit ")")
                    ++ lit ": " ++ subject
                    = ts ++ chr ":" :: (lit " " ++ subject)).
    { unfold ts. now rewrite <- !app_assoc. }
    rewrite Hhead.
    assert (Hts10 : ~ In 10%N ts).
    { unfold ts. repeat apply not_in_app; auto;
        cbn; intros [H|[]]; discriminate. }
    assert (Htsc : ~ In (chr ":") ts).
    { unfold ts. repeat apply not_in_app; auto;
        cbn; intros [H|[]]; discriminate. }
    assert (Hone : split (lit nl) (ts ++ chr ":" :: lit " " ++ subject)
                   = [ts ++ chr ":" :: lit " " ++ subject]).
    { unfold split. change (lit nl) with [10%N].
      rewrite split_go_one; [reflexivity|].
      apply not_in_app; [exact Hts10|].
      cbn. intros [H|[H|H]]; try discriminate. contradiction. }
    rewrite Hone. cbv zeta. cbn [length Nat.ltb Nat.leb].
    change (lit ":") with [chr ":"]. rewrite split1_char by exact Htsc.
    assert (Hstrip : strip ts = ts).
    { apply strip_trimmed. unfold ts.
      destruct commit_type as [|c r].
      - apply (trimmed_ends (chr "(") (chr ")") scope); reflexivity.
      - cbn [trimmed] in Tt. apply andb_true_iff in Tt as [Tt _].
        apply negb_true_iff in Tt.
        replace ((c :: r) ++ lit "(" ++ scope ++ lit ")")
          with (c :: (r ++ lit "(" ++ scope) ++ [chr ")"])
          by (cbn [app]; now rewrite <- !app_assoc).
        apply trimmed_ends; [exact Tt | reflexivity]. }
    rewrite Hstrip, strip_after_space, (strip_trimmed subject Tsu).
    assert (Hin1 : contains (lit "(") ts = true).
    { apply contains_char_true. unfold ts. apply in_or_app. right. now left. }
    assert (Hin2 : contains (lit ")") ts = true).
    { apply contains_char_true. unfold ts. rewrite !app_assoc.
      apply in_or_app. right. now left. }
    rewrite Hin1, Hin2. cbn [andb].
    unfold ts at 1. change (lit "(" ++ scope ++ lit ")")
      with (chr "(" :: (scope ++ lit ")")).
    change (lit "(") with [chr "("]. rewrite split1_char by auto.
    change (lit ")") with [chr ")"].
    change (scope ++ [chr ")"]) with (scope ++ chr ")" :: []).
    rewrite split1_char by auto. cbn [fst].
    now rewrite (strip_trimmed _ Tt), (strip_trimmed _ Ts).
  - destruct scope; [|discriminate]. cbn [app].
    assert (Hhead : commit_type ++ lit ": " ++ subject
                    = commit_type ++ chr ":" :: (lit " " ++ subject))
      by reflexivity.
    rewrite Hhead.
    assert (Hone : split (lit nl) (commit_type ++ chr ":" :: lit " " ++ subject)
                   = [commit_type ++ chr ":" :: lit " " ++ subject]).
    { unfold split. change (lit nl) with [10%N].
      rewrite split_go_one; [reflexivity|].
      apply not_in_app; [auto|].
      cbn. intros [H|[H|H]]; try discriminate. contradiction. }
    rewrite Hone. cbv zeta. cbn [length Nat.ltb Nat.leb].
    change (lit ":") with [chr ":"]. rewrite split1_char by auto.
    rewrite (strip_trimmed _ Tt), strip_after_space, (strip_trimmed _ Tsu).
    change (lit "(") with [chr "("].
    rewrite (contains_char_false _ _ (Hop _ Pt)). reflexivity.
Qed.



(** X28.  With an empty diff neither generator asks the remote model: each
    answers with a fixed text, and the two scripts choose its language the
    opposite way: for [en] the first script answers in English and the
    second in Spanish, for [es] the other way round. *)
Theorem languages_are_swapped
    (api_key diff commit_type scope lang : str) (w : world) :
  truthy diff = false ->
  V1.generate_commit_message api_key diff commit_type scope lang w
  = (Ret (if str_eqb lang (lit "en") then lit "No changes to commit"
          else lit "No hay cambios para hacer commit"), w)
  /\ V2.generate_commit_message api_key diff lang w
     = (Ret (V2.six_fields [] []
               (if str_eqb lang (lit "es") then lit "No changes to commit"
                else lit "No hay cambios para hacer commit") [] [] []), w)
  /\ (str_eqb lang (lit "en") || str_eqb lang (lit "es") = true ->
      (if str_eqb lang (lit "en") then lit "No changes to commit"
       else lit "No hay cambios para hacer commit")
      <> (if str_eqb lang (lit "es") then lit "No changes to commit"
          else lit "No hay cambios para hacer commit")).
Proof.
  intros Hd. unfold V1.generate_commit_message, V2.generate_commit_message.
  rewrite Hd. cbn [negb]. split; [reflexivity|]. split; [reflexivity|].
  intros H. unfold str_eqb in *.
  destruct (bool_decide (lang = lit "en")) eqn:E1.
  - apply bool_decide_eq_true in E1. subst lang.
    vm_compute. discriminate.
  - destruct (bool_decide (lang = lit "es")) eqn:E2; [|discriminate].
    vm_compute. discriminate.
Qed.

End Facts.

Lemma fallback_reads_the_header_witness :
  plain (lit "fix") = true /\ trimmed (lit "fix") = true
  /\ plain (lit "core") = true /\ trimmed (lit "core") = true
  /\ trimmed (lit "Fix: the crash") = true
  /\ ~ In 10%N (lit "Fix: the crash")
  /\ V2.fallback_fields (lit "fix(core): Fix: the crash")
     = V2.six_fields (lit "fix") (lit "core") (lit "Fix: the crash") [] [] [].
Proof.
  assert (H1 : plain (lit "fix") = true) by reflexivity.
  assert (H2 : trimmed (lit "fix") = true) by reflexivity.
  assert (H3 : plain (lit "core") = true) by reflexivity.
  assert (H4 : trimmed (lit "core") = true) by reflexivity.
  assert (H5 : trimmed (lit "Fix: the crash") = true) by reflexivity.
  assert (H6 : ~ In 10%N (lit "Fix: the crash")).
  { intros H. vm_compute in H.
    repeat match goal with H : _ \/ _ |- _ => destruct H as [H|H] end;
      try discriminate; contradiction. }
  split; [exact H1|]. split; [exact H2|]. split; [exact H3|].
  split; [exact H4|]. split; [exact H5|]. split; [exact H6|].
  exact (fallback_reads_the_header (lit "fix") (lit "core")
           (lit "Fix: the crash") H1 H2 H3 H4 H5 H6).
Defined.

Lemma languages_are_swapped_witness :
  truthy [] = false
  /\ fst (V1.generate_commit_message (lit "key") [] (lit "fix") [] (lit "en")
            (stub_world [] []))
     = Ret (lit "No changes to commit")
  /\ fst (V2.generate_commit_message (lit "key") [] (lit "en")
            (stub_world [] []))
     = Ret (V2.six_fields [] [] (lit "No hay cambios para hacer commit")
              [] [] []).
Proof.
  assert (H : truthy [] = false) by reflexivity.
  split; [exact H|].
  destruct (languages_are_swapped (lit "key") [] (lit "fix") [] (lit "en")
              (stub_world [] []) H) as (H1 & H2 & _).
  rewrite H1, H2. split; reflexivity.
Defined.

End Replies.

(** ** The diff that both scripts start from *)

Module Diffs.
Import Py Sys Text Samples Observe LoopFacts Runs.

#[local] Arguments lit : simpl never.
#[local] Arguments strip : simpl never.

Section Facts.
Context `{RT : PyRuntime} `{CR : CliRuntime}.

(** X29.  In a run in which [git] is started, [get_git_diff] of either
    script runs [git diff --staged] once and reads nothing.  When [git]
    ends with status zero it returns the trimmed output, and the first
    script notes the command as executed.  After any other status it
    returns the empty text, so that a failed [git diff] reads as no
    changes; the failure is reported by [run_git_command] in the first
    script and by [get_git_diff] itself in the second, and the first
    script does not note the command. *)
Theorem failed_diff_reads_as_no_changes (w : world) :
  let argv := [lit "git"; lit "diff"; lit "--staged"] in
  match procs w (proc_calls w) with
  | Exit0 out =>
      V1Tools.get_git_diff w
      = (Ret (strip out),
         log (Tracked (lit "git diff --staged")
                (lit "Show staged changes / Mostrar cambios preparados"))
             (spawned argv w))
      /\ V2.get_git_diff w = (Ret (strip out), spawned argv w)
  | ExitNonZero =>
      V1Tools.get_git_diff w
      = (Ret [], log (Notice (lit "es") (GitCommandFailed argv))
                     (spawned argv w))
      /\ V2.get_git_diff w
         = (Ret [], log (Notice (lit "en") ErrorGettingDiff) (spawned argv w))
  end.
Proof.
  cbv zeta. unfold V1Tools.get_git_diff, V2.get_git_diff, try_except.
  rewrite bind_eq, run_git_command_eq.
  unfold try_except_called, subprocess_check. rewrite !bind_eq.
  unfold subprocess_run, V1.track_command.
  destruct (procs w (proc_calls w)) as [out|]; split; reflexivity.
Qed.

End Facts.
End Diffs.
